(** * A shallow embedding of the Wayland highgui backend

    Source: [modules/highgui/src/window_wayland.cpp].

    The backend is single threaded; its only interlocutors are the kernel
    (epoll, shm) and the compositor (protocol events).  Each C++ class is
    a record, each method a function on that record.  What the outside
    world answers to a call (a return code, [errno], the events a
    dispatch delivers) is an explicit argument of the function that makes
    the call.  A method returns a [result]: [Ok] with its value, [Throw]
    when the C++ code throws, [Fault] when the C++ code has undefined
    behaviour (an access out of bounds, overflow of an [int] in the
    arithmetic on sizes and offsets, [front()] of an empty queue, a
    library call that crashes), [Pending] when a loop that waits for the
    outside world has used up all the answers it was given and is still
    waiting. *)

From stdpp Require Import gmap strings list fin_maps pretty.
From Stdlib Require Import ZArith Lia.

Local Open Scope Z_scope.

(** ** Results of fallible code *)

Inductive result (A : Type) : Type :=
  | Ok (a : A)
  | Throw (msg : string)
  | Fault
  | Pending.

Arguments Ok {A} a.
Arguments Throw {A} msg.
Arguments Fault {A}.
Arguments Pending {A}.

#[global] Instance result_ret : MRet result := fun A a => Ok a.

#[global] Instance result_bind : MBind result := fun A B f m =>
  match m with
  | Ok a => f a
  | Throw msg => Throw msg
  | Fault => Fault
  | Pending => Pending
  end.

#[global] Instance result_fmap : FMap result := fun A B f m =>
  match m with
  | Ok a => Ok (f a)
  | Throw msg => Throw msg
  | Fault => Fault
  | Pending => Pending
  end.

(** ** Machine integers *)

Definition uint8 (z : Z) : Z := z mod 2 ^ 8.
Definition uint32 (z : Z) : Z := z mod 2 ^ 32.

Definition is_byte (z : Z) : Prop := 0 ≤ z < 256.

(** An [int] computation: signed overflow is undefined behaviour. *)
Definition int_range (z : Z) : Prop := - 2 ^ 31 ≤ z < 2 ^ 31.

Definition int (z : Z) : result Z :=
  if decide (int_range z) then Ok z else Fault.

(** ** Memory seen through a pointer

    A [uint8_t *] is a list of bytes, a buffer written through
    [uint32_t *] at offsets that are multiples of 4 is a list of 32-bit
    words.  Reading or writing outside the list is a [Fault]. *)

Definition load {A} (l : list A) (i : Z) : result A :=
  if decide (0 ≤ i) then
    match l !! Z.to_nat i with
    | Some v => Ok v
    | None => Fault
    end
  else Fault.

Definition store {A} (l : list A) (i : Z) (v : A) : result (list A) :=
  if decide (0 ≤ i < Z.of_nat (length l)) then Ok (<[Z.to_nat i := v]> l)
  else Fault.

(** [for (int i = 0; i < n; i++) body], on a state [T]: [for_from]
    runs [body] at [i], [i + 1], ... for [count] turns. *)

Fixpoint for_from {T} (i : Z) (count : nat) (body : Z → T → result T) (s : T)
  : result T :=
  match count with
  | O => Ok s
  | S k => s' ← body i s; for_from (i + 1) k body s'
  end.

Definition for_range {T} (n : Z) (body : Z → T → result T) (s : T) : result T :=
  for_from 0 (Z.to_nat n) body s.

(** ** Free functions *)

(** [xkb_keysym_to_ascii]: [static_cast<uint8_t>(keysym)]. *)
Definition xkb_keysym_to_ascii (keysym : Z) : Z := uint8 keysym.

(** [xkb_keycode_from_raw_keycode]: [raw_keycode + 8], as [uint32_t]. *)
Definition xkb_keycode_from_raw_keycode (raw_keycode : Z) : Z :=
  uint32 (raw_keycode + 8).

(** [draw_argb8888]: the four [uint8_t] arguments are promoted to [int],
    shifted, or-ed and stored as one [uint32_t].  The pointer [d] is the
    buffer [data] and a byte offset [d] into it, which the store needs
    to be a multiple of 4: it writes word [d / 4]. *)
Definition argb8888 (a r g b : Z) : Z :=
  uint32 (Z.lor (Z.lor (Z.lor (Z.shiftl a 24) (Z.shiftl r 16)) (Z.shiftl g 8)) b).

Definition draw_argb8888 (data : list Z) (d : Z) (a r g b : Z) : result (list Z) :=
  if decide (d mod 4 = 0) then store data (d / 4) (argb8888 a r g b) else Fault.

(** [CvMat], the fields the backend reads: [data] is [mat->data.ptr]. *)
Record CvMat := {
  rows : Z;
  cols : Z;
  step : Z;
  mat_data : list Z
}.

(** [write_mat_to_xrgb8888]: the body of the inner loop, then the two
    loops. *)
Definition write_pixel (mat : CvMat) (y x : Z) (data : list Z) : result (list Z) :=
  row ← int (step mat * y);
  col ← int (x * 3);
  i ← int (row + col);
  p0 ← load (mat_data mat) i;
  i1 ← int (i + 1);
  p1 ← load (mat_data mat) i1;
  i2 ← int (i + 2);
  p2 ← load (mat_data mat) i2;
  line ← int (y * cols mat);
  k ← int (line + x);
  d ← int (k * 4);
  draw_argb8888 data d 0 p2 p1 p0.

Definition write_mat_to_xrgb8888 (mat : CvMat) (data : list Z) : result (list Z) :=
  for_range (rows mat) (fun y =>
    for_range (cols mat) (fun x => write_pixel mat y x)) data.

(** ** Constants of the headers the backend includes

    [<sys/epoll.h>], [<errno.h>], [<linux/input.h>],
    [<wayland-client-protocol.h>] and [<opencv2/highgui.hpp>]. *)

Definition EPOLLIN : Z := 1.
Definition EPOLLOUT : Z := 4.
Definition EPOLLERR : Z := 8.
Definition EPOLLHUP : Z := 16.
Definition EPOLL_CTL_ADD : Z := 1.
Definition EPOLL_CTL_DEL : Z := 2.
Definition EPOLL_CTL_MOD : Z := 3.
Definition EAGAIN : Z := 11.

Definition WL_KEYBOARD_KEYMAP_FORMAT_XKB_V1 : Z := 1.
Definition WL_KEYBOARD_KEY_STATE_RELEASED : Z := 0.
Definition WL_KEYBOARD_KEY_STATE_PRESSED : Z := 1.
Definition WL_POINTER_BUTTON_STATE_RELEASED : Z := 0.
Definition WL_POINTER_BUTTON_STATE_PRESSED : Z := 1.
Definition WL_SHM_FORMAT_XRGB8888 : Z := 1.

Definition EVENT_MOUSEMOVE : Z := 0.
Definition EVENT_LBUTTONDOWN : Z := 1.
Definition EVENT_RBUTTONDOWN : Z := 2.
Definition EVENT_MBUTTONDOWN : Z := 3.
Definition EVENT_LBUTTONUP : Z := 4.
Definition EVENT_RBUTTONUP : Z := 5.
Definition EVENT_MBUTTONUP : Z := 6.
Definition EVENT_FLAG_LBUTTON : Z := 1.
Definition EVENT_FLAG_RBUTTON : Z := 2.
Definition EVENT_FLAG_MBUTTON : Z := 4.

(** [cv_wl_mouse::button]. *)
Definition NONE : Z := 0.
Definition LBUTTON : Z := 272.
Definition RBUTTON : Z := 273.
Definition MBUTTON : Z := 274.

(** [wl_fixed_to_int] of [<wayland-util.h>]: [f / 256] in C. *)
Definition wl_fixed_to_int (f : Z) : Z := Z.quot f 256.

(** Addresses of heap objects and handles of library objects;
    [None] in an [option ptr] is [nullptr]. *)
Abbreviation ptr := Z (only parsing).

(** ** The data model *)

(** [struct epoll_event]. *)
Record epoll_event := {
  events : Z;
  data_fd : Z
}.

Definition zero_event : epoll_event := {| events := 0; data_fd := 0 |}.

(** [class epoller]. *)
Record epoller := {
  epoll_fd_ : Z
}.

(** [cv_wl_keyboard::xkb_]. *)
Record xkb_t := {
  ctx : option ptr;
  keymap : option ptr;
  state : option ptr;
  control_mask : Z;
  alt_mask : Z;
  shift_mask : Z
}.

(** [class cv_wl_keyboard]; the back of [key_queue_] is the end of the
    list. *)
Record cv_wl_keyboard := {
  xkb_ : xkb_t;
  key_queue_ : list Z
}.

(** [class cv_wl_mouse]; [entered_window_] is a [std::queue]: [push]
    appends at the end of the list, [front] and [pop] work on its head. *)
Record cv_wl_mouse := {
  entered_window_ : list ptr
}.

(** [class cv_wl_input]. *)
Record cv_wl_input := {
  mouse_ : option cv_wl_mouse;
  keyboard_ : option cv_wl_keyboard
}.

(** [class cv_wl_buffer].  [buffer] tells whether the [wl_buffer *] is
    set; [shm_data] is the mapped memory as 32-bit words, empty when
    nothing is mapped. *)
Record cv_wl_buffer := {
  buffer : bool;
  shm_data : list Z;
  busy_ : bool;
  buf_width_ : Z;
  buf_height_ : Z;
  shm_path_ : string
}.

(** Index in [cv_wl_window::buffers_]. *)
Inductive buf_idx := Buf0 | Buf1.

#[global] Instance buf_idx_eq_dec : EqDecision buf_idx.
Proof. solve_decision. Defined.

(** [cv_wl_window::on_mouse_]. *)
Record on_mouse_t := {
  drag : bool;
  last_x : Z;
  last_y : Z;
  button : Z;
  callback : option ptr;
  param : ptr
}.

(** [class cv_wl_window]. *)
Record cv_wl_window := {
  flags_ : Z;
  name_ : string;
  width_ : Z;
  height_ : Z;
  on_mouse_ : on_mouse_t;
  buffers_ : cv_wl_buffer * cv_wl_buffer
}.

Definition default_width : Z := 320.
Definition default_height : Z := 240.

(** [class cv_wl_display]; [display_fd] is [wl_display_get_fd(display_)]. *)
Record cv_wl_display := {
  poller_ : epoller;
  display_fd : Z;
  input_ : option cv_wl_input;
  formats_ : Z
}.

(** [class cv_wl_core].  A [shared_ptr<cv_wl_window>] of [windows_] is
    the address of the window; the object is in the [heap] of the
    process. *)
Record cv_wl_core := {
  display_ : cv_wl_display;
  windows_ : gmap string ptr;
  handles_ : gmap ptr string
}.

(** A call of a registered [CvMouseCallback]. *)
Record mouse_call := {
  mc_callback : ptr;
  mc_event : Z;
  mc_x : Z;
  mc_y : Z;
  mc_flag : Z;
  mc_param : ptr
}.

(** What the process asks of the kernel and of the compositor. *)
Inductive io_action :=
  | io_dispatch_pending
  | io_dispatch
  | io_flush
  | io_roundtrip
  | io_epoll_ctl (epfd op fd evs : Z)
  | io_epoll_wait (epfd timeout : Z) (maxevents : nat)
  | io_surface_attach (window : ptr) (i : buf_idx)
  | io_surface_damage (window : ptr) (x y width height : Z)
  | io_surface_commit (window : ptr).

(** The state of the process once the backend is initialised: [g_core],
    the [cv_wl_window] objects alive, the static [cv_wl_buffer::number_],
    and two histories, oldest entry first: the calls made to mouse
    callbacks, each with the window that made it, and the requests sent
    to the outside. *)
Record world := {
  g_core : cv_wl_core;
  heap : gmap ptr cv_wl_window;
  number_ : Z;
  mouse_log : list (ptr * mouse_call);
  io_log : list io_action
}.

(** ** Answers of the outside world *)

(** [handle_kb_keymap]: whether [mmap] succeeds, what
    [xkb_keymap_new_from_string] and [xkb_state_new] return, and the
    three indices [xkb_keymap_mod_get_index] returns. *)
Record keymap_answer := {
  mmap_ok : bool;
  new_keymap : option ptr;
  new_state : option ptr;
  control_index : Z;
  alt_index : Z;
  shift_index : Z
}.

(** [wl_display_flush]: the value returned and [errno] after the call. *)
Record flush_answer := {
  flush_ret : Z;
  flush_errno : Z
}.

(** [epoll_wait]: the value returned and the events written at the front
    of the array it was given. *)
Record epoll_answer := {
  event_num : Z;
  fired : list epoll_event
}.

(** [cv_wl_buffer::create_shm]: what [shm_open] and [ftruncate] return
    and whether [mmap] succeeds. *)
Record shm_answer := {
  shm_open_fd : Z;
  ftruncate_ret : Z;
  shm_mmap_ok : bool
}.

(** The protocol events a dispatch hands to the listeners of the
    backend.  A pointer event on a surface carries the window stored as
    the user data of that surface; a buffer release carries the buffer it
    was registered for. *)
Inductive wl_event :=
  | ev_kb_keymap (format : Z) (ans : keymap_answer)
  | ev_kb_key (key key_state : Z)
  | ev_pointer_enter (window : ptr) (sx sy : Z)
  | ev_pointer_leave (window : ptr)
  | ev_pointer_motion (time sx sy : Z)
  | ev_pointer_button (time btn btn_state : Z)
  | ev_buffer_release (window : ptr) (i : buf_idx)
  | ev_other.

(** One call of [cv_wl_display::run_once]: the events waiting for
    [dispatch_pending], the first flush, [epoll_ctl] after it, the wait,
    the events read by [dispatch], the second flush and [epoll_ctl] after
    it.  An answer is used only if the call is made. *)
Record run_once_answers := {
  pending_events : list wl_event;
  flush1 : flush_answer;
  ctl1 : Z;
  waited : epoll_answer;
  dispatched_events : list wl_event;
  flush2 : flush_answer;
  ctl2 : Z
}.

(** ** The monad of the process: state that survives a [Throw] *)

Definition M (A : Type) : Type := world → result A * world.

#[global] Instance M_ret : MRet M := fun A a w => (Ok a, w).

#[global] Instance M_bind : MBind M := fun A B f m w =>
  match m w with
  | (Ok a, w') => f a w'
  | (Throw msg, w') => (Throw msg, w')
  | (Fault, w') => (Fault, w')
  | (Pending, w') => (Pending, w')
  end.

Definition throw {A} (msg : string) : M A := fun w => (Throw msg, w).
Definition fault {A} : M A := fun w => (Fault, w).
Definition pending {A} : M A := fun w => (Pending, w).
Definition lift {A} (r : result A) : M A := fun w => (r, w).
Definition gets {A} (f : world → A) : M A := fun w => (Ok (f w), w).
Definition modify (f : world → world) : M unit := fun w => (Ok (), f w).
Definition skip : M unit := mret ().

(** Field updates. *)

Definition set_core (c : cv_wl_core) (w : world) : world :=
  {| g_core := c; heap := heap w; number_ := number_ w;
     mouse_log := mouse_log w; io_log := io_log w |}.

Definition set_heap (h : gmap ptr cv_wl_window) (w : world) : world :=
  {| g_core := g_core w; heap := h; number_ := number_ w;
     mouse_log := mouse_log w; io_log := io_log w |}.

Definition set_number (n : Z) (w : world) : world :=
  {| g_core := g_core w; heap := heap w; number_ := n;
     mouse_log := mouse_log w; io_log := io_log w |}.

Definition set_mouse_log (l : list (ptr * mouse_call)) (w : world) : world :=
  {| g_core := g_core w; heap := heap w; number_ := number_ w;
     mouse_log := l; io_log := io_log w |}.

Definition set_io_log (l : list io_action) (w : world) : world :=
  {| g_core := g_core w; heap := heap w; number_ := number_ w;
     mouse_log := mouse_log w; io_log := l |}.

Definition set_windows (m : gmap string ptr) (c : cv_wl_core) : cv_wl_core :=
  {| display_ := display_ c; windows_ := m; handles_ := handles_ c |}.

Definition set_handles (m : gmap ptr string) (c : cv_wl_core) : cv_wl_core :=
  {| display_ := display_ c; windows_ := windows_ c; handles_ := m |}.

Definition set_input (i : option cv_wl_input) (w : world) : world :=
  let c := g_core w in
  let d := display_ c in
  set_core {| display_ := {| poller_ := poller_ d; display_fd := display_fd d;
                             input_ := i; formats_ := formats_ d |};
              windows_ := windows_ c; handles_ := handles_ c |} w.

Definition the_input (w : world) : option cv_wl_input := input_ (display_ (g_core w)).

Definition set_key_queue (q : list Z) (kb : cv_wl_keyboard) : cv_wl_keyboard :=
  {| xkb_ := xkb_ kb; key_queue_ := q |}.

Definition set_on_mouse (m : on_mouse_t) (win : cv_wl_window) : cv_wl_window :=
  {| flags_ := flags_ win; name_ := name_ win; width_ := width_ win;
     height_ := height_ win; on_mouse_ := m; buffers_ := buffers_ win |}.

Definition set_size (width height : Z) (win : cv_wl_window) : cv_wl_window :=
  {| flags_ := flags_ win; name_ := name_ win; width_ := width;
     height_ := height; on_mouse_ := on_mouse_ win; buffers_ := buffers_ win |}.

Definition get_buf (i : buf_idx) (win : cv_wl_window) : cv_wl_buffer :=
  match i with
  | Buf0 => fst (buffers_ win)
  | Buf1 => snd (buffers_ win)
  end.

Definition set_buf (i : buf_idx) (b : cv_wl_buffer) (win : cv_wl_window) : cv_wl_window :=
  {| flags_ := flags_ win; name_ := name_ win; width_ := width_ win;
     height_ := height_ win; on_mouse_ := on_mouse_ win;
     buffers_ := match i with
                 | Buf0 => (b, snd (buffers_ win))
                 | Buf1 => (fst (buffers_ win), b)
                 end |}.

(** Appending to the history of requests. *)
Definition log (a : io_action) : M unit :=
  modify (fun w => set_io_log (io_log w ++ [a]) w).

(** The object at address [this], or a [Fault] when no window lives
    there. *)
Definition deref (this : ptr) : M cv_wl_window :=
  fun w => match heap w !! this with
           | Some win => (Ok win, w)
           | None => (Fault, w)
           end.

Definition assign (this : ptr) (win : cv_wl_window) : M unit :=
  modify (fun w => set_heap (<[this := win]> (heap w)) w).

(** ** [epoller] *)

Definition the_epfd (w : world) : Z := epoll_fd_ (poller_ (display_ (g_core w))).

(** [epoller::ctl]; [ret] is what [epoll_ctl] returns. *)
Definition epoller_ctl (ret : Z) (op fd evs : Z) : M unit :=
  epfd ← gets the_epfd;
  log (io_epoll_ctl epfd op fd evs);;
  if decide (ret < 0) then throw "epoll_ctl: " else mret ().

Definition epoller_add (ret : Z) (fd evs : Z) : M unit :=
  epoller_ctl ret EPOLL_CTL_ADD fd evs.

Definition epoller_modify (ret : Z) (fd evs : Z) : M unit :=
  epoller_ctl ret EPOLL_CTL_MOD fd evs.

Definition epoller_remove (ret : Z) (fd : Z) : M unit :=
  epoller_ctl ret EPOLL_CTL_DEL fd 0.

(** [epoll_wait] writes at most [length buf] events over the front of
    [buf] and leaves the rest of the array as it was. *)
Definition epoll_fill (written buf : list epoll_event) : list epoll_event :=
  take (length buf) written ++ drop (length written) buf.

(** [epoller::wait]: a vector of [max_events] value-initialised events is
    handed to [epoll_wait] and returned as it is. *)
Definition epoller_wait (ans : epoll_answer) (timeout : Z) (max_events : nat)
  : M (list epoll_event) :=
  let events := replicate max_events zero_event in
  epfd ← gets the_epfd;
  log (io_epoll_wait epfd timeout max_events);;
  let events := epoll_fill (fired ans) events in
  if decide (event_num ans < 0) then throw "epoll_wait: " else mret events.

(** The default arguments of [epoller::wait]. *)
Definition default_timeout : Z := -1.
Definition default_max_events : nat := 16.

(** ** [cv_wl_keyboard] *)

(** A keyboard as its constructor leaves it, [xkb_.ctx] being [c]. *)
Definition new_keyboard (c : ptr) : cv_wl_keyboard :=
  {| xkb_ := {| ctx := Some c; keymap := None; state := None;
                control_mask := 0; alt_mask := 0; shift_mask := 0 |};
     key_queue_ := [] |}.

(** [cv_wl_keyboard::get_key]. *)
Definition get_key (kb : cv_wl_keyboard) : Z * cv_wl_keyboard :=
  let key := match last (key_queue_ kb) with
             | Some k => k
             | None => -1
             end in
  (key, set_key_queue [] kb).

(** [1 << index] on an [int], stored in a [uint32_t]: the shift is
    undefined when the index is not below the 32 bits of an [int]. *)
Definition shift_one (index : Z) : result Z :=
  if decide (0 ≤ index < 32) then Ok (uint32 (Z.shiftl 1 index)) else Fault.

(** [cv_wl_keyboard::handle_kb_keymap]. *)
Definition handle_kb_keymap (format : Z) (ans : keymap_answer) (kb : cv_wl_keyboard)
  : result cv_wl_keyboard :=
  let x := xkb_ kb in
  if decide (format ≠ WL_KEYBOARD_KEYMAP_FORMAT_XKB_V1) then Ok kb
  else if negb (mmap_ok ans) then Ok kb
  else
    match new_keymap ans with
    | None =>
        Ok {| xkb_ := {| ctx := ctx x; keymap := None; state := state x;
                         control_mask := control_mask x; alt_mask := alt_mask x;
                         shift_mask := shift_mask x |};
              key_queue_ := key_queue_ kb |}
    | Some km =>
        match new_state ans with
        | None =>
            Ok {| xkb_ := {| ctx := ctx x; keymap := Some km; state := None;
                             control_mask := control_mask x; alt_mask := alt_mask x;
                             shift_mask := shift_mask x |};
                  key_queue_ := key_queue_ kb |}
        | Some st =>
            control ← shift_one (control_index ans);
            alt ← shift_one (alt_index ans);
            shift ← shift_one (shift_index ans);
            Ok {| xkb_ := {| ctx := ctx x; keymap := Some km; state := Some st;
                             control_mask := control; alt_mask := alt;
                             shift_mask := shift |};
                  key_queue_ := key_queue_ kb |}
        end
    end.

(** ** [cv_wl_window]: input routing *)

(** [cv_wl_window::set_mouse_callback]. *)
Definition set_mouse_callback (on_mouse : option ptr) (prm : ptr) (win : cv_wl_window)
  : cv_wl_window :=
  let m := on_mouse_ win in
  set_on_mouse {| drag := drag m; last_x := last_x m; last_y := last_y m;
                  button := button m; callback := on_mouse; param := prm |} win.

(** [cv_wl_window::call_mouse_callback]: the calls it makes. *)
Definition call_mouse_callback (event x y flag : Z) (win : cv_wl_window)
  : list mouse_call :=
  match callback (on_mouse_ win) with
  | Some cb => [ {| mc_callback := cb; mc_event := event; mc_x := x; mc_y := y;
                    mc_flag := flag; mc_param := param (on_mouse_ win) |} ]
  | None => []
  end.

(** [cv_wl_window::mouse_enter]. *)
Definition mouse_enter (x y : Z) (win : cv_wl_window) : cv_wl_window * list mouse_call :=
  let m := on_mouse_ win in
  let win := set_on_mouse {| drag := drag m; last_x := x; last_y := y;
                             button := button m; callback := callback m;
                             param := param m |} win in
  (win, call_mouse_callback EVENT_MOUSEMOVE x y 0 win).

(** [cv_wl_window::mouse_leave]. *)
Definition mouse_leave (win : cv_wl_window) : cv_wl_window * list mouse_call :=
  (win, []).

(** [cv_wl_window::mouse_motion]. *)
Definition mouse_motion (time x y : Z) (win : cv_wl_window)
  : cv_wl_window * list mouse_call :=
  let m := on_mouse_ win in
  let win := set_on_mouse {| drag := drag m; last_x := x; last_y := y;
                             button := button m; callback := callback m;
                             param := param m |} win in
  let flag :=
    if drag m then
      if decide (button m = LBUTTON) then EVENT_FLAG_LBUTTON
      else if decide (button m = RBUTTON) then EVENT_FLAG_RBUTTON
      else if decide (button m = MBUTTON) then EVENT_FLAG_MBUTTON
      else 0
    else 0 in
  (win, call_mouse_callback EVENT_MOUSEMOVE x y flag win).

(** [cv_wl_window::mouse_button]. *)
Definition mouse_button (time btn btn_state : Z) (win : cv_wl_window)
  : cv_wl_window * list mouse_call :=
  let m := on_mouse_ win in
  let dragging := bool_decide (btn_state = WL_POINTER_BUTTON_STATE_PRESSED) in
  let win := set_on_mouse {| drag := dragging; last_x := last_x m; last_y := last_y m;
                             button := btn; callback := callback m;
                             param := param m |} win in
  let '(event, flag) :=
    if decide (btn = LBUTTON) then
      (if dragging then EVENT_LBUTTONDOWN else EVENT_LBUTTONUP, EVENT_FLAG_LBUTTON)
    else if decide (btn = RBUTTON) then
      (if dragging then EVENT_RBUTTONDOWN else EVENT_RBUTTONUP, EVENT_FLAG_RBUTTON)
    else if decide (btn = MBUTTON) then
      (if dragging then EVENT_MBUTTONDOWN else EVENT_MBUTTONUP, EVENT_FLAG_MBUTTON)
    else (0, 0) in
  (win, call_mouse_callback event (last_x m) (last_y m) flag win).

(** A method called on the window at address [this]: the object is
    updated in place and the calls it made join the history. *)
Definition on_window (this : ptr) (method : cv_wl_window → cv_wl_window * list mouse_call)
  : M unit :=
  win ← deref this;
  let '(win', calls) := method win in
  assign this win';;
  modify (fun w => set_mouse_log (mouse_log w ++ ((fun c => (this, c)) <$> calls)) w).

(** ** [cv_wl_mouse] *)

Definition the_mouse : M cv_wl_mouse :=
  fun w => match the_input w with
           | Some inp => match mouse_ inp with
                         | Some m => (Ok m, w)
                         | None => (Fault, w)
                         end
           | None => (Fault, w)
           end.

Definition set_mouse (m : cv_wl_mouse) : M unit :=
  modify (fun w => match the_input w with
                   | Some inp => set_input (Some {| mouse_ := Some m;
                                                    keyboard_ := keyboard_ inp |}) w
                   | None => w
                   end).

(** [cv_wl_mouse::handle_pointer_enter]. *)
Definition handle_pointer_enter (window : ptr) (sx sy : Z) : M unit :=
  let x := wl_fixed_to_int sx in
  let y := wl_fixed_to_int sy in
  mouse ← the_mouse;
  set_mouse {| entered_window_ := entered_window_ mouse ++ [window] |};;
  on_window window (mouse_enter x y).

(** [cv_wl_mouse::handle_pointer_leave]. *)
Definition handle_pointer_leave (window : ptr) : M unit :=
  on_window window mouse_leave;;
  mouse ← the_mouse;
  match entered_window_ mouse with
  | [] => fault
  | _ :: rest => set_mouse {| entered_window_ := rest |}
  end.

(** [cv_wl_mouse::handle_pointer_motion]. *)
Definition handle_pointer_motion (time sx sy : Z) : M unit :=
  let x := wl_fixed_to_int sx in
  let y := wl_fixed_to_int sy in
  mouse ← the_mouse;
  match entered_window_ mouse with
  | [] => fault
  | window :: _ => on_window window (mouse_motion time x y)
  end.

(** [cv_wl_mouse::handle_pointer_button]. *)
Definition handle_pointer_button (time btn btn_state : Z) : M unit :=
  mouse ← the_mouse;
  match entered_window_ mouse with
  | [] => fault
  | window :: _ => on_window window (mouse_button time btn btn_state)
  end.

(** ** [cv_wl_buffer] *)

Definition new_buffer : cv_wl_buffer :=
  {| buffer := false; shm_data := []; busy_ := false;
     buf_width_ := 0; buf_height_ := 0; shm_path_ := "" |}.

(** [cv_wl_buffer::destroy]. *)
Definition destroy (b : cv_wl_buffer) : cv_wl_buffer :=
  if buffer b then
    {| buffer := false; shm_data := shm_data b; busy_ := busy_ b;
       buf_width_ := 0; buf_height_ := 0; shm_path_ := shm_path_ b |}
  else b.

(** [cv_wl_buffer::busy]. *)
Definition busy (flag : bool) (b : cv_wl_buffer) : cv_wl_buffer :=
  {| buffer := buffer b; shm_data := shm_data b; busy_ := flag;
     buf_width_ := buf_width_ b; buf_height_ := buf_height_ b;
     shm_path_ := shm_path_ b |}.

(** [cv_wl_buffer::is_busy], [width] and [height]. *)
Definition is_busy (b : cv_wl_buffer) : bool := busy_ b.
Definition width (b : cv_wl_buffer) : Z := buf_width_ b.
Definition height (b : cv_wl_buffer) : Z := buf_height_ b.

Definition set_buf_size (w h : Z) (b : cv_wl_buffer) : cv_wl_buffer :=
  {| buffer := buffer b; shm_data := shm_data b; busy_ := busy_ b;
     buf_width_ := w; buf_height_ := h; shm_path_ := shm_path_ b |}.

Definition set_shm_path (path : string) (b : cv_wl_buffer) : cv_wl_buffer :=
  {| buffer := buffer b; shm_data := shm_data b; busy_ := busy_ b;
     buf_width_ := buf_width_ b; buf_height_ := buf_height_ b;
     shm_path_ := path |}.

Definition set_shm_data (data : list Z) (b : cv_wl_buffer) : cv_wl_buffer :=
  {| buffer := buffer b; shm_data := data; busy_ := busy_ b;
     buf_width_ := buf_width_ b; buf_height_ := buf_height_ b;
     shm_path_ := shm_path_ b |}.

Definition set_buffer (present : bool) (b : cv_wl_buffer) : cv_wl_buffer :=
  {| buffer := present; shm_data := shm_data b; busy_ := busy_ b;
     buf_width_ := buf_width_ b; buf_height_ := buf_height_ b;
     shm_path_ := shm_path_ b |}.

(** A method of the buffer [buffers_[i]] of the window at [this]. *)
Definition on_buffer (this : ptr) (i : buf_idx) (method : cv_wl_buffer → cv_wl_buffer)
  : M unit :=
  win ← deref this;
  assign this (set_buf i (method (get_buf i win)) win).

(** [cv_wl_buffer::create_shm] on [buffers_[i]] of the window at [this].
    The file made by [shm_open] and [ftruncate] is [size] zero bytes,
    that is [size / 4] zero words. *)
Definition create_shm (ans : shm_answer) (this : ptr) (i : buf_idx)
    (width height format : Z) : M Z :=
  stride ← lift (int (width * 4));
  size ← lift (int (stride * height));
  on_buffer this i destroy;;
  on_buffer this i (set_buf_size width height);;
  n ← gets number_;
  modify (set_number (n + 1));;
  on_buffer this i (set_shm_path ("/opencv_wl_buffer-" +:+ pretty n));;
  if decide (shm_open_fd ans < 0) then throw "creating a buffer file failed: "
  else if decide (ftruncate_ret ans < 0) then throw "failed to truncate a shm buffer"
  else if negb (shm_mmap_ok ans) then
    on_buffer this i (set_shm_data []);;
    throw "mmap failed: "
  else
    on_buffer this i (set_shm_data (replicate (Z.to_nat (size / 4)) 0));;
    on_buffer this i (set_buffer true);;
    mret 0.

(** [cv_wl_buffer::handle_buffer_release]. *)
Definition handle_buffer_release (this : ptr) (i : buf_idx) : M unit :=
  on_buffer this i (busy false).

(** [memset(data, c, n)] on memory seen as 32-bit words, for [n] a
    multiple of 4: each of the first [n / 4] words gets the byte [c] four
    times.  A negative [n] converts to a huge [size_t]. *)
Definition memset (data : list Z) (c : Z) (n : Z) : result (list Z) :=
  if decide (0 ≤ n ∧ n mod 4 = 0 ∧ n / 4 ≤ Z.of_nat (length data)) then
    Ok (replicate (Z.to_nat (n / 4)) (uint8 c * 16843009) ++ drop (Z.to_nat (n / 4)) data)
  else Fault.

(** ** [cv_wl_window]: construction *)

Definition new_window (name : string) (width height flags : Z) : cv_wl_window :=
  {| flags_ := flags; name_ := name; width_ := width; height_ := height;
     on_mouse_ := {| drag := false; last_x := 0; last_y := 0; button := NONE;
                     callback := None; param := 0 |};
     buffers_ := (new_buffer, new_buffer) |}.

(** [cv_wl_window::name] and [get_size]. *)
Definition name (win : cv_wl_window) : string := name_ win.

(** ** Code that depends on the keyboard layout library *)

Section Xkb.

(** [xkb_state_key_get_one_sym] of libxkbcommon, given [xkb_.state] and
    a key code: the key symbol it returns, or [None] when the call does
    not return. *)
Variable xkb_state_key_get_one_sym : option ptr → Z → option Z.

(** [cv_wl_keyboard::handle_kb_key]. *)
Definition handle_kb_key (key key_state : Z) (kb : cv_wl_keyboard)
  : result cv_wl_keyboard :=
  let keycode := xkb_keycode_from_raw_keycode key in
  if decide (key_state = WL_KEYBOARD_KEY_STATE_RELEASED) then
    match xkb_state_key_get_one_sym (state (xkb_ kb)) keycode with
    | Some keysym =>
        Ok (set_key_queue (key_queue_ kb ++ [xkb_keysym_to_ascii keysym]) kb)
    | None => Fault
    end
  else Ok kb.

(** A handler of the keyboard of the seat.  With no keyboard there is no
    listener and nothing happens. *)
Definition on_keyboard (handler : cv_wl_keyboard → result cv_wl_keyboard) : M unit :=
  fun w =>
    match the_input w with
    | Some inp =>
        match keyboard_ inp with
        | Some kb =>
            match handler kb with
            | Ok kb' => (Ok (), set_input (Some {| mouse_ := mouse_ inp;
                                                   keyboard_ := Some kb' |}) w)
            | Throw msg => (Throw msg, w)
            | Fault => (Fault, w)
            | Pending => (Pending, w)
            end
        | None => (Ok (), w)
        end
    | None => (Ok (), w)
    end.

Definition has_mouse (w : world) : bool :=
  match the_input w with
  | Some inp => bool_decide (is_Some (mouse_ inp))
  | None => false
  end.

Definition is_alive (this : ptr) (w : world) : bool :=
  bool_decide (is_Some (heap w !! this)).

(** One event handed to the listener registered for it.  Pointer events
    have a listener only when the seat has a mouse, a buffer release
    only while the window that owns the buffer is alive. *)
Definition deliver (e : wl_event) : M unit :=
  match e with
  | ev_kb_keymap format ans =>
      on_keyboard (handle_kb_keymap format ans)
  | ev_kb_key key key_state => on_keyboard (handle_kb_key key key_state)
  | ev_pointer_enter window sx sy =>
      m ← gets has_mouse;
      if m : bool then handle_pointer_enter window sx sy else skip
  | ev_pointer_leave window =>
      m ← gets has_mouse;
      if m : bool then handle_pointer_leave window else skip
  | ev_pointer_motion time sx sy =>
      m ← gets has_mouse;
      if m : bool then handle_pointer_motion time sx sy else skip
  | ev_pointer_button time btn btn_state =>
      m ← gets has_mouse;
      if m : bool then handle_pointer_button time btn btn_state else skip
  | ev_buffer_release window i =>
      a ← gets (is_alive window);
      if a : bool then handle_buffer_release window i else skip
  | ev_other => skip
  end.

Fixpoint deliver_all (evs : list wl_event) : M unit :=
  match evs with
  | [] => skip
  | e :: evs' => deliver e;; deliver_all evs'
  end.

(** ** [cv_wl_display] *)

(** [dispatch], [dispatch_pending] and [roundtrip] hand [evs] to the
    listeners; their return values are not used by the backend. *)
Definition dispatch (evs : list wl_event) : M unit :=
  log io_dispatch;; deliver_all evs.

Definition dispatch_pending (evs : list wl_event) : M unit :=
  log io_dispatch_pending;; deliver_all evs.

Definition roundtrip (evs : list wl_event) : M unit :=
  log io_roundtrip;; deliver_all evs.

(** [cv_wl_display::flush]. *)
Definition flush (ans : flush_answer) : M Z :=
  log io_flush;; mret (flush_ret ans).

(** [cv_wl_display::run_once] from [poller_.wait(timeout)] to its end. *)
Definition run_once_wait (ans : run_once_answers) (timeout : Z) : M Z :=
  evs ← epoller_wait (waited ans) timeout default_max_events;
  match evs with
  | [] => mret 0
  | e0 :: _ =>
      (if decide (Z.land (events e0) EPOLLIN ≠ 0) then
         dispatch (dispatched_events ans)
       else skip);;
      (if decide (Z.land (events e0) EPOLLOUT ≠ 0) then
         ret ← flush (flush2 ans);
         if decide (ret = 0) then
           fd ← gets (fun w => display_fd (display_ (g_core w)));
           epoller_modify (ctl2 ans) fd (Z.lor (Z.lor EPOLLIN EPOLLERR) EPOLLHUP)
         else skip
       else skip);;
      mret (events e0)
  end.

(** [cv_wl_display::run_once]. *)
Definition run_once (ans : run_once_answers) (timeout : Z) : M Z :=
  dispatch_pending (pending_events ans);;
  ret ← flush (flush1 ans);
  if decide (ret < 0 ∧ flush_errno (flush1 ans) = EAGAIN) then
    fd ← gets (fun w => display_fd (display_ (g_core w)));
    epoller_modify (ctl1 ans) fd
      (Z.lor (Z.lor (Z.lor EPOLLIN EPOLLOUT) EPOLLERR) EPOLLHUP);;
    run_once_wait ans timeout
  else if decide (ret < 0) then mret 0
  else run_once_wait ans timeout.

(** [cv_wl_display::input]; the caller dereferences the result. *)
Definition input : M cv_wl_input :=
  fun w => match the_input w with
           | Some inp => (Ok inp, w)
           | None => (Fault, w)
           end.

(** [cv_wl_input::mouse] and [cv_wl_input::keyboard]. *)
Definition mouse (inp : cv_wl_input) : result cv_wl_mouse :=
  match mouse_ inp with
  | Some m => Ok m
  | None => Throw "seat: mouse not available"
  end.

Definition keyboard (inp : cv_wl_input) : result cv_wl_keyboard :=
  match keyboard_ inp with
  | Some kb => Ok kb
  | None => Throw "seat: keyboard not available"
  end.

(** ** [cv_wl_window]: frames *)

(** The loop of [cv_wl_window::next_buffer]; [trips] holds, for each
    round trip, the events it dispatches. *)
Fixpoint next_buffer_loop (trips : list (list wl_event)) (this : ptr) : M buf_idx :=
  match trips with
  | [] => pending
  | evs :: trips' =>
      roundtrip evs;;
      win ← deref this;
      if negb (is_busy (get_buf Buf0 win)) then mret Buf0
      else if negb (is_busy (get_buf Buf1 win)) then mret Buf1
      else next_buffer_loop trips' this
  end.

(** [cv_wl_window::next_buffer]. *)
Definition next_buffer (trips : list (list wl_event)) (ans : shm_answer) (this : ptr)
  : M buf_idx :=
  i ← next_buffer_loop trips this;
  win ← deref this;
  let b := get_buf i win in
  (if decide (buffer b = false ∨ width b ≠ width_ win ∨ height b ≠ height_ win) then
     ret ← create_shm ans this i (width_ win) (height_ win) WL_SHM_FORMAT_XRGB8888;
     if decide (ret < 0) then throw "cannot create shm buffer"
     else
       win' ← deref this;
       area ← lift (int (width_ win * height_ win));
       n ← lift (int (area * 4));
       data ← lift (memset (shm_data (get_buf i win')) 255 n);
       on_buffer this i (set_shm_data data)
   else skip);;
  mret i.

(** [cv_wl_window::show_image]. *)
Definition show_image (trips : list (list wl_event)) (ans : shm_answer) (this : ptr)
    (mat : CvMat) : M unit :=
  win ← deref this;
  assign this (set_size (cols mat) (rows mat) win);;
  i ← next_buffer trips ans this;
  win ← deref this;
  data ← lift (write_mat_to_xrgb8888 mat (shm_data (get_buf i win)));
  on_buffer this i (set_shm_data data);;
  log (io_surface_attach this i);;
  log (io_surface_damage this 0 0 (width_ win) (height_ win));;
  log (io_surface_commit this);;
  on_buffer this i (busy true).

(** ** [cv_wl_core] *)

(** [cv_wl_core::get_window]: [std::map::at] throws on a missing key. *)
Definition get_window (nm : string) : M ptr :=
  fun w => match windows_ (g_core w) !! nm with
           | Some p => (Ok p, w)
           | None => (Throw "map::at", w)
           end.

(** [cv_wl_core::get_window_handle]. *)
Definition get_window_handle (nm : string) : M ptr := get_window nm.

(** [cv_wl_core::get_window_name]: [handles_[handle]]. *)
Definition get_window_name (handle : ptr) : M string :=
  fun w => match handles_ (g_core w) !! handle with
           | Some nm => (Ok nm, w)
           | None =>
               (Ok "", set_core (set_handles (<[handle := ""]> (handles_ (g_core w)))
                                   (g_core w)) w)
           end.

(** [cv_wl_core::create_window]; [p] is the address [make_shared] gives
    to the new window.  When the name is taken the new window dies with
    the local [shared_ptr]. *)
Definition create_window (p : ptr) (nm : string) (flags : Z) : M bool :=
  let window := new_window nm default_width default_height flags in
  assign p window;;
  c ← gets g_core;
  let second := bool_decide (windows_ c !! nm = None) in
  (if second then modify (set_core (set_windows (<[nm := p]> (windows_ c)) c))
   else skip);;
  c ← gets g_core;
  modify (set_core (set_handles (<[p := name window]> (handles_ c)) c));;
  (if second then skip else modify (fun w => set_heap (delete p (heap w)) w));;
  mret second.

(** [cv_wl_core::destroy_window]: the erased [shared_ptr] was the only
    owner of the window. *)
Definition destroy_window (nm : string) : M bool :=
  c ← gets g_core;
  match windows_ c !! nm with
  | Some p =>
      modify (set_core (set_windows (delete nm (windows_ c)) c));;
      modify (fun w => set_heap (delete p (heap w)) w);;
      mret true
  | None => mret false
  end.

(** [cv_wl_core::destroy_all_windows]. *)
Definition destroy_all_windows : M unit :=
  c ← gets g_core;
  modify (set_core (set_windows ∅ c));;
  modify (fun w => set_heap (map_fold (fun _ p h => delete p h) (heap w) (windows_ c)) w).

(** ** The C interface *)

Definition cvNamedWindow (p : ptr) (nm : string) (flags : Z) : M Z :=
  created ← create_window p nm flags;
  mret (if created : bool then 1 else 0).

Definition cvDestroyWindow (nm : string) : M unit :=
  destroy_window nm;; skip.

Definition cvDestroyAllWindows : M unit := destroy_all_windows.

Definition cvGetWindowHandle (nm : string) : M ptr := get_window_handle nm.

Definition cvGetWindowName (window_handle : ptr) : M string :=
  get_window_name window_handle.

Definition cvSetMouseCallback (window_name : string) (on_mouse : option ptr) (prm : ptr)
  : M unit :=
  window ← get_window window_name;
  win ← deref window;
  assign window (set_mouse_callback on_mouse prm win).

Definition cvShowImage (trips : list (list wl_event)) (ans : shm_answer)
    (nm : string) (mat : CvMat) : M unit :=
  window ← get_window nm;
  show_image trips ans window mat.

(** [g_core->display()->input()->keyboard()->get_key()]. *)
Definition poll_key : M Z :=
  inp ← input;
  kb ← lift (keyboard inp);
  let '(key, kb') := get_key kb in
  modify (set_input (Some {| mouse_ := mouse_ inp; keyboard_ := Some kb' |}));;
  mret key.

(** [cvWaitKey]; [answers] holds the answers of the outside world to each
    call of [run_once], in order. *)
Fixpoint cvWaitKey (answers : list run_once_answers) (delay : Z) : M Z :=
  match answers with
  | [] => pending
  | ans :: answers' =>
      evs ← run_once ans (if decide (delay > 0) then delay else -1);
      if decide (Z.land evs EPOLLIN ≠ 0) then
        key ← poll_key;
        if decide (key >= 0) then mret key else cvWaitKey answers' delay
      else cvWaitKey answers' delay
  end.

End Xkb.

(** ** Notions the statements use *)

(** The word [(0 << 24) | (r << 16) | (g << 8) | b], and byte [k] of a
    word, byte 0 being the least significant. *)
Definition xrgb8888 (r g b : Z) : Z :=
  Z.lor (Z.lor (Z.lor (Z.shiftl 0 24) (Z.shiftl r 16)) (Z.shiftl g 8)) b.

Definition channel (k : Z) (v : Z) : Z := Z.land (Z.shiftr v (8 * k)) 255.

(** Word [v] is what the pixel at row [y], column [x] of [mat] converts
    to. *)
Definition converted (mat : CvMat) (y x : Z) (v : Z) : Prop :=
  ∃ B G R, load (mat_data mat) (step mat * y + x * 3) = Ok B ∧
           load (mat_data mat) (step mat * y + x * 3 + 1) = Ok G ∧
           load (mat_data mat) (step mat * y + x * 3 + 2) = Ok R ∧
           is_byte B ∧ is_byte G ∧ is_byte R ∧
           v = xrgb8888 R G B.

(** Loop invariants of [write_mat_to_xrgb8888]: the rows above [y] are
    converted; so are the first [x] pixels of row [y]. *)
Definition rows_done (mat : CvMat) (data : list Z) (y : Z) (d : list Z) : Prop :=
  length d = length data ∧
  ∀ y' x', 0 ≤ y' < y → 0 ≤ x' < cols mat →
    ∃ v, d !! Z.to_nat (y' * cols mat + x') = Some v ∧ converted mat y' x' v.

Definition row_done (mat : CvMat) (data : list Z) (y x : Z) (d : list Z) : Prop :=
  rows_done mat data y d ∧
  ∀ x', 0 ≤ x' < x →
    ∃ v, d !! Z.to_nat (y * cols mat + x') = Some v ∧ converted mat y x' v.

(** How long [epoll_wait] may block with a given timeout, after
    epoll_wait(2). *)
Inductive blocking := NoBlock | AtMost (ms : Z) | Indefinite.

Definition blocks (timeout : Z) : blocking :=
  if decide (timeout < 0) then Indefinite
  else if decide (timeout = 0) then NoBlock
  else AtMost timeout.

(** What [cvWaitKey] may return: the value -1 for no key, or a key
    code. *)
Definition key_code_or_none (key : Z) : Prop := key = -1 ∨ 0 ≤ key.

(** The registry is consistent when the handles known are exactly the
    addresses of the windows known. *)
Definition registry_consistent (c : cv_wl_core) : Prop :=
  ∀ h : ptr, is_Some (handles_ c !! h) ↔ ∃ nm, windows_ c !! nm = Some h.

(** The queue of entered windows of the mouse, when there is one. *)
Definition entered (w : world) : option (list ptr) :=
  inp ← the_input w; m ← mouse_ inp; Some (entered_window_ m).

(** The queue of keys of the keyboard, when there is one. *)
Definition queued_keys (w : world) : option (list Z) :=
  inp ← the_input w; kb ← keyboard_ inp; Some (key_queue_ kb).

(** A relation between the state before and the state after that every
    step of an action keeps. *)
Definition stable {A} (R : relation world) (m : M A) : Prop :=
  ∀ w, R w (m w).2.

(** The history of requests grows, by requests that satisfy [P] only. *)
Definition log_adds (P : io_action → Prop) : relation world :=
  fun w w' => ∃ added, io_log w' = io_log w ++ added ∧ Forall P added.

(** [P] for: every wait is made with timeout [t]. *)
Definition waits_with (t : Z) (a : io_action) : Prop :=
  ∀ epfd timeout n, a = io_epoll_wait epfd timeout n → timeout = t.

(** From [b] to [b'] the buffer is the same but for a possible release;
    from [win] to [win'] the size and the buffers are. *)
Definition buffer_kept (b b' : cv_wl_buffer) : Prop :=
  buffer b' = buffer b ∧ shm_data b' = shm_data b ∧
  buf_width_ b' = buf_width_ b ∧ buf_height_ b' = buf_height_ b ∧
  shm_path_ b' = shm_path_ b ∧ (busy_ b' = true → busy_ b = true).

Definition frames_kept (win win' : cv_wl_window) : Prop :=
  width_ win' = width_ win ∧ height_ win' = height_ win ∧
  buffer_kept (get_buf Buf0 win) (get_buf Buf0 win') ∧
  buffer_kept (get_buf Buf1 win) (get_buf Buf1 win').

Definition heap_kept : relation world :=
  fun w w' => ∀ this win, heap w !! this = Some win →
    ∃ win', heap w' !! this = Some win' ∧ frames_kept win win'.

(** ** Sample data *)

(** A layout library that maps key code [k] to symbol [k + 59] (raw key
    30 to [a]) and does not return when given no state. *)
Definition sample_layout (st : option ptr) (keycode : Z) : option Z :=
  match st with
  | Some _ => Some (keycode + 59)
  | None => None
  end.

(** A layout library that answers [XKB_KEY_NoSymbol] when given no
    state. *)
Definition lenient_layout (st : option ptr) (keycode : Z) : option Z :=
  match st with
  | Some _ => Some (keycode + 59)
  | None => Some 0
  end.

Definition sample_keyboard : cv_wl_keyboard :=
  {| xkb_ := {| ctx := Some 100; keymap := Some 101; state := Some 102;
                control_mask := 4; alt_mask := 8; shift_mask := 1 |};
     key_queue_ := [] |}.

Definition sample_display : cv_wl_display :=
  {| poller_ := {| epoll_fd_ := 3 |}; display_fd := 4;
     input_ := Some {| mouse_ := Some {| entered_window_ := [] |};
                       keyboard_ := Some sample_keyboard |};
     formats_ := 3 |}.

Definition sample_world : world :=
  {| g_core := {| display_ := sample_display; windows_ := ∅; handles_ := ∅ |};
     heap := ∅; number_ := 0; mouse_log := []; io_log := [] |}.

(** The source image of one pixel with channel bytes (10, 20, 30). *)
Definition pixel_mat : CvMat :=
  {| rows := 1; cols := 1; step := 3; mat_data := [10; 20; 30] |}.

Definition quiet_flush : flush_answer := {| flush_ret := 0; flush_errno := 0 |}.
Definition full_flush : flush_answer := {| flush_ret := -1; flush_errno := EAGAIN |}.
Definition broken_flush : flush_answer := {| flush_ret := -1; flush_errno := 32 |}.

Definition shm_fine : shm_answer :=
  {| shm_open_fd := 5; ftruncate_ret := 0; shm_mmap_ok := true |}.

Definition keymap_fine : keymap_answer :=
  {| mmap_ok := true; new_keymap := Some 101; new_state := Some 102;
     control_index := 2; alt_index := 3; shift_index := 0 |}.

Definition keymap_no_state : keymap_answer :=
  {| mmap_ok := true; new_keymap := Some 101; new_state := None;
     control_index := 2; alt_index := 3; shift_index := 0 |}.


(** Answers to [run_once]: the flush would block, then the descriptor
    is writable and the second flush drains. *)
Definition answers_stalled : run_once_answers :=
  {| pending_events := []; flush1 := full_flush; ctl1 := 0;
     waited := {| event_num := 1; fired := [ {| events := EPOLLOUT; data_fd := 4 |} ] |};
     dispatched_events := []; flush2 := quiet_flush; ctl2 := 0 |}.

(** The flush fails with [EPIPE]. *)
Definition answers_broken : run_once_answers :=
  {| pending_events := []; flush1 := broken_flush; ctl1 := 0;
     waited := {| event_num := 1; fired := [ {| events := EPOLLIN; data_fd := 4 |} ] |};
     dispatched_events := []; flush2 := quiet_flush; ctl2 := 0 |}.

(** The wait times out. *)
Definition answers_timeout : run_once_answers :=
  {| pending_events := []; flush1 := quiet_flush; ctl1 := 0;
     waited := {| event_num := 0; fired := [] |};
     dispatched_events := []; flush2 := quiet_flush; ctl2 := 0 |}.

(** The descriptor is readable and the dispatch delivers the press and
    the release of raw key [key]. *)
Definition answers_key (key : Z) : run_once_answers :=
  {| pending_events := []; flush1 := quiet_flush; ctl1 := 0;
     waited := {| event_num := 1; fired := [ {| events := EPOLLIN; data_fd := 4 |} ] |};
     dispatched_events := [ev_kb_key key WL_KEYBOARD_KEY_STATE_PRESSED;
                           ev_kb_key key WL_KEYBOARD_KEY_STATE_RELEASED];
     flush2 := quiet_flush; ctl2 := 0 |}.


(** The sample world with two windows, "a" at 4096 and "b" at 8192, each
    with a mouse callback. *)
Definition two_windows : world :=
  ((create_window 4096 "a" 0;; create_window 8192 "b" 0;;
    cvSetMouseCallback "a" (Some 11) 0;; cvSetMouseCallback "b" (Some 22) 0)
     sample_world).2.

(** Then the one-pixel image is shown in "a". *)
Definition shown_world : world :=
  (cvShowImage sample_layout [[]] shm_fine "a" pixel_mat two_windows).2.


(** The sample world with a keyboard that has received no keymap yet. *)
Definition fresh_world : world :=
  set_input (Some {| mouse_ := Some {| entered_window_ := [] |};
                     keyboard_ := Some (new_keyboard 100) |}) sample_world.

(** The descriptor is readable and the dispatch delivers a keymap of
    format 0, then the release of raw key 30. *)
Definition answers_bad_keymap : run_once_answers :=
  {| pending_events := []; flush1 := quiet_flush; ctl1 := 0;
     waited := {| event_num := 1; fired := [ {| events := EPOLLIN; data_fd := 4 |} ] |};
     dispatched_events := [ev_kb_keymap 0 keymap_fine;
                           ev_kb_key 30 WL_KEYBOARD_KEY_STATE_RELEASED];
     flush2 := quiet_flush; ctl2 := 0 |}.


(** ** The seat and the construction of the display *)

(** Constants of [<wayland-client-protocol.h>]: two capabilities of a
    seat, and the opcode of the request [wl_seat.get_keyboard], which is
    what [handle_seat_capabilities] tests the capabilities against. *)
Definition WL_SEAT_CAPABILITY_POINTER : Z := 1.
Definition WL_SEAT_CAPABILITY_KEYBOARD : Z := 2.
Definition WL_SEAT_GET_KEYBOARD : Z := 1.

(** The constructors of [cv_wl_mouse] and [cv_wl_keyboard]; [c] is what
    [xkb_context_new] returns. *)
Definition new_mouse : cv_wl_mouse := {| entered_window_ := [] |}.

Definition make_keyboard (c : option ptr) : result cv_wl_keyboard :=
  match c with
  | Some c => Ok (new_keyboard c)
  | None => Throw "Failed to create xkb context"
  end.

(** The constructor of [cv_wl_input]. *)
Definition make_input (seat : option ptr) : result cv_wl_input :=
  match seat with
  | Some _ => Ok {| mouse_ := None; keyboard_ := None |}
  | None => Throw "Invalid seat detected when initializing"
  end.

(** [cv_wl_input::handle_seat_capabilities]. *)
Definition handle_seat_capabilities (c : option ptr) (caps : Z) (inp : cv_wl_input)
  : result cv_wl_input :=
  let inp :=
    if decide (Z.land caps WL_SEAT_CAPABILITY_POINTER ≠ 0) then
      {| mouse_ := Some new_mouse; keyboard_ := keyboard_ inp |}
    else inp in
  if decide (Z.land caps WL_SEAT_GET_KEYBOARD ≠ 0) then
    kb ← make_keyboard c;
    Ok {| mouse_ := mouse_ inp; keyboard_ := Some kb |}
  else Ok inp.

(** The display the rest of the model works on, from the members a
    constructed [cv_wl_display] has. *)
Definition make_display (epfd fd : Z) (inp : option cv_wl_input) (formats : Z)
  : cv_wl_display :=
  {| poller_ := {| epoll_fd_ := epfd |}; display_fd := fd; input_ := inp;
     formats_ := formats |}.

Module Bootstrap.

(** [class cv_wl_display] with the members its construction fills;
    [poller_] is the descriptor of the [epoller], [display_] the
    descriptor of the connection, [registered] the interest the
    [epoller] was last given for it. *)
Record display := {
  poller_ : Z;
  display_ : Z;
  compositor_ : option ptr;
  shm_ : option ptr;
  shell_ : option ptr;
  input_ : option cv_wl_input;
  formats_ : Z;
  registered : option Z
}.

(** The events of the handshake: a global of the registry with what
    [wl_registry_bind] returns for it, a pixel format of [wl_shm], the
    capabilities of the seat with what [xkb_context_new] returns, the
    removal of a global. *)
Inductive event :=
  | global (iface : string) (proxy : option ptr)
  | format (f : Z)
  | capabilities (c : option ptr) (caps : Z)
  | global_remove.

Definition set_input (i : option cv_wl_input) (d : display) : display :=
  {| poller_ := poller_ d; display_ := display_ d; compositor_ := compositor_ d;
     shm_ := shm_ d; shell_ := shell_ d; input_ := i; formats_ := formats_ d;
     registered := registered d |}.

Definition set_formats (f : Z) (d : display) : display :=
  {| poller_ := poller_ d; display_ := display_ d; compositor_ := compositor_ d;
     shm_ := shm_ d; shell_ := shell_ d; input_ := input_ d; formats_ := f;
     registered := registered d |}.

(** [cv_wl_display::handle_reg_global].  Adding a listener to a null
    [wl_shm] or [xdg_shell] is a fault. *)
Definition handle_reg_global (iface : string) (proxy : option ptr) (d : display)
  : result display :=
  if decide (iface = "wl_compositor") then
    Ok {| poller_ := poller_ d; display_ := display_ d; compositor_ := proxy;
          shm_ := shm_ d; shell_ := shell_ d; input_ := input_ d;
          formats_ := formats_ d; registered := registered d |}
  else if decide (iface = "wl_shm") then
    match proxy with
    | Some _ =>
        Ok {| poller_ := poller_ d; display_ := display_ d;
              compositor_ := compositor_ d; shm_ := proxy; shell_ := shell_ d;
              input_ := input_ d; formats_ := formats_ d;
              registered := registered d |}
    | None => Fault
    end
  else if decide (iface = "xdg_shell") then
    match proxy with
    | Some _ =>
        Ok {| poller_ := poller_ d; display_ := display_ d;
              compositor_ := compositor_ d; shm_ := shm_ d; shell_ := proxy;
              input_ := input_ d; formats_ := formats_ d;
              registered := registered d |}
    | None => Fault
    end
  else if decide (iface = "wl_seat") then
    inp ← make_input proxy;
    Ok (set_input (Some inp) d)
  else Ok d.

(** [cv_wl_display::handle_reg_remove]. *)
Definition handle_reg_remove (d : display) : display := d.

(** [cv_wl_display::handle_shm_format]: [formats_ |= (1 << format)], a
    shift of an [int] that is undefined from 32 bits on. *)
Definition handle_shm_format (f : Z) (d : display) : result display :=
  if decide (0 ≤ f < 32) then
    Ok (set_formats (Z.lor (formats_ d) (uint32 (Z.shiftl 1 f))) d)
  else Fault.

(** One event handed to its listener: [wl_shm] has one once it is
    bound, the seat once [input_] is made. *)
Definition deliver (e : event) (d : display) : result display :=
  match e with
  | global iface proxy => handle_reg_global iface proxy d
  | format f =>
      match shm_ d with
      | Some _ => handle_shm_format f d
      | None => Ok d
      end
  | capabilities c caps =>
      match input_ d with
      | Some inp =>
          inp' ← handle_seat_capabilities c caps inp;
          Ok (set_input (Some inp') d)
      | None => Ok d
      end
  | global_remove => Ok (handle_reg_remove d)
  end.

(** [wl_display_roundtrip] during the handshake. *)
Fixpoint roundtrip (evs : list event) (d : display) : result display :=
  match evs with
  | [] => Ok d
  | e :: evs' => d' ← deliver e d; roundtrip evs' d'
  end.

(** What the outside answers to the construction: [epoll_create1],
    [wl_display_connect], [wl_display_get_fd], the events of the two
    round trips of [init], [epoll_ctl], and the events of the round trip
    of [cv_wl_core::init]. *)
Record answers := {
  epoll_create : Z;
  connected : option ptr;
  get_fd : Z;
  trip1 : list event;
  trip2 : list event;
  ctl_add : Z;
  trip3 : list event
}.

(** The constructor of [cv_wl_display]: the members are initialised,
    then [init] runs. *)
Definition construct (ans : answers) : result display :=
  if decide (epoll_create ans < 0) then Throw "Failed to create epoll fd: "
  else
    let d := {| poller_ := epoll_create ans; display_ := get_fd ans;
                compositor_ := None; shm_ := None; shell_ := None; input_ := None;
                formats_ := 0; registered := None |} in
    match connected ans with
    | None => Throw "Could not connect to display: "
    | Some _ =>
        d ← roundtrip (trip1 ans) d;
        if decide (compositor_ d = None ∨ shm_ d = None ∨ shell_ d = None
                   ∨ input_ d = None) then
          Throw "Compositor doesn't have required interfaces"
        else
          d ← roundtrip (trip2 ans) d;
          if decide (Z.land (formats_ d) (Z.shiftl 1 WL_SHM_FORMAT_XRGB8888) = 0) then
            Throw "WL_SHM_FORMAT_XRGB32 not available"
          else if decide (ctl_add ans < 0) then Throw "epoll_ctl: "
          else
            Ok {| poller_ := poller_ d; display_ := display_ d;
                  compositor_ := compositor_ d; shm_ := shm_ d; shell_ := shell_ d;
                  input_ := input_ d; formats_ := formats_ d;
                  registered :=
                    Some (Z.lor (Z.lor (Z.lor EPOLLIN EPOLLOUT) EPOLLERR) EPOLLHUP) |}
    end.

(** [cv_wl_core::init]. *)
Definition core_init (ans : answers) : result display :=
  d ← construct ans;
  roundtrip (trip3 ans) d.

(** [g_core]: not set, set with a null [display_], or set with a
    display. *)
Definition core := option (option display).

(** [cvInitSystem]; [allocated] tells whether [make_shared<cv_wl_core>]
    succeeds.  Every exception is caught. *)
Definition cvInitSystem (allocated : bool) (ans : answers) (g : core)
  : result (Z * core) :=
  match g with
  | Some _ => Ok (0, g)
  | None =>
      if allocated then
        match core_init ans with
        | Ok d => Ok (0, Some (Some d))
        | Throw _ => Ok (0, Some None)
        | Fault => Fault
        | Pending => Pending
        end
      else Ok (-1, None)
  end.

(** The display of [world] a constructed display stands for. *)
Definition ready (d : display) : cv_wl_display :=
  make_display (poller_ d) (display_ d) (input_ d) (formats_ d).

End Bootstrap.

(** A handshake with a compositor that has everything: the four
    globals, then the two basic pixel formats and a seat with a pointer
    and a keyboard. *)
Definition full_handshake : Bootstrap.answers :=
  {| Bootstrap.epoll_create := 3; Bootstrap.connected := Some 200;
     Bootstrap.get_fd := 4;
     Bootstrap.trip1 := [Bootstrap.global "wl_compositor" (Some 201);
                         Bootstrap.global "wl_shm" (Some 202);
                         Bootstrap.global "xdg_shell" (Some 203);
                         Bootstrap.global "wl_seat" (Some 204);
                         Bootstrap.global "wl_output" (Some 205)];
     Bootstrap.trip2 := [Bootstrap.format 0; Bootstrap.format 1;
                         Bootstrap.capabilities (Some 100) 3];
     Bootstrap.ctl_add := 0;
     Bootstrap.trip3 := [] |}.

(** The same with a compositor that has no seat. *)
Definition seatless_handshake : Bootstrap.answers :=
  {| Bootstrap.epoll_create := 3; Bootstrap.connected := Some 200;
     Bootstrap.get_fd := 4;
     Bootstrap.trip1 := [Bootstrap.global "wl_compositor" (Some 201);
                         Bootstrap.global "wl_shm" (Some 202);
                         Bootstrap.global "xdg_shell" (Some 203)];
     Bootstrap.trip2 := [Bootstrap.format 0; Bootstrap.format 1];
     Bootstrap.ctl_add := 0;
     Bootstrap.trip3 := [] |}.


(** ** Notions for the registry *)

(** Every window the registry knows is alive, and its address leads back
    to its name. *)
Definition registry_sound (w : world) : Prop :=
  ∀ nm p, windows_ (g_core w) !! nm = Some p →
    is_Some (heap w !! p) ∧ handles_ (g_core w) !! p = Some nm.

(** The operations of the registry; [op_create] carries the address
    [make_shared] gives to the new window. *)
Inductive registry_op :=
  | op_create (p : ptr) (nm : string) (flags : Z)
  | op_destroy (nm : string)
  | op_destroy_all
  | op_get_name (handle : ptr).

Definition run_op (o : registry_op) : M unit :=
  match o with
  | op_create p nm flags => create_window p nm flags;; skip
  | op_destroy nm => destroy_window nm;; skip
  | op_destroy_all => destroy_all_windows
  | op_get_name handle => get_window_name handle;; skip
  end.

Fixpoint run_ops (ops : list registry_op) (w : world) : world :=
  match ops with
  | [] => w
  | o :: ops' => run_ops ops' (run_op o w).2
  end.

(** The allocator gives a new object an address where nothing lives. *)
Fixpoint fresh_addresses (ops : list registry_op) (w : world) : Prop :=
  match ops with
  | [] => True
  | o :: ops' =>
      match o with
      | op_create p _ _ => heap w !! p = None
      | _ => True
      end ∧ fresh_addresses ops' (run_op o w).2
  end.


(** ** Notions for the input routing *)

(** The buttons the backend knows, each with the event of its press,
    the event of its release and its flag. *)
Definition button_table : list (Z * Z * Z * Z) :=
  [ (LBUTTON, EVENT_LBUTTONDOWN, EVENT_LBUTTONUP, EVENT_FLAG_LBUTTON);
    (RBUTTON, EVENT_RBUTTONDOWN, EVENT_RBUTTONUP, EVENT_FLAG_RBUTTON);
    (MBUTTON, EVENT_MBUTTONDOWN, EVENT_MBUTTONUP, EVENT_FLAG_MBUTTON) ].

(** The call of the callback [cb] registered with [prm]. *)
Definition call_of (cb prm event x y flag : Z) : mouse_call :=
  {| mc_callback := cb; mc_event := event; mc_x := x; mc_y := y; mc_flag := flag;
     mc_param := prm |}.

(** No window has a mouse callback. *)
Definition no_callbacks (w : world) : Prop :=
  ∀ p win, heap w !! p = Some win → callback (on_mouse_ win) = None.

(** If no window has a callback before, none has after and no call was
    made. *)
Definition silent : relation world :=
  fun w w' => no_callbacks w → no_callbacks w' ∧ mouse_log w' = mouse_log w.


(** ** Notions for the keyboard *)

Definition key_code (k : Z) : Prop := 0 ≤ k < 256.

(** Every key waiting in the queue is a code from 0 to 255. *)
Definition keys_in_range (w : world) : Prop :=
  match queued_keys w with
  | Some q => Forall key_code q
  | None => True
  end.

Definition keys_kept : relation world :=
  fun w w' => keys_in_range w → keys_in_range w'.


(** ** Notions for the buffers *)


(** The event is the release of a buffer of the window at [this]. *)
Definition releases (this : ptr) (e : wl_event) : Prop :=
  match e with
  | ev_buffer_release window _ => window = this
  | _ => False
  end.

(** The buffers of the window at [this] are as busy as they were. *)
Definition busy_kept (this : ptr) : relation world :=
  fun w w' => ∀ win, heap w !! this = Some win →
    ∃ win', heap w' !! this = Some win' ∧
            is_busy (get_buf Buf0 win') = is_busy (get_buf Buf0 win) ∧
            is_busy (get_buf Buf1 win') = is_busy (get_buf Buf1 win).


(** ** Notions for the wait for a key *)

(** The event is the release of a key. *)
Definition key_release (e : wl_event) : Prop :=
  match e with
  | ev_kb_key _ key_state => key_state = WL_KEYBOARD_KEY_STATE_RELEASED
  | _ => False
  end.

(** No event of the call of [run_once] is the release of a key. *)
Definition no_release (ans : run_once_answers) : Prop :=
  Forall (fun e => ¬ key_release e) (pending_events ans) ∧
  Forall (fun e => ¬ key_release e) (dispatched_events ans).

(** No key waits in the queue. *)
Definition no_keys (w : world) : Prop :=
  match queued_keys w with
  | Some q => q = []
  | None => True
  end.

Definition no_keys_kept : relation world :=
  fun w w' => no_keys w → no_keys w'.

(** * Properties *)

(** ** Results and loops *)

Lemma bind_Ok {A B} (m : result A) (f : A → result B) a :
  m = Ok a → (m ≫= f) = f a.
Proof. by intros ->. Qed.

Lemma for_from_inv {T} (P : Z → T → Prop) (body : Z → T → result T) :
  ∀ (count : nat) (i : Z) (s : T),
    P i s →
    (∀ j t, i ≤ j < i + Z.of_nat count → P j t → ∃ t', body j t = Ok t' ∧ P (j + 1) t') →
    ∃ s', for_from i count body s = Ok s' ∧ P (i + Z.of_nat count) s'.
Proof.
  induction count as [|k IH]; intros i s Hs Hstep.
  - exists s. split; [done|]. by rewrite Z.add_0_r.
  - destruct (Hstep i s) as (t & Hb & Ht); [lia|done|].
    destruct (IH (i + 1) t) as (s' & Hf & Hs'); [done| |].
    + intros j u Hj Hu. apply Hstep; [lia|done].
    + exists s'. split.
      * cbn [for_from]. by rewrite (bind_Ok _ _ _ Hb).
      * by replace (i + Z.of_nat (S k)) with (i + 1 + Z.of_nat k) by lia.
Qed.

Lemma for_range_inv {T} (P : Z → T → Prop) (body : Z → T → result T) (n : Z) (s : T) :
  P 0 s →
  (∀ j t, 0 ≤ j < n → P j t → ∃ t', body j t = Ok t' ∧ P (j + 1) t') →
  ∃ s', for_range n body s = Ok s' ∧ P (Z.max 0 n) s'.
Proof.
  intros H0 Hstep. unfold for_range.
  destruct (for_from_inv P body (Z.to_nat n) 0 s) as (s' & Hf & Hs'); [done| |].
  - intros j t Hj. apply Hstep. lia.
  - exists s'. split; [done|]. by replace (Z.max 0 n) with (0 + Z.of_nat (Z.to_nat n)) by lia.
Qed.

Lemma load_Some {A} (l : list A) (i : Z) v :
  0 ≤ i → l !! Z.to_nat i = Some v → load l i = Ok v.
Proof. intros Hi Hl. unfold load. rewrite decide_True by done. by rewrite Hl. Qed.

Lemma int_Ok (z : Z) : int_range z → int z = Ok z.
Proof. intros Hz. unfold int. by rewrite decide_True. Qed.

Lemma store_Ok {A} (l : list A) (i : Z) v :
  0 ≤ i < Z.of_nat (length l) → store l i v = Ok (<[Z.to_nat i := v]> l).
Proof. intros Hi. unfold store. by rewrite decide_True. Qed.

Lemma argb8888_bytes r g b :
  is_byte r → is_byte g → is_byte b →
  argb8888 0 r g b = xrgb8888 r g b ∧ xrgb8888 r g b = r * 65536 + g * 256 + b.
Proof.
  unfold is_byte, argb8888, xrgb8888, uint32. intros Hr Hg Hb.
  assert (Hsum : Z.lor (Z.lor (Z.lor (Z.shiftl 0 24) (Z.shiftl r 16)) (Z.shiftl g 8)) b
                 = r * 65536 + g * 256 + b).
  { rewrite Z.shiftl_0_l, Z.lor_0_l.
    rewrite !Z.shiftl_mul_pow2 by lia.
    change (2 ^ 16) with 65536. change (2 ^ 8) with 256.
    rewrite <- (Z.add_nocarry_lor (r * 65536) (g * 256)).
    - rewrite <- Z.add_nocarry_lor; [done|].
      apply Z.bits_inj'. intros n Hn. rewrite Z.land_spec, Z.bits_0.
      destruct (decide (n < 8)).
      + replace (r * 65536 + g * 256) with ((r * 256 + g) * 2 ^ 8) by lia.
        rewrite Z.mul_pow2_bits_low by lia. done.
      + rewrite (Z.bits_above_log2 b n); [by rewrite andb_false_r|lia|].
        destruct (decide (b = 0)) as [->|]; [simpl; lia|].
        apply Z.log2_lt_pow2; [lia|]. 
        assert (2 ^ 8 ≤ 2 ^ n) by (apply Z.pow_le_mono_r; lia). lia.
    - apply Z.bits_inj'. intros n Hn. rewrite Z.land_spec, Z.bits_0.
      destruct (decide (n < 16)).
      + replace (r * 65536) with (r * 2 ^ 16) by lia.
        rewrite Z.mul_pow2_bits_low by lia. done.
      + rewrite (Z.bits_above_log2 (g * 256) n); [by rewrite andb_false_r|lia|].
        destruct (decide (g = 0)) as [->|]; [simpl; lia|].
        apply Z.log2_lt_pow2; [lia|]. 
        assert (2 ^ 16 ≤ 2 ^ n) by (apply Z.pow_le_mono_r; lia). lia. }
  split; [|done]. rewrite Hsum. apply Z.mod_small. lia.
Qed.

Lemma channels_of_xrgb8888 r g b :
  is_byte r → is_byte g → is_byte b →
  channel 3 (xrgb8888 r g b) = 0 ∧ channel 2 (xrgb8888 r g b) = r ∧
  channel 1 (xrgb8888 r g b) = g ∧ channel 0 (xrgb8888 r g b) = b.
Proof.
  intros Hr Hg Hb.
  destruct (argb8888_bytes r g b Hr Hg Hb) as [_ ->].
  unfold is_byte in *. unfold channel.
  change 255 with (Z.ones 8). rewrite !Z.land_ones, !Z.shiftr_div_pow2 by lia.
  change (2 ^ (8 * 3)) with 16777216. change (2 ^ (8 * 2)) with 65536.
  change (2 ^ (8 * 1)) with 256. change (2 ^ (8 * 0)) with 1. change (2 ^ 8) with 256.
  assert ((r * 65536 + g * 256 + b) / 16777216 = 0) as -> by (apply Z.div_small; lia).
  assert ((r * 65536 + g * 256 + b) / 65536 = r) as ->
    by (symmetry; apply (Z.div_unique _ _ _ (g * 256 + b)); lia).
  assert ((r * 65536 + g * 256 + b) / 256 = r * 256 + g) as ->
    by (symmetry; apply (Z.div_unique _ _ _ b); lia).
  rewrite Z.div_1_r.
  repeat split.
  - apply Z.mod_small; lia.
  - symmetry; apply (Z.mod_unique _ _ r); lia.
  - symmetry; apply (Z.mod_unique _ _ (r * 256 + g)); lia.
Qed.

Section Conversion.

Variable mat : CvMat.
Variable data : list Z.
Hypothesis bytes : Forall is_byte (mat_data mat).
Hypothesis step_pos : 0 ≤ step mat.
Hypothesis src_small : Z.of_nat (length (mat_data mat)) ≤ 2 ^ 31.
Hypothesis dst_small : 4 * Z.of_nat (length data) ≤ 2 ^ 31.
Hypothesis in_bounds : ∀ y x, 0 ≤ y < rows mat → 0 ≤ x < cols mat →
  0 ≤ step mat * y + x * 3 ∧
  step mat * y + x * 3 + 2 < Z.of_nat (length (mat_data mat)) ∧
  y * cols mat + x < Z.of_nat (length data).

Lemma source_pixel y x :
  0 ≤ y < rows mat → 0 ≤ x < cols mat →
  ∃ B G R, load (mat_data mat) (step mat * y + x * 3) = Ok B ∧
           load (mat_data mat) (step mat * y + x * 3 + 1) = Ok G ∧
           load (mat_data mat) (step mat * y + x * 3 + 2) = Ok R ∧
           is_byte B ∧ is_byte G ∧ is_byte R.
Proof.
  intros Hy Hx. destruct (in_bounds y x Hy Hx) as (Hlo & Hhi & _).
  pose proof (proj1 (Forall_lookup _ _) bytes) as Hbytes.
  assert (Hget : ∀ i, step mat * y + x * 3 ≤ i ≤ step mat * y + x * 3 + 2 →
                 ∃ v, load (mat_data mat) i = Ok v ∧ is_byte v).
  { intros i Hi.
    destruct (lookup_lt_is_Some_2 (mat_data mat) (Z.to_nat i)) as [v Hv]; [lia|].
    exists v. split; [apply load_Some; [lia|done]|by eapply Hbytes]. }
  destruct (Hget (step mat * y + x * 3)) as (B & ? & ?); [lia|].
  destruct (Hget (step mat * y + x * 3 + 1)) as (G & ? & ?); [lia|].
  destruct (Hget (step mat * y + x * 3 + 2)) as (R & ? & ?); [lia|].
  by exists B, G, R.
Qed.

Lemma write_pixel_step y x d :
  0 ≤ y < rows mat → 0 ≤ x < cols mat →
  row_done mat data y x d → ∃ d', write_pixel mat y x d = Ok d' ∧ row_done mat data y (x + 1) d'.
Proof.
  intros Hy Hx [[Hlen Hrows] Hrow].
  destruct (source_pixel y x Hy Hx) as (B & G & R & HB & HG & HR & HbB & HbG & HbR).
  destruct (in_bounds y x Hy Hx) as (_ & _ & Hdst).
  assert (0 ≤ y * cols mat + x) by nia.
  exists (<[Z.to_nat (y * cols mat + x) := argb8888 0 R G B]> d). split.
  { destruct (in_bounds y x Hy Hx) as (Hlo & Hhi & _).
    unfold write_pixel.
    rewrite (bind_Ok _ _ _ (int_Ok (step mat * y) ltac:(unfold int_range; nia))).
    rewrite (bind_Ok _ _ _ (int_Ok (x * 3) ltac:(unfold int_range; nia))).
    rewrite (bind_Ok _ _ _ (int_Ok (step mat * y + x * 3) ltac:(unfold int_range; nia))).
    rewrite (bind_Ok _ _ _ HB).
    rewrite (bind_Ok _ _ _ (int_Ok (step mat * y + x * 3 + 1) ltac:(unfold int_range; nia))).
    rewrite (bind_Ok _ _ _ HG).
    rewrite (bind_Ok _ _ _ (int_Ok (step mat * y + x * 3 + 2) ltac:(unfold int_range; nia))).
    rewrite (bind_Ok _ _ _ HR).
    rewrite (bind_Ok _ _ _ (int_Ok (y * cols mat) ltac:(unfold int_range; nia))).
    rewrite (bind_Ok _ _ _ (int_Ok (y * cols mat + x) ltac:(unfold int_range; nia))).
    rewrite (bind_Ok _ _ _ (int_Ok ((y * cols mat + x) * 4) ltac:(unfold int_range; nia))).
    unfold draw_argb8888. rewrite Z.mod_mul, Z.div_mul by lia.
    rewrite decide_True by done. apply store_Ok. lia. }
  split; [split|].
  - by rewrite length_insert.
  - intros y' x' Hy' Hx'. destruct (Hrows y' x' Hy' Hx') as (v & Hv & Hc).
    exists v. split; [|done]. rewrite list_lookup_insert_ne; [done|]. nia.
  - intros x' Hx'. destruct (decide (x' = x)) as [->|Hne].
    + exists (argb8888 0 R G B). split.
      * apply list_lookup_insert_eq. lia.
      * exists B, G, R. repeat split; try done; try apply HbB; try apply HbG; try apply HbR.
        by apply argb8888_bytes.
    + destruct (Hrow x') as (v & Hv & Hc); [lia|].
      exists v. split; [|done]. rewrite list_lookup_insert_ne; [done|]. nia.
Qed.

Lemma write_row_step y d :
  0 ≤ y < rows mat →
  rows_done mat data y d →
  ∃ d', for_range (cols mat) (fun x => write_pixel mat y x) d = Ok d' ∧ rows_done mat data (y + 1) d'.
Proof.
  intros Hy Hd.
  destruct (for_range_inv (row_done mat data y) (fun x => write_pixel mat y x) (cols mat) d)
    as (d' & Hrun & [[Hlen Hrows] Hrow]).
  - split; [done|]. intros; lia.
  - intros x t Hx Ht. by apply write_pixel_step.
  - exists d'. split; [done|]. split; [done|].
    intros y' x' Hy' Hx'. destruct (decide (y' = y)) as [->|Hne].
    + apply Hrow. lia.
    + apply Hrows; lia.
Qed.

End Conversion.

(** C1.  When every pixel of the source lies inside [mat_data] (bytes)
    and inside the destination, the row stride is not negative and the
    two buffers are small enough for [int] offsets,
    [write_mat_to_xrgb8888] returns, and for
    each pixel with channel bytes (B, G, R) the destination word of that
    pixel is [(0 << 24) | (R << 16) | (G << 8) | B]: alpha byte 0 and
    the three channel values unchanged. *)
Theorem write_mat_to_xrgb8888_reorders (mat : CvMat) (data : list Z) :
  Forall is_byte (mat_data mat) →
  0 ≤ step mat →
  Z.of_nat (length (mat_data mat)) ≤ 2 ^ 31 →
  4 * Z.of_nat (length data) ≤ 2 ^ 31 →
  (∀ y x, 0 ≤ y < rows mat → 0 ≤ x < cols mat →
     0 ≤ step mat * y + x * 3 ∧
     step mat * y + x * 3 + 2 < Z.of_nat (length (mat_data mat)) ∧
     y * cols mat + x < Z.of_nat (length data)) →
  ∃ data', write_mat_to_xrgb8888 mat data = Ok data' ∧
    length data' = length data ∧
    ∀ y x, 0 ≤ y < rows mat → 0 ≤ x < cols mat →
      ∃ B G R,
        load (mat_data mat) (step mat * y + x * 3) = Ok B ∧
        load (mat_data mat) (step mat * y + x * 3 + 1) = Ok G ∧
        load (mat_data mat) (step mat * y + x * 3 + 2) = Ok R ∧
        load data' (y * cols mat + x) = Ok (xrgb8888 R G B) ∧
        channel 3 (xrgb8888 R G B) = 0 ∧ channel 2 (xrgb8888 R G B) = R ∧
        channel 1 (xrgb8888 R G B) = G ∧ channel 0 (xrgb8888 R G B) = B.
Proof.
  intros Hbytes Hstep Hsrc Hdst Hbounds.
  destruct (for_range_inv (rows_done mat data)
              (fun y => for_range (cols mat) (fun x => write_pixel mat y x))
              (rows mat) data) as (data' & Hrun & Hlen & Hrows).
  - split; [done|]. intros; lia.
  - intros y t Hy Ht. by apply write_row_step.
  - exists data'. split; [done|]. split; [done|].
    intros y x Hy Hx.
    destruct (Hrows y x) as (v & Hv & B & G & R & HB & HG & HR & HbB & HbG & HbR & ->);
      [lia|done|].
    destruct (channels_of_xrgb8888 R G B HbR HbG HbB) as (Ha & Hr & Hg & Hb).
    exists B, G, R. split_and!; try done.
    apply load_Some; [|done]. destruct (Hbounds y x Hy Hx). nia.
Qed.

(** The pixel (B, G, R) = (10, 20, 30) becomes the word [0x001E140A]. *)
Lemma write_mat_to_xrgb8888_one_pixel :
  write_mat_to_xrgb8888 pixel_mat [4294967295] = Ok [0x001E140A].
Proof.
  assert (Hbytes : Forall is_byte (mat_data pixel_mat)).
  { repeat constructor; unfold is_byte; lia. }
  assert (Hbounds : ∀ y x, 0 ≤ y < rows pixel_mat → 0 ≤ x < cols pixel_mat →
            0 ≤ step pixel_mat * y + x * 3 ∧
            step pixel_mat * y + x * 3 + 2 < Z.of_nat (length (mat_data pixel_mat)) ∧
            y * cols pixel_mat + x < Z.of_nat (length [4294967295])).
  { simpl. intros y x Hy Hx. lia. }
  destruct (write_mat_to_xrgb8888_reorders pixel_mat [4294967295] Hbytes) as
    (data' & -> & Hlen & Hpix); [simpl; lia..|exact Hbounds|].
  destruct (Hpix 0 0) as (B & G & R & HB & HG & HR & Hword & _); [simpl; lia..|].
  injection HB as <-. injection HG as <-. injection HR as <-.
  destruct data' as [|v [|? ?]]; [discriminate| |discriminate].
  injection Hword as ->. reflexivity.
Defined.

(** ** The keyboard *)

Lemma last_snoc_Z (q : list Z) (k : Z) : last (q ++ [k]) = Some k.
Proof. apply last_snoc. Qed.

Lemma xkb_keysym_to_ascii_range (keysym : Z) : 0 ≤ xkb_keysym_to_ascii keysym < 256.
Proof. unfold xkb_keysym_to_ascii, uint8. apply Z.mod_pos_bound. lia. Qed.

Lemma handle_kb_key_not_released sym (key key_state : Z) (kb : cv_wl_keyboard) :
  key_state ≠ WL_KEYBOARD_KEY_STATE_RELEASED →
  handle_kb_key sym key key_state kb = Ok kb.
Proof. intros Hne. unfold handle_kb_key. by rewrite decide_False. Qed.

Lemma handle_kb_key_released sym (key keysym : Z) (kb : cv_wl_keyboard) :
  sym (state (xkb_ kb)) (xkb_keycode_from_raw_keycode key) = Some keysym →
  handle_kb_key sym key WL_KEYBOARD_KEY_STATE_RELEASED kb
  = Ok (set_key_queue (key_queue_ kb ++ [xkb_keysym_to_ascii keysym]) kb).
Proof. intros Hsym. unfold handle_kb_key. rewrite decide_True by done. by rewrite Hsym. Qed.

Lemma get_key_drains (kb : cv_wl_keyboard) : key_queue_ (get_key kb).2 = [].
Proof. reflexivity. Qed.

Lemma get_key_empty (kb : cv_wl_keyboard) : key_queue_ kb = [] → (get_key kb).1 = -1.
Proof. intros Hq. unfold get_key. by rewrite Hq. Qed.

(** C2.  Only a release enqueues a code: an event in any other state
    leaves the keyboard as it was, a release appends the code the layout
    gives.  [get_key] returns the last code queued, or -1 when the queue
    is empty, and empties the queue: called again at once it returns -1;
    after the releases of [keyA] then [keyB] it returns the code of
    [keyB], then -1. *)
Theorem get_key_most_recent_release sym (kb : cv_wl_keyboard) (keyA keyB symA symB : Z) :
  sym (state (xkb_ kb)) (xkb_keycode_from_raw_keycode keyA) = Some symA →
  sym (state (xkb_ kb)) (xkb_keycode_from_raw_keycode keyB) = Some symB →
  (∀ key key_state, key_state ≠ WL_KEYBOARD_KEY_STATE_RELEASED →
     handle_kb_key sym key key_state kb = Ok kb) ∧
  (get_key kb).1 = default (-1) (last (key_queue_ kb)) ∧
  key_queue_ (get_key kb).2 = [] ∧
  (get_key (get_key kb).2).1 = -1 ∧
  (key_queue_ kb = [] → (get_key kb).1 = -1) ∧
  ∃ kb1 kb2,
    handle_kb_key sym keyA WL_KEYBOARD_KEY_STATE_RELEASED kb = Ok kb1 ∧
    handle_kb_key sym keyB WL_KEYBOARD_KEY_STATE_RELEASED kb1 = Ok kb2 ∧
    key_queue_ kb2
    = key_queue_ kb ++ [xkb_keysym_to_ascii symA; xkb_keysym_to_ascii symB] ∧
    (get_key kb2).1 = xkb_keysym_to_ascii symB ∧
    (get_key (get_key kb2).2).1 = -1.
Proof.
  intros HA HB. split_and!.
  - intros key key_state. apply handle_kb_key_not_released.
  - unfold get_key. simpl. by destruct (last (key_queue_ kb)).
  - apply get_key_drains.
  - apply get_key_empty, get_key_drains.
  - apply get_key_empty.
  - eexists _, _. split_and!.
    + by apply handle_kb_key_released.
    + by apply handle_kb_key_released.
    + simpl. by rewrite <- app_assoc.
    + unfold get_key. simpl. by rewrite last_snoc_Z.
    + apply get_key_empty, get_key_drains.
Qed.

(** On the sample keyboard the releases of raw keys 30 and 48 queue 97
    then 115; the poll returns 115, the next one -1. *)
Lemma get_key_most_recent_release_sample :
  (get_key sample_keyboard).1 = -1 ∧
  ∃ kb1 kb2,
    handle_kb_key sample_layout 30 WL_KEYBOARD_KEY_STATE_RELEASED sample_keyboard = Ok kb1 ∧
    handle_kb_key sample_layout 48 WL_KEYBOARD_KEY_STATE_RELEASED kb1 = Ok kb2 ∧
    key_queue_ kb2 = [97; 115] ∧
    (get_key kb2).1 = 115 ∧
    (get_key (get_key kb2).2).1 = -1.
Proof.
  destruct (get_key_most_recent_release sample_layout sample_keyboard 30 48 97 115
              eq_refl eq_refl) as (_ & _ & _ & _ & Hempty & kb1 & kb2 & H1 & H2 & Hq & Hk & Hk').
  split; [by apply Hempty|].
  exists kb1, kb2. split_and!; done.
Defined.

Lemma handle_kb_keymap_failure (c : ptr) (format : Z) (ans : keymap_answer) :
  format ≠ WL_KEYBOARD_KEYMAP_FORMAT_XKB_V1 ∨ new_keymap ans = None ∨ new_state ans = None →
  ∃ kb, handle_kb_keymap format ans (new_keyboard c) = Ok kb ∧
        state (xkb_ kb) = None ∧ key_queue_ kb = [].
Proof.
  intros Hfail. unfold handle_kb_keymap.
  destruct (decide (format ≠ WL_KEYBOARD_KEYMAP_FORMAT_XKB_V1)); [by eexists|].
  destruct (mmap_ok ans); [|by eexists]. simpl.
  destruct Hfail as [?|[->| ->]]; [done|by eexists|].
  destruct (new_keymap ans); by eexists.
Qed.

Lemma shift_one_Ok (index v : Z) :
  shift_one index = Ok v ↔ 0 ≤ index < 32 ∧ v = uint32 (Z.shiftl 1 index).
Proof.
  unfold shift_one. destruct (decide (0 ≤ index < 32)); split.
  - by intros [= <-].
  - by intros [_ ->].
  - done.
  - by intros [? _].
Qed.

(** A keymap event leaves the queue of keys and the context alone. *)
Lemma handle_kb_keymap_queue (format : Z) (ans : keymap_answer) (kb kb' : cv_wl_keyboard) :
  handle_kb_keymap format ans kb = Ok kb' →
  key_queue_ kb' = key_queue_ kb ∧ ctx (xkb_ kb') = ctx (xkb_ kb).
Proof.
  unfold handle_kb_keymap.
  destruct (decide (format ≠ WL_KEYBOARD_KEYMAP_FORMAT_XKB_V1)); [by intros [= <-]|].
  destruct (mmap_ok ans); cbn [negb]; [|by intros [= <-]].
  destruct (new_keymap ans) as [km|]; [|by intros [= <-]].
  destruct (new_state ans) as [st|]; [|by intros [= <-]].
  destruct (shift_one (control_index ans)); [|done..].
  destruct (shift_one (alt_index ans)); [|done..].
  destruct (shift_one (shift_index ans)); [|done..].
  by intros [= <-].
Qed.

(** C8.  After a keymap event that fails (format not recognised, no
    keymap compiled, no state created) the handler returns and a new
    keyboard has no state and an empty queue.  The release of a key then hands the missing state
    to the layout library: either that call does not return, or the code
    it yields is queued and the next [get_key] returns it, a value from
    0 to 255 and not -1.  The event is inert in neither case. *)
Theorem key_release_after_failed_keymap sym (c : ptr) (format : Z) (ans : keymap_answer)
    (key : Z) :
  format ≠ WL_KEYBOARD_KEYMAP_FORMAT_XKB_V1 ∨ new_keymap ans = None ∨ new_state ans = None →
  ∃ kb, handle_kb_keymap format ans (new_keyboard c) = Ok kb ∧
  state (xkb_ kb) = None ∧ key_queue_ kb = [] ∧
  (handle_kb_key sym key WL_KEYBOARD_KEY_STATE_RELEASED kb = Fault ∨
   ∃ kb', handle_kb_key sym key WL_KEYBOARD_KEY_STATE_RELEASED kb = Ok kb' ∧
          key_queue_ kb' ≠ [] ∧ 0 ≤ (get_key kb').1 < 256).
Proof.
  intros Hfail.
  destruct (handle_kb_keymap_failure c format ans Hfail) as (kb & Hrun & Hstate & Hqueue).
  exists kb. split_and!; [done..|].
  unfold handle_kb_key. rewrite decide_True by done. rewrite Hstate.
  destruct (sym None (xkb_keycode_from_raw_keycode key)) as [keysym|]; [right|by left].
  eexists. split; [done|]. rewrite Hqueue. simpl. split; [done|].
  apply xkb_keysym_to_ascii_range.
Qed.

(** A keymap event of format 0, then the release of raw key 30. *)
Lemma key_release_after_failed_keymap_sample :
  ∃ kb, handle_kb_keymap 0 keymap_fine (new_keyboard 100) = Ok kb ∧
  state (xkb_ kb) = None ∧ key_queue_ kb = [] ∧
  (handle_kb_key sample_layout 30 WL_KEYBOARD_KEY_STATE_RELEASED kb = Fault ∨
   ∃ kb', handle_kb_key sample_layout 30 WL_KEYBOARD_KEY_STATE_RELEASED kb = Ok kb' ∧
          key_queue_ kb' ≠ [] ∧ 0 ≤ (get_key kb').1 < 256).
Proof.
  apply (key_release_after_failed_keymap sample_layout 100 0 keymap_fine 30).
  left. discriminate.
Defined.

(** With a library that does not return on a missing state the release
    is a fault; with one that answers [XKB_KEY_NoSymbol] the poll that
    follows returns 0. *)
Example release_without_state_faults :
  handle_kb_keymap 0 keymap_fine (new_keyboard 100) = Ok (new_keyboard 100) ∧
  handle_kb_key sample_layout 30 WL_KEYBOARD_KEY_STATE_RELEASED (new_keyboard 100) = Fault.
Proof. by split. Qed.

Example release_without_state_delivers :
  ∃ kb, handle_kb_keymap 1 keymap_no_state (new_keyboard 100) = Ok kb ∧
        (get_key <$> handle_kb_key lenient_layout 30 WL_KEYBOARD_KEY_STATE_RELEASED kb)
        = Ok (0, kb).
Proof. eexists. split; reflexivity. Qed.

(** The same through the dispatch and [cvWaitKey]: the wait for a key
    faults, or returns the key 0 to its caller. *)
Example wait_after_failed_keymap_faults :
  (cvWaitKey sample_layout [answers_bad_keymap] 0 fresh_world).1 = Fault.
Proof. reflexivity. Qed.

Example wait_after_failed_keymap_delivers :
  (cvWaitKey lenient_layout [answers_bad_keymap] 0 fresh_world).1 = Ok 0.
Proof. reflexivity. Qed.

(** Through the dispatch, presses queue nothing and releases queue their
    codes in order. *)
Example dispatch_queues_releases :
  queued_keys (deliver_all sample_layout
                 [ev_kb_key 30 WL_KEYBOARD_KEY_STATE_PRESSED;
                  ev_kb_key 30 WL_KEYBOARD_KEY_STATE_RELEASED;
                  ev_kb_key 48 WL_KEYBOARD_KEY_STATE_PRESSED;
                  ev_kb_key 48 WL_KEYBOARD_KEY_STATE_RELEASED] sample_world).2
  = Some [97; 115].
Proof. reflexivity. Qed.

(** ** Relations every step keeps *)

Section Stable.

Context (R : relation world) `{!PreOrder R}.

Lemma stable_same {A} (m : M A) : (∀ w, (m w).2 = w) → stable R m.
Proof. intros Hm w. by rewrite Hm. Qed.

Lemma stable_bind {A B} (m : M A) (f : A → M B) :
  stable R m → (∀ a, stable R (f a)) → stable R (m ≫= f).
Proof.
  intros Hm Hf w. unfold mbind, M_bind. specialize (Hm w).
  destruct (m w) as [[a| | |] w']; simpl in *; [|done..].
  etrans; [exact Hm|apply Hf].
Qed.

Lemma stable_ret {A} (a : A) : stable R (mret a).
Proof. by apply stable_same. Qed.

Lemma stable_skip : stable R skip.
Proof. by apply stable_same. Qed.

Lemma stable_throw {A} msg : stable R (@throw A msg).
Proof. by apply stable_same. Qed.

Lemma stable_fault {A} : stable R (@fault A).
Proof. by apply stable_same. Qed.

Lemma stable_pending {A} : stable R (@pending A).
Proof. by apply stable_same. Qed.

Lemma stable_lift {A} (r : result A) : stable R (lift r).
Proof. by apply stable_same. Qed.

Lemma stable_gets {A} (f : world → A) : stable R (gets f).
Proof. by apply stable_same. Qed.

Lemma stable_deref this : stable R (deref this).
Proof. apply stable_same. intros w. unfold deref. by destruct (heap w !! this). Qed.

Lemma stable_the_mouse : stable R the_mouse.
Proof.
  apply stable_same. intros w. unfold the_mouse.
  destruct (the_input w) as [inp|]; [|done]. by destruct (mouse_ inp).
Qed.

Lemma stable_input : stable R input.
Proof. apply stable_same. intros w. unfold input. by destruct (the_input w). Qed.

Lemma stable_get_window nm : stable R (get_window nm).
Proof.
  apply stable_same. intros w. unfold get_window.
  by destruct (windows_ (g_core w) !! nm).
Qed.

Lemma stable_modify (f : world → world) : (∀ w, R w (f w)) → stable R (modify f).
Proof. intros Hf w. apply Hf. Qed.

End Stable.

(** Decomposes a goal [stable R m] along the structure of [m]. *)
Ltac stable_leaf lem := apply lem; try apply _.

Ltac stable_step :=
  lazymatch goal with
  | |- stable _ (mbind _ _) => apply stable_bind; [apply _| |intros ?]
  | |- stable _ (mret _) => stable_leaf stable_ret
  | |- stable _ skip => stable_leaf stable_skip
  | |- stable _ (throw _) => stable_leaf stable_throw
  | |- stable _ fault => stable_leaf stable_fault
  | |- stable _ pending => stable_leaf stable_pending
  | |- stable _ (lift _) => stable_leaf stable_lift
  | |- stable _ (gets _) => stable_leaf stable_gets
  | |- stable _ (deref _) => stable_leaf stable_deref
  | |- stable _ the_mouse => stable_leaf stable_the_mouse
  | |- stable _ input => stable_leaf stable_input
  | |- stable _ (get_window _) => stable_leaf stable_get_window
  | |- stable _ (if ?c then _ else _) => destruct c
  | |- stable _ (match ?c with _ => _ end) => destruct c
  | |- stable _ (let '(_, _) := ?c in _) => destruct c
  end.

#[global] Instance log_adds_preorder P : PreOrder (log_adds P).
Proof.
  split.
  - intros w. exists []. by rewrite app_nil_r.
  - intros w1 w2 w3 (a1 & H1 & HP1) (a2 & H2 & HP2).
    exists (a1 ++ a2). split; [by rewrite H2, H1, app_assoc|by apply Forall_app].
Qed.

Lemma log_adds_same P (f : world → world) :
  (∀ w, io_log (f w) = io_log w) → ∀ w, log_adds P w (f w).
Proof. intros Hf w. exists []. by rewrite Hf, app_nil_r. Qed.

Lemma stable_log P a : P a → stable (log_adds P) (log a).
Proof. intros Ha w. exists [a]. split; [done|]. by constructor. Qed.

Lemma stable_log_modify P (f : world → world) :
  (∀ w, io_log (f w) = io_log w) → stable (log_adds P) (modify f).
Proof. intros Hf. apply stable_modify, log_adds_same, Hf. Qed.

Lemma stable_log_assign P this win : stable (log_adds P) (assign this win).
Proof. by apply stable_log_modify. Qed.

Lemma stable_log_on_window P this method : stable (log_adds P) (on_window this method).
Proof.
  unfold on_window. repeat (stable_step || apply stable_log_assign).
  by apply stable_log_modify.
Qed.

Lemma stable_log_set_mouse P m : stable (log_adds P) (set_mouse m).
Proof.
  apply stable_log_modify. intros w. by destruct (the_input w).
Qed.

Lemma stable_log_on_buffer P this i method : stable (log_adds P) (on_buffer this i method).
Proof. unfold on_buffer. repeat (stable_step || apply stable_log_assign). Qed.

Lemma stable_log_on_keyboard P handler : stable (log_adds P) (on_keyboard handler).
Proof.
  intros w. unfold on_keyboard.
  destruct (the_input w) as [inp|]; [|reflexivity].
  destruct (keyboard_ inp) as [kb|]; [|reflexivity].
  destruct (handler kb); try reflexivity. by apply log_adds_same.
Qed.

Create HintDb stable.

#[global] Hint Resolve stable_log_assign stable_log_on_window stable_log_on_buffer
  stable_log_on_keyboard stable_log_set_mouse stable_log stable_log_modify : stable.

Ltac stable_log := repeat first [ stable_step | solve [eauto with stable] ].

Lemma stable_log_deliver P sym e : stable (log_adds P) (deliver sym e).
Proof.
  destruct e; unfold deliver, handle_pointer_enter, handle_pointer_leave,
    handle_pointer_motion, handle_pointer_button, handle_buffer_release; stable_log.
Qed.

Lemma stable_log_deliver_all P sym evs : stable (log_adds P) (deliver_all sym evs).
Proof.
  induction evs as [|e evs IH]; cbn [deliver_all]; stable_log.
  apply stable_log_deliver.
Qed.

#[global] Hint Resolve stable_log_deliver_all : stable.

Lemma deliver_all_log sym evs w : io_log (deliver_all sym evs w).2 = io_log w.
Proof.
  destruct (stable_log_deliver_all (fun _ => False) sym evs w) as (added & Hlog & Hnone).
  destruct added as [|a ?]; [by rewrite app_nil_r in Hlog|].
  by apply Forall_cons in Hnone as [[] _].
Qed.

Lemma bind_run {A B} (m : M A) (f : A → M B) (w w' : world) (a : A) :
  m w = (Ok a, w') → (m ≫= f) w = f a w'.
Proof. intros Hm. unfold mbind, M_bind. by rewrite Hm. Qed.

Lemma bind_log_prefix {A B} P (m : M A) (k : A → M B) (w : world) (pre : list io_action) :
  io_log (m w).2 = io_log w ++ pre →
  (∀ a, stable (log_adds P) (k a)) →
  ∃ rest, io_log ((m ≫= k) w).2 = io_log w ++ pre ++ rest.
Proof.
  intros Hm Hk. unfold mbind, M_bind.
  destruct (m w) as [[a| | |] w'] eqn:Hmw; simpl in *;
    try (exists []; by rewrite app_nil_r).
  destruct (Hk a w') as (rest & Hrest & _).
  exists rest. by rewrite Hrest, Hm, app_assoc.
Qed.

(** *** The readiness multiplexer *)

Lemma epoll_fill_length (written buf : list epoll_event) :
  length (epoll_fill written buf) = length buf.
Proof. unfold epoll_fill. rewrite length_app, length_take, length_drop. lia. Qed.

(** C6.  [epoller::wait] returns the vector it allocated, whole: when
    [epoll_wait] does not fail the result has [max_events] entries, the
    events that fired followed by zeroed ones, whatever the timeout and
    however many events fired.  It is never empty for the default 16,
    and [epoller::wait] throws when [epoll_wait] fails. *)
Theorem epoller_wait_whole_vector (ans : epoll_answer) (timeout : Z) (max_events : nat)
    (w : world) :
  match (epoller_wait ans timeout max_events w).1 with
  | Ok evs => length evs = max_events ∧ 0 ≤ event_num ans
  | Throw _ => event_num ans < 0
  | Fault | Pending => False
  end.
Proof.
  unfold epoller_wait. cbn.
  destruct (decide (event_num ans < 0)); cbn; [done|].
  split; [|lia]. by rewrite epoll_fill_length, length_replicate.
Qed.

(** A wait of 0 ms on which nothing fires returns 16 zeroed events. *)
Example epoller_wait_timeout :
  (epoller_wait {| event_num := 0; fired := [] |} 0 default_max_events sample_world).1
  = Ok (replicate 16 zero_event).
Proof. reflexivity. Qed.

(** *** [run_once] *)

Lemma stable_log_epoller_ctl P ret op fd evs :
  (∀ epfd, P (io_epoll_ctl epfd op fd evs)) →
  stable (log_adds P) (epoller_ctl ret op fd evs).
Proof. intros HP. unfold epoller_ctl. stable_log. Qed.

Lemma stable_log_epoller_wait P ans timeout n :
  (∀ epfd, P (io_epoll_wait epfd timeout n)) →
  stable (log_adds P) (epoller_wait ans timeout n).
Proof. intros HP. unfold epoller_wait. stable_log. Qed.

Lemma stable_log_dispatch P sym evs :
  P io_dispatch → stable (log_adds P) (dispatch sym evs).
Proof. intros HP. unfold dispatch. stable_log. Qed.

Lemma stable_log_dispatch_pending P sym evs :
  P io_dispatch_pending → stable (log_adds P) (dispatch_pending sym evs).
Proof. intros HP. unfold dispatch_pending. stable_log. Qed.

Lemma stable_log_roundtrip P sym evs :
  P io_roundtrip → stable (log_adds P) (roundtrip sym evs).
Proof. intros HP. unfold roundtrip. stable_log. Qed.

Lemma stable_log_flush P ans : P io_flush → stable (log_adds P) (flush ans).
Proof. intros HP. unfold flush. stable_log. Qed.

#[global] Hint Resolve stable_log_epoller_ctl stable_log_epoller_wait stable_log_dispatch
  stable_log_dispatch_pending stable_log_roundtrip stable_log_flush : stable.

Lemma waits_with_other t a :
  (∀ epfd timeout n, a ≠ io_epoll_wait epfd timeout n) → waits_with t a.
Proof. intros Hne epfd timeout n Ha. by destruct (Hne epfd timeout n). Qed.

Lemma waits_with_same t epfd n : waits_with t (io_epoll_wait epfd t n).
Proof. by intros e timeout m [= _ -> _]. Qed.

#[global] Hint Resolve waits_with_same : stable.
#[global] Hint Extern 1 (waits_with _ _) => (apply waits_with_other; done) : stable.

Lemma stable_run_once_wait sym ans timeout :
  stable (log_adds (waits_with timeout)) (run_once_wait sym ans timeout).
Proof. unfold run_once_wait, epoller_modify. stable_log. Qed.

Lemma stable_run_once sym ans timeout :
  stable (log_adds (waits_with timeout)) (run_once sym ans timeout).
Proof.
  unfold run_once, epoller_modify. stable_log; apply stable_run_once_wait.
Qed.

Lemma flush_run (ans : flush_answer) (w : world) :
  flush ans w = (Ok (flush_ret ans), set_io_log (io_log w ++ [io_flush]) w).
Proof. reflexivity. Qed.

Lemma gets_run {A} (f : world → A) (w : world) : gets f w = (Ok (f w), w).
Proof. reflexivity. Qed.

Lemma epoller_modify_run (ret fd evs : Z) (w : world) :
  0 ≤ ret →
  epoller_modify ret fd evs w
  = (Ok (), set_io_log (io_log w ++ [io_epoll_ctl (the_epfd w) EPOLL_CTL_MOD fd evs]) w).
Proof.
  intros Hret. unfold epoller_modify, epoller_ctl.
  rewrite (bind_run _ _ _ _ _ (gets_run _ _)).
  unfold mbind, M_bind. cbn [log modify]. by rewrite decide_False by lia.
Qed.

Lemma run_once_wait_log sym ans timeout w :
  ∃ rest, io_log (run_once_wait sym ans timeout w).2
          = io_log w ++ [io_epoll_wait (the_epfd w) timeout default_max_events] ++ rest.
Proof.
  unfold run_once_wait.
  apply (bind_log_prefix (waits_with timeout)).
  - unfold epoller_wait. cbn. by destruct (decide (event_num (waited ans) < 0)).
  - intros evs. unfold epoller_modify. stable_log.
Qed.

(** C7.  Let the dispatch of the pending events return and the flush
    fail.  With [errno = EAGAIN] and [epoll_ctl] accepting the change,
    [run_once] asks for read, write, error and hang-up interest on the
    descriptor of the display, write interest included, and then waits
    with the timeout it was given.  With any other [errno] it returns 0
    and has asked for nothing after the flush: no wait is made and
    nothing is thrown. *)
Theorem run_once_failed_flush sym (ans : run_once_answers) (timeout : Z) (w w1 : world) :
  dispatch_pending sym (pending_events ans) w = (Ok (), w1) →
  flush_ret (flush1 ans) < 0 →
  let fd := display_fd (display_ (g_core w1)) in
  let epfd := the_epfd w1 in
  let interest := Z.lor (Z.lor (Z.lor EPOLLIN EPOLLOUT) EPOLLERR) EPOLLHUP in
  io_log w1 = io_log w ++ [io_dispatch_pending] ∧
  (flush_errno (flush1 ans) = EAGAIN → 0 ≤ ctl1 ans →
     Z.land interest EPOLLOUT = EPOLLOUT ∧
     ∃ rest, io_log (run_once sym ans timeout w).2
             = io_log w1 ++ [io_flush;
                             io_epoll_ctl epfd EPOLL_CTL_MOD fd interest;
                             io_epoll_wait epfd timeout default_max_events] ++ rest) ∧
  (flush_errno (flush1 ans) ≠ EAGAIN →
     run_once sym ans timeout w = (Ok 0, set_io_log (io_log w1 ++ [io_flush]) w1)).
Proof.
  intros Hpending Hret fd epfd interest. split_and!.
  - unfold dispatch_pending in Hpending.
    pose proof (deliver_all_log sym (pending_events ans)
                  (set_io_log (io_log w ++ [io_dispatch_pending]) w)) as Hlog.
    change ((log io_dispatch_pending ≫= λ _, deliver_all sym (pending_events ans)) w)
      with (deliver_all sym (pending_events ans)
              (set_io_log (io_log w ++ [io_dispatch_pending]) w)) in Hpending.
    by rewrite Hpending in Hlog.
  - intros Herrno Hctl. split; [done|].
    unfold run_once. rewrite (bind_run _ _ _ _ _ Hpending).
    rewrite (bind_run _ _ _ _ _ (flush_run _ _)).
    rewrite decide_True by done.
    rewrite (bind_run _ _ _ _ _ (gets_run _ _)).
    rewrite (bind_run _ _ _ _ _ (epoller_modify_run _ _ _ _ Hctl)).
    match goal with |- context [run_once_wait sym ans timeout ?w2] =>
      destruct (run_once_wait_log sym ans timeout w2) as (rest & ->) end.
    exists rest. cbn. by rewrite <- !app_assoc.
  - intros Herrno. unfold run_once. rewrite (bind_run _ _ _ _ _ Hpending).
    rewrite (bind_run _ _ _ _ _ (flush_run _ _)).
    rewrite decide_False by tauto.
    by rewrite decide_True.
Qed.

(** On the sample world, with a flush that would block. *)
Lemma run_once_failed_flush_stalled :
  ∃ rest, io_log (run_once sample_layout answers_stalled 250 sample_world).2
          = [io_dispatch_pending] ++
            [io_flush; io_epoll_ctl 3 EPOLL_CTL_MOD 4 29; io_epoll_wait 3 250 16] ++ rest.
Proof.
  destruct (run_once_failed_flush sample_layout answers_stalled 250 sample_world
              (set_io_log [io_dispatch_pending] sample_world) eq_refl)
    as (_ & Hstall & _); [simpl; lia|].
  destruct (Hstall eq_refl) as (_ & rest & Hrest); [simpl; lia|].
  exists rest. exact Hrest.
Defined.

Example run_once_stalled :
  run_once sample_layout answers_stalled 250 sample_world
  = (Ok 4, set_io_log [io_dispatch_pending; io_flush; io_epoll_ctl 3 EPOLL_CTL_MOD 4 29;
                       io_epoll_wait 3 250 16; io_flush;
                       io_epoll_ctl 3 EPOLL_CTL_MOD 4 25] sample_world).
Proof. reflexivity. Qed.

(** When the wait times out [run_once] returns 0: the first of the 16
    zeroed events has no bit set. *)
Example run_once_timeout :
  run_once sample_layout answers_timeout 250 sample_world
  = (Ok 0, set_io_log [io_dispatch_pending; io_flush; io_epoll_wait 3 250 16]
             sample_world).
Proof. reflexivity. Qed.

Example run_once_broken :
  run_once sample_layout answers_broken 250 sample_world
  = (Ok 0, set_io_log [io_dispatch_pending; io_flush] sample_world).
Proof. reflexivity. Qed.

(** *** [cvWaitKey] *)

Lemma stable_poll_key P : stable (log_adds P) poll_key.
Proof.
  unfold poll_key. stable_log.
Qed.

Lemma stable_cvWaitKey sym answers delay :
  stable (log_adds (waits_with (if decide (delay > 0) then delay else -1)))
    (cvWaitKey sym answers delay).
Proof.
  induction answers as [|ans answers IH]; cbn [cvWaitKey]; stable_log;
    first [apply stable_run_once | apply stable_poll_key].
Qed.

Lemma cvWaitKey_key sym answers delay w key :
  (cvWaitKey sym answers delay w).1 = Ok key → 0 ≤ key.
Proof.
  revert w. induction answers as [|ans answers IH]; intros w; cbn [cvWaitKey].
  - discriminate.
  - unfold mbind at 1, M_bind at 1.
    destruct (run_once _ _ _ w) as [[evs| | |] w1]; try discriminate.
    destruct (decide (Z.land evs EPOLLIN ≠ 0)); [|apply IH].
    unfold mbind at 1, M_bind at 1.
    destruct (poll_key w1) as [[k| | |] w2]; try discriminate.
    destruct (decide (k >= 0)); [|apply IH].
    cbn. intros [= ->]. lia.
Qed.

Lemma cvWaitKey_returns sym ans answers delay w w1 w2 evs key :
  run_once sym ans (if decide (delay > 0) then delay else -1) w = (Ok evs, w1) →
  Z.land evs EPOLLIN ≠ 0 →
  poll_key w1 = (Ok key, w2) →
  0 ≤ key →
  cvWaitKey sym (ans :: answers) delay w = (Ok key, w2).
Proof.
  intros Hrun Hin Hpoll Hkey. cbn [cvWaitKey].
  rewrite (bind_run _ _ _ _ _ Hrun). rewrite decide_True by done.
  rewrite (bind_run _ _ _ _ _ Hpoll). by rewrite decide_True by lia.
Qed.

Lemma cvWaitKey_waits sym delay w : cvWaitKey sym [] delay w = (Pending, w).
Proof. reflexivity. Qed.

Lemma dispatch_pending_log sym evs (w w1 : world) :
  dispatch_pending sym evs w = (Ok (), w1) →
  io_log w1 = io_log w ++ [io_dispatch_pending].
Proof.
  unfold dispatch_pending. intros Hrun.
  pose proof (deliver_all_log sym evs (set_io_log (io_log w ++ [io_dispatch_pending]) w))
    as Hlog.
  change ((log io_dispatch_pending ≫= λ _, deliver_all sym evs) w)
    with (deliver_all sym evs (set_io_log (io_log w ++ [io_dispatch_pending]) w)) in Hrun.
  by rewrite Hrun in Hlog.
Qed.

(** When the flush does not fail, [run_once] waits with the timeout it
    was given. *)
Lemma run_once_log sym (ans : run_once_answers) (timeout : Z) (w w1 : world) :
  dispatch_pending sym (pending_events ans) w = (Ok (), w1) →
  0 ≤ flush_ret (flush1 ans) →
  ∃ rest, io_log (run_once sym ans timeout w).2
          = io_log w ++ [io_dispatch_pending; io_flush;
                         io_epoll_wait (the_epfd w1) timeout default_max_events] ++ rest.
Proof.
  intros Hpending Hflush. unfold run_once.
  rewrite (bind_run _ _ _ _ _ Hpending).
  rewrite (bind_run _ _ _ _ _ (flush_run _ _)).
  rewrite decide_False by lia. rewrite decide_False by lia.
  match goal with |- context [run_once_wait sym ans timeout ?w2] =>
    destruct (run_once_wait_log sym ans timeout w2) as (rest & ->) end.
  exists rest. cbn [io_log set_io_log]. rewrite (dispatch_pending_log _ _ _ _ Hpending).
  by rewrite <- !app_assoc.
Qed.

(** C9, amended.  One turn of the loop of [cvWaitKey] calls [run_once]
    with the timeout [delay] when [delay] is positive, which bounds the
    step by [delay] milliseconds, and with -1 when [delay] is zero or
    negative, which blocks the step indefinitely.  The wait is made:
    when the pending events are dispatched and the flush does not fail,
    the requests of the call start with that dispatch, the flush and an
    [epoll_wait] with this timeout; and every wait the call makes has
    this timeout.  When [run_once] reports no readable descriptor the
    loop goes on.  When it reports one the keyboard is polled: a key of
    at least 0 ends the loop and is returned, the value -1 of an empty
    queue makes the loop go on.  So what [cvWaitKey] returns is a key
    code or none. *)
Theorem cvWaitKey_steps sym (ans : run_once_answers) (answers : list run_once_answers)
    (delay : Z) (w : world) :
  let timeout := if decide (delay > 0) then delay else -1 in
  blocks timeout = (if decide (delay > 0) then AtMost delay else Indefinite) ∧
  (∀ w1, dispatch_pending sym (pending_events ans) w = (Ok (), w1) →
         0 ≤ flush_ret (flush1 ans) →
     ∃ rest, io_log (cvWaitKey sym (ans :: answers) delay w).2
             = io_log w ++ [io_dispatch_pending; io_flush;
                            io_epoll_wait (the_epfd w1) timeout default_max_events]
                       ++ rest) ∧
  (∃ added, io_log (cvWaitKey sym (ans :: answers) delay w).2 = io_log w ++ added ∧
            Forall (waits_with timeout) added) ∧
  (∀ evs w1, run_once sym ans timeout w = (Ok evs, w1) →
     (Z.land evs EPOLLIN = 0 →
        cvWaitKey sym (ans :: answers) delay w = cvWaitKey sym answers delay w1) ∧
     (Z.land evs EPOLLIN ≠ 0 → ∀ key w2, poll_key w1 = (Ok key, w2) →
        (0 ≤ key → cvWaitKey sym (ans :: answers) delay w = (Ok key, w2)) ∧
        (key < 0 →
           cvWaitKey sym (ans :: answers) delay w = cvWaitKey sym answers delay w2))) ∧
  (∀ key, (cvWaitKey sym (ans :: answers) delay w).1 = Ok key → key_code_or_none key).
Proof.
  intros timeout. split_and!.
  - unfold timeout, blocks. destruct (decide (delay > 0)).
    + rewrite decide_False by lia. by rewrite decide_False by lia.
    + by rewrite decide_True.
  - intros w1 Hpending Hflush.
    destruct (run_once_log sym ans timeout w w1 Hpending Hflush) as (rest1 & Hrun).
    cbn [cvWaitKey]. fold timeout.
    destruct (bind_log_prefix (waits_with timeout) (run_once sym ans timeout)
                (fun evs =>
                   if decide (Z.land evs EPOLLIN ≠ 0) then
                     key ← poll_key;
                     if decide (key >= 0) then mret key else cvWaitKey sym answers delay
                   else cvWaitKey sym answers delay) w _ Hrun) as (rest2 & Hlog).
    + intros evs. stable_log; first [apply stable_poll_key | apply stable_cvWaitKey].
    + exists (rest1 ++ rest2). rewrite Hlog. by rewrite <- !app_assoc.
  - apply stable_cvWaitKey.
  - intros evs w1 Hrun. cbn [cvWaitKey]. fold timeout.
    rewrite (bind_run _ _ _ _ _ Hrun). split.
    + intros Hin. by rewrite decide_False by (by intros ?).
    + intros Hin key w2 Hpoll. rewrite decide_True by done.
      rewrite (bind_run _ _ _ _ _ Hpoll). split; intros Hkey.
      * by rewrite decide_True by lia.
      * by rewrite decide_False by lia.
  - intros key Hkey. right. by eapply cvWaitKey_key.
Qed.

(** With delay -5: a wait that wakes up with nothing, then the release
    of raw key 30. *)
Example cvWaitKey_negative_delay :
  cvWaitKey sample_layout [answers_timeout; answers_key 30] (-5) sample_world
  = (Ok 97,
     set_io_log [io_dispatch_pending; io_flush; io_epoll_wait 3 (-1) 16;
                 io_dispatch_pending; io_flush; io_epoll_wait 3 (-1) 16; io_dispatch]
       sample_world).
Proof. reflexivity. Qed.

(** C9 as stated fails: with a negative delay the waits do not have the
    timeout 0 that would make them return at once. *)
Lemma cvWaitKey_negative_delay_blocks :
  ¬ Forall (fun a => ∀ epfd timeout n, a = io_epoll_wait epfd timeout n →
                     blocks timeout = NoBlock)
      (io_log (cvWaitKey sample_layout [answers_timeout; answers_key 30] (-5)
                 sample_world).2).
Proof.
  rewrite cvWaitKey_negative_delay. cbn [snd set_io_log io_log].
  intros Hall. apply Forall_cons in Hall as [_ Hall]. apply Forall_cons in Hall as [_ Hall].
  apply Forall_cons in Hall as [Hwait _].
  specialize (Hwait 3 (-1) 16%nat eq_refl). discriminate.
Qed.

(** ** The registry *)

(** Runs the binds of an action applied to a state. *)
Ltac run_M :=
  unfold mbind, M_bind, mret, M_ret, assign, log, modify, gets, skip, throw, fault,
    pending, lift;
  cbn -[bool_decide].

Lemma create_window_maps (p : ptr) (nm : string) (flags : Z) (w : world) :
  let w1 := (create_window p nm flags w).2 in
  handles_ (g_core w1) = <[p := nm]> (handles_ (g_core w)) ∧
  windows_ (g_core w1)
  = (if windows_ (g_core w) !! nm is Some _ then windows_ (g_core w)
     else <[nm := p]> (windows_ (g_core w))) ∧
  heap w1 = (if windows_ (g_core w) !! nm is Some _ then delete p (<[p := new_window nm default_width default_height flags]> (heap w))
             else <[p := new_window nm default_width default_height flags]> (heap w)).
Proof.
  unfold create_window. run_M.
  destruct (windows_ (g_core w) !! nm) as [q|] eqn:Hnm.
  - rewrite bool_decide_eq_false_2 by done. done.
  - rewrite bool_decide_eq_true_2 by done. done.
Qed.

Lemma destroy_window_maps (nm : string) (w : world) :
  let w2 := (destroy_window nm w).2 in
  handles_ (g_core w2) = handles_ (g_core w) ∧
  windows_ (g_core w2) = delete nm (windows_ (g_core w)) ∧
  heap w2 = (if windows_ (g_core w) !! nm is Some p then delete p (heap w) else heap w).
Proof.
  unfold destroy_window. run_M.
  destruct (windows_ (g_core w) !! nm) as [q|] eqn:Hnm; cbn; [done|].
  split_and!; try done. symmetry. by apply delete_id.
Qed.

Lemma destroy_all_windows_maps (w : world) :
  let w3 := (destroy_all_windows w).2 in
  handles_ (g_core w3) = handles_ (g_core w) ∧ windows_ (g_core w3) = ∅.
Proof. done. Qed.

(** C4.  Let [p] be an address no window of the registry has.  After
    [create_window] of a window at [p] under [nm] the handle map sends
    [p] to [nm].  [destroy_window nm] then removes [nm] from the name
    map and frees the window, but the handle map still sends [p] to
    [nm]: the registry is not consistent.  The same holds after
    [destroy_all_windows]. *)
Theorem destroy_window_keeps_handle (p : ptr) (nm : string) (flags : Z) (w : world) :
  (∀ nm', windows_ (g_core w) !! nm' ≠ Some p) →
  let w1 := (create_window p nm flags w).2 in
  let w2 := (destroy_window nm w1).2 in
  let w3 := (destroy_all_windows w1).2 in
  (create_window p nm flags w).1 = Ok (bool_decide (windows_ (g_core w) !! nm = None)) ∧
  handles_ (g_core w1) !! p = Some nm ∧
  windows_ (g_core w2) !! nm = None ∧
  handles_ (g_core w2) !! p = Some nm ∧
  heap w2 !! p = None ∧
  ¬ registry_consistent (g_core w2) ∧
  windows_ (g_core w3) = ∅ ∧
  handles_ (g_core w3) !! p = Some nm ∧
  ¬ registry_consistent (g_core w3).
Proof.
  intros Hfresh w1 w2 w3.
  destruct (create_window_maps p nm flags w) as (Hh1 & Hw1 & Hheap1).
  destruct (destroy_window_maps nm w1) as (Hh2 & Hw2 & Hheap2).
  destruct (destroy_all_windows_maps w1) as (Hh3 & Hw3).
  fold w1 in Hh1, Hw1, Hheap1. fold w2 in Hh2, Hw2, Hheap2. fold w3 in Hh3, Hw3.
  assert (Hp1 : handles_ (g_core w1) !! p = Some nm)
    by (rewrite Hh1; apply lookup_insert_eq).
  assert (Hnone : ∀ nm', windows_ (g_core w2) !! nm' ≠ Some p).
  { intros nm'. rewrite Hw2, Hw1.
    destruct (decide (nm' = nm)) as [->|Hne]; [by rewrite lookup_delete_eq|].
    rewrite lookup_delete_ne by done.
    destruct (windows_ (g_core w) !! nm); [apply Hfresh|].
    rewrite lookup_insert_ne by done. apply Hfresh. }
  split_and!.
  - unfold create_window. run_M.
    by destruct (bool_decide (windows_ (g_core w) !! nm = None)).
  - done.
  - rewrite Hw2. apply lookup_delete_eq.
  - by rewrite Hh2.
  - rewrite Hheap2, Hw1, Hheap1.
    destruct (windows_ (g_core w) !! nm) as [q|] eqn:Hnm.
    + rewrite Hnm. destruct (decide (q = p)) as [->|Hne]; [apply lookup_delete_eq|].
      rewrite lookup_delete_ne by done. apply lookup_delete_eq.
    + rewrite lookup_insert_eq. apply lookup_delete_eq.
  - intros Hcons. destruct (proj1 (Hcons p)) as [nm' Hnm']; [by rewrite Hh2, Hp1|].
    by apply (Hnone nm').
  - done.
  - by rewrite Hh3.
  - intros Hcons. destruct (proj1 (Hcons p)) as [nm' Hnm']; [by rewrite Hh3, Hp1|].
    by rewrite Hw3, lookup_empty in Hnm'.
Qed.

(** On the sample world, a window made at 4096 as "a", then destroyed. *)
Lemma destroy_window_keeps_handle_sample :
  let w1 := (create_window 4096 "a" 0 sample_world).2 in
  let w2 := (destroy_window "a" w1).2 in
  windows_ (g_core w2) !! "a" = None ∧
  handles_ (g_core w2) !! 4096 = Some "a" ∧
  heap w2 !! 4096 = None ∧
  ¬ registry_consistent (g_core w2).
Proof.
  destruct (destroy_window_keeps_handle 4096 "a" 0 sample_world)
    as (_ & _ & Hw & Hh & Hheap & Hcons & _).
  - intros nm'. cbn. by rewrite lookup_empty.
  - split_and!; assumption.
Defined.

Example create_then_destroy :
  (create_window 4096 "a" 0;; destroy_window "a") sample_world
  = (Ok true,
     set_core {| display_ := sample_display; windows_ := ∅;
                 handles_ := {[ 4096 := "a" ]} |} sample_world).
Proof. by vm_compute. Qed.

(** C10.  For a handle the handle map does not know, [get_window_name]
    (and [cvGetWindowName]) returns the empty string without failing,
    and the handle map now sends that handle to the empty string; the
    other handles are as before. *)
Theorem get_window_name_unknown (handle : ptr) (w : world) :
  handles_ (g_core w) !! handle = None →
  get_window_name handle w
  = (Ok "", set_core (set_handles (<[handle := ""]> (handles_ (g_core w))) (g_core w)) w) ∧
  cvGetWindowName handle w = get_window_name handle w ∧
  handles_ (g_core (get_window_name handle w).2) !! handle = Some "" ∧
  ∀ other, other ≠ handle →
    handles_ (g_core (get_window_name handle w).2) !! other = handles_ (g_core w) !! other.
Proof.
  intros Hnone. unfold cvGetWindowName, get_window_name. rewrite Hnone. cbn.
  split_and!; try done.
  - apply lookup_insert_eq.
  - intros other Hne. by apply lookup_insert_ne.
Qed.

(** On the sample world, for the handle 4096. *)
Lemma get_window_name_unknown_sample :
  get_window_name 4096 sample_world
  = (Ok "", set_core {| display_ := sample_display; windows_ := ∅;
                        handles_ := <[4096 := ""]> ∅ |} sample_world).
Proof.
  destruct (get_window_name_unknown 4096 sample_world) as (Hname & _).
  - apply lookup_empty.
  - exact Hname.
Defined.

Lemma get_window_name_known (handle : ptr) (nm : string) (w : world) :
  handles_ (g_core w) !! handle = Some nm → get_window_name handle w = (Ok nm, w).
Proof. intros Hsome. unfold get_window_name. by rewrite Hsome. Qed.

(** ** Buffers across a dispatch *)

#[global] Instance buffer_kept_preorder : PreOrder buffer_kept.
Proof.
  split.
  - intros b. by repeat split.
  - intros b1 b2 b3 (? & ? & ? & ? & ? & ?) (? & ? & ? & ? & ? & ?).
    repeat split; try congruence. auto.
Qed.

#[global] Instance frames_kept_preorder : PreOrder frames_kept.
Proof.
  split.
  - intros win. by repeat split.
  - intros w1 w2 w3 (? & ? & ? & ?) (? & ? & ? & ?).
    split_and!; try congruence; by etrans.
Qed.

#[global] Instance heap_kept_preorder : PreOrder heap_kept.
Proof.
  split.
  - intros w this win Hwin. by exists win.
  - intros w1 w2 w3 H12 H23 this win Hwin.
    destruct (H12 this win Hwin) as (win2 & Hwin2 & Hk2).
    destruct (H23 this win2 Hwin2) as (win3 & Hwin3 & Hk3).
    exists win3. split; [done|by etrans].
Qed.

Lemma heap_kept_same (f : world → world) :
  (∀ w, heap (f w) = heap w) → ∀ w, heap_kept w (f w).
Proof. intros Hf w this win Hwin. exists win. by rewrite Hf. Qed.

Lemma stable_heap_modify (f : world → world) :
  (∀ w, heap (f w) = heap w) → stable heap_kept (modify f).
Proof. intros Hf. apply stable_modify, heap_kept_same, Hf. Qed.

Lemma stable_heap_log a : stable heap_kept (log a).
Proof. by apply stable_heap_modify. Qed.

Lemma stable_heap_set_mouse m : stable heap_kept (set_mouse m).
Proof. apply stable_heap_modify. intros w. by destruct (the_input w). Qed.

Lemma stable_heap_on_keyboard handler : stable heap_kept (on_keyboard handler).
Proof.
  intros w. unfold on_keyboard.
  destruct (the_input w) as [inp|]; [|reflexivity].
  destruct (keyboard_ inp) as [kb|]; [|reflexivity].
  destruct (handler kb); try reflexivity. by apply heap_kept_same.
Qed.

Lemma heap_kept_update (this : ptr) (win win' : cv_wl_window) (w w' : world) :
  heap w !! this = Some win → frames_kept win win' →
  heap w' = <[this := win']> (heap w) → heap_kept w w'.
Proof.
  intros Hwin Hkept Hheap that win0 Hwin0. rewrite Hheap.
  destruct (decide (that = this)) as [->|Hne].
  - exists win'. rewrite lookup_insert_eq. split; [done|]. congruence.
  - exists win0. by rewrite lookup_insert_ne.
Qed.

Lemma stable_heap_on_window this method :
  (∀ win, frames_kept win (method win).1) → stable heap_kept (on_window this method).
Proof.
  intros Hmethod w. unfold on_window, deref. run_M.
  destruct (heap w !! this) as [win|] eqn:Hwin; [|reflexivity].
  specialize (Hmethod win). destruct (method win) as [win' calls]. cbn.
  by eapply heap_kept_update.
Qed.

Lemma stable_heap_on_buffer this i method :
  (∀ b, buffer_kept b (method b)) → stable heap_kept (on_buffer this i method).
Proof.
  intros Hmethod w. unfold on_buffer, deref. run_M.
  destruct (heap w !! this) as [win|] eqn:Hwin; [|reflexivity]. cbn.
  eapply heap_kept_update; [done| |done].
  destruct i; split_and!; try done; apply Hmethod.
Qed.

Lemma frames_kept_on_mouse (m : on_mouse_t) (win : cv_wl_window) :
  frames_kept win (set_on_mouse m win).
Proof. by repeat split. Qed.

Lemma frames_kept_mouse_enter x y win : frames_kept win (mouse_enter x y win).1.
Proof. apply frames_kept_on_mouse. Qed.

Lemma frames_kept_mouse_leave win : frames_kept win (mouse_leave win).1.
Proof. reflexivity. Qed.

Lemma frames_kept_mouse_motion time x y win : frames_kept win (mouse_motion time x y win).1.
Proof. apply frames_kept_on_mouse. Qed.

Lemma frames_kept_mouse_button time btn st win :
  frames_kept win (mouse_button time btn st win).1.
Proof.
  unfold mouse_button.
  repeat match goal with |- context [decide ?P] => destruct (decide P) end;
    apply frames_kept_on_mouse.
Qed.

Lemma buffer_kept_release b : buffer_kept b (busy false b).
Proof. by repeat split. Qed.

#[global] Hint Resolve stable_heap_modify stable_heap_log stable_heap_set_mouse
  stable_heap_on_keyboard stable_heap_on_window stable_heap_on_buffer
  frames_kept_mouse_enter frames_kept_mouse_leave frames_kept_mouse_motion
  frames_kept_mouse_button buffer_kept_release : stable.

Lemma stable_heap_deliver sym e : stable heap_kept (deliver sym e).
Proof.
  destruct e; unfold deliver, handle_pointer_enter, handle_pointer_leave,
    handle_pointer_motion, handle_pointer_button, handle_buffer_release; stable_log.
Qed.

Lemma stable_heap_deliver_all sym evs : stable heap_kept (deliver_all sym evs).
Proof.
  induction evs as [|e evs IH]; cbn [deliver_all]; stable_log.
  apply stable_heap_deliver.
Qed.

Lemma stable_heap_roundtrip sym evs : stable heap_kept (roundtrip sym evs).
Proof. unfold roundtrip. stable_log. apply stable_heap_deliver_all. Qed.

(** ** [next_buffer] *)

Lemma bind_assoc_run {A B C} (m : M A) (f : A → M B) (g : B → M C) (w : world) :
  ((m ≫= f) ≫= g) w = (m ≫= λ a, f a ≫= g) w.
Proof. unfold mbind, M_bind. by destruct (m w) as [[a| | |] w']. Qed.

Lemma deref_run (this : ptr) (win : cv_wl_window) (w : world) :
  heap w !! this = Some win → deref this w = (Ok win, w).
Proof. intros Hwin. unfold deref. by rewrite Hwin. Qed.

Lemma get_set_buf (i : buf_idx) (b : cv_wl_buffer) (win : cv_wl_window) :
  get_buf i (set_buf i b win) = b.
Proof. by destruct i. Qed.

Lemma set_set_buf (i : buf_idx) (b b' : cv_wl_buffer) (win : cv_wl_window) :
  set_buf i b (set_buf i b' win) = set_buf i b win.
Proof. by destruct i. Qed.

Lemma on_buffer_run (this : ptr) (i : buf_idx) method (win : cv_wl_window) (w : world) :
  heap w !! this = Some win →
  on_buffer this i method w
  = (Ok (), set_heap (<[this := set_buf i (method (get_buf i win)) win]> (heap w)) w).
Proof.
  intros Hwin. unfold on_buffer. by rewrite (bind_run _ _ _ _ _ (deref_run _ _ _ Hwin)).
Qed.

(** Runs the next [on_buffer] of the goal on the window at [this]. *)
Ltac on_buffer_step :=
  erewrite bind_run;
    [|apply on_buffer_run; cbn [heap set_heap set_number]; apply lookup_insert_eq].

Lemma create_shm_run (ans : shm_answer) (this : ptr) (i : buf_idx) (wd ht format : Z)
    (win : cv_wl_window) (w : world) :
  heap w !! this = Some win →
  int_range (wd * 4) → int_range (wd * 4 * ht) →
  0 ≤ shm_open_fd ans → 0 ≤ ftruncate_ret ans → shm_mmap_ok ans = true →
  create_shm ans this i wd ht format w
  = (Ok 0,
     set_number (number_ w + 1)
       (set_heap
          (<[this := set_buf i {| buffer := true;
                                  shm_data := replicate (Z.to_nat (wd * 4 * ht / 4)) 0;
                                  busy_ := busy_ (get_buf i win);
                                  buf_width_ := wd; buf_height_ := ht;
                                  shm_path_ := "/opencv_wl_buffer-" +:+ pretty (number_ w) |}
                       win]> (heap w)) w)).
Proof.
  intros Hwin Hstride Hsize Hopen Htrunc Hmap. unfold create_shm.
  erewrite bind_run; [|unfold lift; by rewrite int_Ok].
  erewrite bind_run; [|unfold lift; by rewrite int_Ok].
  rewrite (bind_run _ _ _ _ _ (on_buffer_run _ _ _ _ _ Hwin)).
  on_buffer_step.
  rewrite (bind_run _ _ _ _ _ (gets_run _ _)).
  erewrite bind_run; [|reflexivity].
  on_buffer_step.
  rewrite decide_False by lia. rewrite decide_False by lia. rewrite Hmap. cbn [negb].
  on_buffer_step. on_buffer_step.
  unfold mret, M_ret, set_number, set_heap. cbn.
  rewrite !insert_insert_eq, !get_set_buf, !set_set_buf.
  do 4 f_equal. unfold destroy. by destruct (buffer (get_buf i win)).
Qed.

Lemma next_buffer_loop_first sym evs trips (this : ptr) (w w1 : world) (win : cv_wl_window) :
  heap w !! this = Some win →
  is_busy (get_buf Buf0 win) = false ∨ is_busy (get_buf Buf1 win) = false →
  roundtrip sym evs w = (Ok (), w1) →
  ∃ win1, heap w1 !! this = Some win1 ∧ frames_kept win win1 ∧
    is_busy (get_buf (if is_busy (get_buf Buf0 win1) then Buf1 else Buf0) win1) = false ∧
    next_buffer_loop sym (evs :: trips) this w
    = (Ok (if is_busy (get_buf Buf0 win1) then Buf1 else Buf0), w1).
Proof.
  intros Hwin Hfree Htrip.
  pose proof (stable_heap_roundtrip sym evs w) as Hkept. rewrite Htrip in Hkept.
  destruct (Hkept this win Hwin) as (win1 & Hwin1 & Hframes).
  exists win1. split; [done|]. split; [done|].
  destruct Hframes as (_ & _ & (_ & _ & _ & _ & _ & Hb0) & (_ & _ & _ & _ & _ & Hb1)).
  cbn [next_buffer_loop]. rewrite (bind_run _ _ _ _ _ Htrip).
  rewrite (bind_run _ _ _ _ _ (deref_run _ _ _ Hwin1)).
  unfold is_busy in *.
  destruct (busy_ (get_buf Buf0 win1)) eqn:H0; cbn [negb]; [|done].
  destruct (busy_ (get_buf Buf1 win1)) eqn:H1; cbn [negb]; [|done].
  destruct Hfree as [Hf|Hf]; [rewrite Hb0 in Hf|rewrite Hb1 in Hf]; done.
Qed.

(** Whenever the loop ends, the buffer it ends with is idle. *)
Lemma next_buffer_loop_free sym trips (this : ptr) (w w' : world) (i : buf_idx) :
  next_buffer_loop sym trips this w = (Ok i, w') →
  ∃ win', heap w' !! this = Some win' ∧ is_busy (get_buf i win') = false.
Proof.
  revert w. induction trips as [|evs trips IH]; intros w; cbn [next_buffer_loop].
  - discriminate.
  - unfold mbind at 1, M_bind at 1.
    destruct (roundtrip sym evs w) as [[[]| | |] w1]; try discriminate.
    unfold mbind at 1, M_bind at 1. unfold deref at 1.
    destruct (heap w1 !! this) as [win1|] eqn:Hwin1; [|discriminate].
    destruct (is_busy (get_buf Buf0 win1)) eqn:H0; cbn [negb].
    + destruct (is_busy (get_buf Buf1 win1)) eqn:H1; cbn [negb]; [apply IH|].
      intros [= <- <-]. by exists win1.
    + intros [= <- <-]. by exists win1.
Qed.

Lemma memset_fresh (wd ht : Z) :
  0 ≤ wd * ht →
  memset (replicate (Z.to_nat (wd * 4 * ht / 4)) 0) 255 (wd * ht * 4)
  = Ok (replicate (Z.to_nat (wd * ht)) 4294967295).
Proof.
  intros Hsize. replace (wd * 4 * ht) with (wd * ht * 4) by lia.
  unfold memset. rewrite Z.mod_mul, Z.div_mul by lia.
  rewrite decide_True by (rewrite length_replicate; lia).
  rewrite drop_ge by (rewrite length_replicate; lia).
  by rewrite app_nil_r.
Qed.

(** C3.  Let one of the two buffers of the window be idle when
    [next_buffer] is called, and let the first round trip return.  The
    round trip can release buffers, not make them busy.  After it the
    loop ends with buffer 0 if buffer 0 is idle and with buffer 1
    otherwise, and the buffer taken is idle.  If that buffer has a
    backing store of the size of the window, [next_buffer] returns it as
    it is.  If it has none, or one of another width or height, and the
    shared memory can be made, [next_buffer] returns it with a backing
    store of the size of the window (a size that fits [int]) in which
    every byte is 255. *)
Theorem next_buffer_picks_free sym evs trips (ans : shm_answer) (this : ptr)
    (w w1 : world) (win : cv_wl_window) :
  heap w !! this = Some win →
  is_busy (get_buf Buf0 win) = false ∨ is_busy (get_buf Buf1 win) = false →
  roundtrip sym evs w = (Ok (), w1) →
  ∃ win1, heap w1 !! this = Some win1 ∧ frames_kept win win1 ∧
    let i := if is_busy (get_buf Buf0 win1) then Buf1 else Buf0 in
    let b := get_buf i win1 in
    is_busy b = false ∧
    next_buffer_loop sym (evs :: trips) this w = (Ok i, w1) ∧
    (buffer b = true ∧ width b = width_ win1 ∧ height b = height_ win1 →
     next_buffer sym (evs :: trips) ans this w = (Ok i, w1)) ∧
    (buffer b = false ∨ width b ≠ width_ win1 ∨ height b ≠ height_ win1 →
     0 ≤ shm_open_fd ans → 0 ≤ ftruncate_ret ans → shm_mmap_ok ans = true →
     0 ≤ width_ win1 → 0 ≤ height_ win1 →
     width_ win1 * 4 < 2 ^ 31 → width_ win1 * height_ win1 * 4 < 2 ^ 31 →
     ∃ w2 win2,
       next_buffer sym (evs :: trips) ans this w = (Ok i, w2) ∧
       heap w2 !! this = Some win2 ∧
       width_ win2 = width_ win1 ∧ height_ win2 = height_ win1 ∧
       buffer (get_buf i win2) = true ∧
       is_busy (get_buf i win2) = false ∧
       width (get_buf i win2) = width_ win1 ∧
       height (get_buf i win2) = height_ win1 ∧
       shm_data (get_buf i win2)
       = replicate (Z.to_nat (width_ win1 * height_ win1)) 4294967295).
Proof.
  intros Hwin Hfree Htrip.
  destruct (next_buffer_loop_first sym evs trips this w w1 win Hwin Hfree Htrip)
    as (win1 & Hwin1 & Hframes & Hidle & Hloop).
  exists win1. split; [done|]. split; [done|].
  intros i b. fold i in Hidle, Hloop. fold b in Hidle.
  split; [done|]. split; [done|]. split.
  - intros (Hbuf & Hwd & Hht). unfold next_buffer.
    rewrite (bind_run _ _ _ _ _ Hloop).
    rewrite (bind_run _ _ _ _ _ (deref_run _ _ _ Hwin1)).
    fold b. rewrite decide_False; [done|].
    intros [?|[?|?]]; congruence.
  - intros Hstale Hopen Htrunc Hmap Hwd Hht Hstride Hsize. unfold next_buffer.
    assert (Hr1 : int_range (width_ win1 * 4)) by (unfold int_range; nia).
    assert (Hr2 : int_range (width_ win1 * 4 * height_ win1)) by (unfold int_range; nia).
    assert (int_range (width_ win1 * height_ win1)) by (unfold int_range; nia).
    assert (int_range (width_ win1 * height_ win1 * 4)) by (unfold int_range; nia).
    rewrite (bind_run _ _ _ _ _ Hloop).
    rewrite (bind_run _ _ _ _ _ (deref_run _ _ _ Hwin1)).
    fold b. rewrite decide_True by done. cbv iota.
    rewrite bind_assoc_run.
    rewrite (bind_run _ _ _ _ _
               (create_shm_run ans this i _ _ _ win1 w1 Hwin1 Hr1 Hr2 Hopen Htrunc Hmap)).
    rewrite decide_False by lia. cbv iota.
    rewrite bind_assoc_run.
    erewrite bind_run;
      [|apply deref_run; cbn [heap set_heap set_number]; apply lookup_insert_eq].
    rewrite bind_assoc_run. erewrite bind_run; [|unfold lift; by rewrite int_Ok].
    rewrite bind_assoc_run. erewrite bind_run; [|unfold lift; by rewrite int_Ok].
    rewrite get_set_buf. cbn [shm_data]. rewrite memset_fresh by nia.
    rewrite bind_assoc_run. erewrite bind_run; [|reflexivity].
    erewrite bind_run;
      [|apply on_buffer_run; cbn [heap set_heap set_number]; apply lookup_insert_eq].
    eexists _, _. split; [reflexivity|].
    cbn [heap set_heap set_number]. rewrite insert_insert_eq.
    split; [apply lookup_insert_eq|].
    rewrite !get_set_buf, !set_set_buf. unfold is_busy in Hidle.
    by destruct i.
Qed.

Example shown_window :
  heap shown_world !! 4096
  = Some {| flags_ := 0; name_ := "a"; width_ := 1; height_ := 1;
            on_mouse_ := {| drag := false; last_x := 0; last_y := 0; button := NONE;
                            callback := Some 11; param := 0 |};
            buffers_ := ({| buffer := true; shm_data := [0x001E140A]; busy_ := true;
                            buf_width_ := 1; buf_height_ := 1;
                            shm_path_ := "/opencv_wl_buffer-0" |},
                         new_buffer) |}.
Proof. by vm_compute. Qed.

Example shown_requests :
  io_log shown_world
  = [io_roundtrip; io_surface_attach 4096 Buf0; io_surface_damage 4096 0 0 1 1;
     io_surface_commit 4096].
Proof. by vm_compute. Qed.

(** After one frame buffer 0 is busy.  A round trip that brings no
    release makes [next_buffer] take buffer 1, which it creates white. *)
Lemma next_buffer_picks_free_shown :
  ∃ w2 win2,
    next_buffer sample_layout [[]] shm_fine 4096 shown_world = (Ok Buf1, w2) ∧
    heap w2 !! 4096 = Some win2 ∧
    buffer (get_buf Buf1 win2) = true ∧
    is_busy (get_buf Buf1 win2) = false ∧
    shm_data (get_buf Buf1 win2) = [4294967295].
Proof.
  destruct (next_buffer_picks_free sample_layout [] [] shm_fine 4096 shown_world
              (set_io_log (io_log shown_world ++ [io_roundtrip]) shown_world)
              _ shown_window (or_intror eq_refl) eq_refl)
    as (win1 & Hwin1 & _ & Hpick).
  vm_compute in Hwin1. injection Hwin1 as <-.
  destruct Hpick as (_ & _ & _ & Hmake).
  destruct Hmake as (w2 & win2 & Hrun & Hwin2 & _ & _ & Hbuf & Hidle & _ & _ & Hdata);
    [by left|done..|].
  exists w2, win2. split_and!; assumption.
Defined.

(** When the round trip brings the release of buffer 0, [next_buffer]
    takes buffer 0 again and keeps its backing store. *)
Example next_buffer_after_release :
  (next_buffer sample_layout [[ev_buffer_release 4096 Buf0]] shm_fine 4096 shown_world).1
  = Ok Buf0 ∧
  (get_buf Buf0 <$>
     heap (next_buffer sample_layout [[ev_buffer_release 4096 Buf0]] shm_fine 4096
             shown_world).2 !! 4096)
  = Some {| buffer := true; shm_data := [0x001E140A]; busy_ := false;
            buf_width_ := 1; buf_height_ := 1; shm_path_ := "/opencv_wl_buffer-0" |}.
Proof. by vm_compute. Qed.

(** With both buffers busy and no release the loop is still waiting. *)
Example next_buffer_waits :
  (next_buffer sample_layout [[]; []] shm_fine 4096
     (cvShowImage sample_layout [[]] shm_fine "a" pixel_mat shown_world).2).1
  = Pending.
Proof. by vm_compute. Qed.

(** ** The mouse *)

Lemma the_mouse_run (w : world) (q : list ptr) :
  entered w = Some q → the_mouse w = (Ok {| entered_window_ := q |}, w).
Proof.
  unfold entered, the_mouse. destruct (the_input w) as [inp|]; [|done]. cbn.
  destruct (mouse_ inp) as [[q']|]; [|done]. cbn. by intros [= ->].
Qed.

Lemma set_mouse_run (w : world) (q : list ptr) (m : cv_wl_mouse) :
  entered w = Some q →
  ∃ w', set_mouse m w = (Ok (), w') ∧ entered w' = Some (entered_window_ m) ∧
        heap w' = heap w ∧ mouse_log w' = mouse_log w.
Proof.
  unfold entered, set_mouse, modify. destruct (the_input w) as [inp|]; [|done].
  intros _. eexists. split; [reflexivity|]. done.
Qed.

Lemma on_window_run (this : ptr) method (win : cv_wl_window) (w : world) :
  heap w !! this = Some win →
  on_window this method w
  = (Ok (), set_mouse_log (mouse_log w ++ ((fun c => (this, c)) <$> (method win).2))
              (set_heap (<[this := (method win).1]> (heap w)) w)).
Proof.
  intros Hwin. unfold on_window. rewrite (bind_run _ _ _ _ _ (deref_run _ _ _ Hwin)).
  by destruct (method win).
Qed.

Lemma on_window_log (this : ptr) method (w : world) :
  ∃ calls, mouse_log (on_window this method w).2
           = mouse_log w ++ ((fun c => (this, c)) <$> calls).
Proof.
  destruct (heap w !! this) as [win|] eqn:Hwin.
  - rewrite (on_window_run _ _ _ _ Hwin). by eexists.
  - exists []. unfold on_window, deref. run_M. rewrite Hwin. cbn. by rewrite app_nil_r.
Qed.

Lemma entered_set_heap h (w : world) : entered (set_heap h w) = entered w.
Proof. reflexivity. Qed.

Lemma entered_set_mouse_log l (w : world) : entered (set_mouse_log l w) = entered w.
Proof. reflexivity. Qed.

Lemma handle_pointer_enter_run (w : world) (q : list ptr) (window : ptr)
    (win : cv_wl_window) (sx sy : Z) :
  entered w = Some q → heap w !! window = Some win →
  ∃ w', handle_pointer_enter window sx sy w = (Ok (), w') ∧
        entered w' = Some (q ++ [window]) ∧
        ∀ other, is_Some (heap w !! other) → is_Some (heap w' !! other).
Proof.
  intros Hq Hwin. unfold handle_pointer_enter.
  rewrite (bind_run _ _ _ _ _ (the_mouse_run _ _ Hq)).
  destruct (set_mouse_run w q {| entered_window_ := q ++ [window] |} Hq)
    as (w1 & Hset & Hq1 & Hheap1 & _).
  rewrite (bind_run _ _ _ _ _ Hset).
  rewrite on_window_run with (win := win) by (by rewrite Hheap1).
  eexists. split; [reflexivity|]. split; [done|].
  intros other Hother. cbn. rewrite Hheap1.
  destruct (decide (other = window)) as [->|Hne].
  - by rewrite lookup_insert_eq.
  - by rewrite lookup_insert_ne.
Qed.

Lemma handle_pointer_front (w : world) (window : ptr) (rest : list ptr) :
  entered w = Some (window :: rest) →
  (∀ time sx sy,
     handle_pointer_motion time sx sy w
     = on_window window (mouse_motion time (wl_fixed_to_int sx) (wl_fixed_to_int sy)) w) ∧
  (∀ time btn btn_state,
     handle_pointer_button time btn btn_state w
     = on_window window (mouse_button time btn btn_state) w).
Proof.
  intros Hq. split; intros; unfold handle_pointer_motion, handle_pointer_button;
    by rewrite (bind_run _ _ _ _ _ (the_mouse_run _ _ Hq)).
Qed.


Lemma handle_pointer_leave_run (w : world) (first : ptr) (rest : list ptr) (window : ptr) :
  entered w = Some (first :: rest) → is_Some (heap w !! window) →
  ∃ w', handle_pointer_leave window w = (Ok (), w') ∧ entered w' = Some rest ∧
        heap w' = heap w.
Proof.
  intros Hq [win Hwin]. unfold handle_pointer_leave.
  rewrite (bind_run _ _ _ _ _ (on_window_run _ _ _ _ Hwin)).
  cbn [mouse_leave fst snd fmap list_fmap]. rewrite app_nil_r.
  erewrite bind_run; [|by apply the_mouse_run].
  cbn [entered_window_].
  match goal with |- context [set_mouse ?m ?w1] =>
    destruct (set_mouse_run w1 (first :: rest) m) as (w2 & -> & Hq2 & Hheap2 & _);
      [done|] end.
  exists w2. split; [done|]. split; [done|].
  rewrite Hheap2. cbn. by apply insert_id.
Qed.

(** C5, amended.  The windows entered form a first-in first-out queue:
    an enter appends at the back, a leave removes the front.  Motion and
    button events go to the window at the front, the one entered
    earliest among those a leave has not removed.  From an empty queue,
    after enter(A) and enter(B) the queue is A, B; a motion or a button
    is handled by A and the callback calls it logs are calls of A; after
    a leave the queue is B and a motion is handled by B. *)
Theorem pointer_events_reach_front (w : world) (A B : ptr) (winA winB : cv_wl_window)
    (sxa sya sxb syb : Z) :
  entered w = Some [] →
  heap w !! A = Some winA → heap w !! B = Some winB →
  ∃ w2,
    (handle_pointer_enter A sxa sya;; handle_pointer_enter B sxb syb) w = (Ok (), w2) ∧
    entered w2 = Some [A; B] ∧
    (∀ time sx sy,
       handle_pointer_motion time sx sy w2
       = on_window A (mouse_motion time (wl_fixed_to_int sx) (wl_fixed_to_int sy)) w2 ∧
       ∃ calls, mouse_log (handle_pointer_motion time sx sy w2).2
                = mouse_log w2 ++ ((fun c => (A, c)) <$> calls)) ∧
    (∀ time btn btn_state,
       handle_pointer_button time btn btn_state w2
       = on_window A (mouse_button time btn btn_state) w2) ∧
    (∀ window, is_Some (heap w2 !! window) →
       ∃ w3, handle_pointer_leave window w2 = (Ok (), w3) ∧
             entered w3 = Some [B] ∧
             ∀ time sx sy,
               handle_pointer_motion time sx sy w3
               = on_window B (mouse_motion time (wl_fixed_to_int sx) (wl_fixed_to_int sy))
                   w3).
Proof.
  intros Hq HA HB.
  destruct (handle_pointer_enter_run w [] A winA sxa sya Hq HA) as (w1 & Hrun1 & Hq1 & Hheap1).
  destruct (Hheap1 B) as [winB' HB']; [by eexists|].
  destruct (handle_pointer_enter_run w1 [A] B winB' sxb syb Hq1 HB')
    as (w2 & Hrun2 & Hq2 & Hheap2).
  exists w2. split_and!.
  - by rewrite (bind_run _ _ _ _ _ Hrun1).
  - done.
  - intros time sx sy. destruct (handle_pointer_front w2 A [B] Hq2) as [Hmotion _].
    split; [apply Hmotion|]. rewrite Hmotion. apply on_window_log.
  - apply (handle_pointer_front w2 A [B] Hq2).
  - intros window Halive.
    destruct (handle_pointer_leave_run w2 A [B] window Hq2 Halive) as (w3 & Hrun3 & Hq3 & _).
    exists w3. split; [done|]. split; [done|].
    apply (handle_pointer_front w3 B [] Hq3).
Qed.

(** Enter "a" at (5, 6), enter "b" at (1, 2), move to (7, 8): the calls
    made, each with the window that made it. *)
Example enter_enter_motion :
  mouse_log (deliver_all sample_layout
               [ev_pointer_enter 4096 1280 1536; ev_pointer_enter 8192 256 512;
                ev_pointer_motion 1000 1792 2048] two_windows).2
  = [ (4096, {| mc_callback := 11; mc_event := EVENT_MOUSEMOVE; mc_x := 5; mc_y := 6;
                mc_flag := 0; mc_param := 0 |});
      (8192, {| mc_callback := 22; mc_event := EVENT_MOUSEMOVE; mc_x := 1; mc_y := 2;
                mc_flag := 0; mc_param := 0 |});
      (4096, {| mc_callback := 11; mc_event := EVENT_MOUSEMOVE; mc_x := 7; mc_y := 8;
                mc_flag := 0; mc_param := 0 |}) ].
Proof. by vm_compute. Qed.

(** C5 as stated fails: after enter(A), enter(B) the call for the motion
    is not made by B, the window at 8192. *)
Lemma motion_after_two_enters_not_on_last :
  ¬ ∃ call, last (mouse_log (deliver_all sample_layout
                               [ev_pointer_enter 4096 1280 1536;
                                ev_pointer_enter 8192 256 512;
                                ev_pointer_motion 1000 1792 2048] two_windows).2)
            = Some (8192, call).
Proof. rewrite enter_enter_motion. intros [call Hlast]. discriminate. Qed.

(** On the sample world with its two windows. *)
Lemma pointer_events_reach_front_sample :
  ∃ w2,
    (handle_pointer_enter 4096 1280 1536;; handle_pointer_enter 8192 256 512) two_windows
    = (Ok (), w2) ∧
    entered w2 = Some [4096; 8192] ∧
    handle_pointer_motion 1000 1792 2048 w2
    = on_window 4096 (mouse_motion 1000 7 8) w2.
Proof.
  destruct (pointer_events_reach_front two_windows 4096 8192
              (set_mouse_callback (Some 11) 0 (new_window "a" default_width default_height 0))
              (set_mouse_callback (Some 22) 0 (new_window "b" default_width default_height 0))
              1280 1536 256 512)
    as (w2 & Hrun & Hq & Hmotion & _); [by vm_compute..|].
  exists w2. split; [done|]. split; [done|]. apply Hmotion.
Defined.

(** With a leave before the motion, the call is made by "b". *)
Example enter_enter_leave_motion :
  last (mouse_log (deliver_all sample_layout
                     [ev_pointer_enter 4096 1280 1536; ev_pointer_enter 8192 256 512;
                      ev_pointer_leave 4096; ev_pointer_motion 1000 1792 2048]
                     two_windows).2)
  = Some (8192, {| mc_callback := 22; mc_event := EVENT_MOUSEMOVE; mc_x := 7; mc_y := 8;
                   mc_flag := 0; mc_param := 0 |}).
Proof. by vm_compute. Qed.

(** ** More on the registry *)

Lemma get_window_run (nm : string) (w : world) :
  get_window nm w
  = (match windows_ (g_core w) !! nm with
     | Some p => Ok p
     | None => Throw "map::at"
     end, w).
Proof. unfold get_window. by destruct (windows_ (g_core w) !! nm). Qed.

(** X1.  [create_window] under a name the registry does not know
    returns true; from then on [get_window] and [get_window_handle] of
    the name give the new window, [get_window_name] of its address gives
    the name back, and the other names answer as before. *)
Theorem create_window_fresh_name (p : ptr) (nm : string) (flags : Z) (w : world) :
  windows_ (g_core w) !! nm = None →
  let w1 := (create_window p nm flags w).2 in
  (create_window p nm flags w).1 = Ok true ∧
  get_window nm w1 = (Ok p, w1) ∧
  get_window_handle nm w1 = (Ok p, w1) ∧
  get_window_name p w1 = (Ok nm, w1) ∧
  heap w1 !! p = Some (new_window nm default_width default_height flags) ∧
  ∀ nm', nm' ≠ nm → get_window nm' w1 = ((get_window nm' w).1, w1).
Proof.
  intros Hnew w1.
  destruct (create_window_maps p nm flags w) as (Hh & Hw & Hheap).
  fold w1 in Hh, Hw, Hheap. rewrite Hnew in Hw, Hheap.
  assert (Hnm : windows_ (g_core w1) !! nm = Some p) by (rewrite Hw; apply lookup_insert_eq).
  split_and!.
  - unfold create_window. run_M. by rewrite bool_decide_eq_true_2.
  - by rewrite get_window_run, Hnm.
  - unfold get_window_handle. by rewrite get_window_run, Hnm.
  - apply get_window_name_known. rewrite Hh. apply lookup_insert_eq.
  - rewrite Hheap. apply lookup_insert_eq.
  - intros nm' Hne. rewrite !get_window_run, Hw. by rewrite lookup_insert_ne.
Qed.

Lemma create_window_fresh_name_sample :
  let w1 := (create_window 4096 "a" 0 sample_world).2 in
  get_window "a" w1 = (Ok 4096, w1) ∧ get_window_name 4096 w1 = (Ok "a", w1).
Proof.
  destruct (create_window_fresh_name 4096 "a" 0 sample_world) as (_ & Hget & _ & Hname & _).
  - apply lookup_empty.
  - split; assumption.
Defined.

(** X2.  [create_window] under a name already taken returns false and
    leaves the name map and the window of that name alone; the window
    just made is freed, yet the handle map now sends its address to the
    name. *)
Theorem create_window_taken_name (p q : ptr) (nm : string) (flags : Z) (w : world) :
  windows_ (g_core w) !! nm = Some q → p ≠ q →
  let w1 := (create_window p nm flags w).2 in
  (create_window p nm flags w).1 = Ok false ∧
  windows_ (g_core w1) = windows_ (g_core w) ∧
  get_window nm w1 = (Ok q, w1) ∧
  heap w1 !! q = heap w !! q ∧
  heap w1 !! p = None ∧
  get_window_name p w1 = (Ok nm, w1).
Proof.
  intros Hold Hne w1.
  destruct (create_window_maps p nm flags w) as (Hh & Hw & Hheap).
  fold w1 in Hh, Hw, Hheap. rewrite Hold in Hw, Hheap.
  split_and!.
  - unfold create_window. run_M. by rewrite bool_decide_eq_false_2 by congruence.
  - done.
  - by rewrite get_window_run, Hw, Hold.
  - rewrite Hheap. rewrite lookup_delete_ne by done. by rewrite lookup_insert_ne.
  - rewrite Hheap. apply lookup_delete_eq.
  - apply get_window_name_known. rewrite Hh. apply lookup_insert_eq.
Qed.

Lemma create_window_taken_name_sample :
  let w1 := (create_window 12288 "a" 7 two_windows).2 in
  (create_window 12288 "a" 7 two_windows).1 = Ok false ∧
  get_window "a" w1 = (Ok 4096, w1) ∧
  heap w1 !! 12288 = None ∧
  get_window_name 12288 w1 = (Ok "a", w1).
Proof.
  destruct (create_window_taken_name 12288 4096 "a" 7 two_windows)
    as (Hret & _ & Hget & _ & Hfree & Hname); [by vm_compute|done|].
  split_and!; assumption.
Defined.

Lemma destroy_window_unknown (nm : string) (w : world) :
  windows_ (g_core w) !! nm = None → destroy_window nm w = (Ok false, w).
Proof. intros Hnone. unfold destroy_window. run_M. by rewrite Hnone. Qed.

(** X3.  [destroy_window] of a known name returns true and frees the
    window; [get_window] of the name then throws, a second
    [destroy_window] returns false, and the other names answer as
    before. *)
Theorem destroy_window_then_get (nm : string) (p : ptr) (w : world) :
  windows_ (g_core w) !! nm = Some p →
  let w1 := (destroy_window nm w).2 in
  (destroy_window nm w).1 = Ok true ∧
  get_window nm w1 = (Throw "map::at", w1) ∧
  heap w1 !! p = None ∧
  destroy_window nm w1 = (Ok false, w1) ∧
  ∀ nm', nm' ≠ nm → get_window nm' w1 = ((get_window nm' w).1, w1).
Proof.
  intros Hnm w1.
  destruct (destroy_window_maps nm w) as (Hh & Hw & Hheap).
  fold w1 in Hh, Hw, Hheap. rewrite Hnm in Hheap.
  assert (Hgone : windows_ (g_core w1) !! nm = None) by (rewrite Hw; apply lookup_delete_eq).
  split_and!.
  - unfold destroy_window. run_M. by rewrite Hnm.
  - by rewrite get_window_run, Hgone.
  - rewrite Hheap. apply lookup_delete_eq.
  - by apply destroy_window_unknown.
  - intros nm' Hne. rewrite !get_window_run, Hw. by rewrite lookup_delete_ne.
Qed.

Lemma destroy_window_then_get_sample :
  let w1 := (destroy_window "a" two_windows).2 in
  get_window "a" w1 = (Throw "map::at", w1) ∧ get_window "b" w1 = (Ok 8192, w1).
Proof.
  destruct (destroy_window_then_get "a" 4096 two_windows) as (_ & Hget & _ & _ & Hother);
    [by vm_compute|].
  split; [done|]. rewrite (Hother "b") by done. by vm_compute.
Defined.

Lemma fold_delete_lookup (ws : gmap string ptr) (h : gmap ptr cv_wl_window) (p : ptr) :
  ((∃ nm, ws !! nm = Some p) →
     map_fold (fun _ q acc => delete q acc) h ws !! p = None) ∧
  ((∀ nm, ws !! nm ≠ Some p) →
     map_fold (fun _ q acc => delete q acc) h ws !! p = h !! p).
Proof.
  apply (map_fold_weak_ind
           (fun acc m => ((∃ nm, m !! nm = Some p) → acc !! p = None) ∧
                         ((∀ nm, m !! nm ≠ Some p) → acc !! p = h !! p))).
  - split; [|done]. intros [nm Hnm]. by rewrite lookup_empty in Hnm.
  - intros nm q m acc Hfree [IHin IHout]. destruct (decide (q = p)) as [->|Hne].
    + rewrite lookup_delete_eq. split; [done|].
      intros Hno. destruct (Hno nm). apply lookup_insert_eq.
    + rewrite lookup_delete_ne by done. split.
      * intros [nm0 Hnm0]. apply IHin. exists nm0.
        destruct (decide (nm = nm0)) as [->|Hnn].
        -- rewrite lookup_insert_eq in Hnm0. congruence.
        -- by rewrite lookup_insert_ne in Hnm0.
      * intros Hno. apply IHout. intros nm0 Hnm0. apply (Hno nm0).
        rewrite lookup_insert_ne; [done|]. intros ->. congruence.
Qed.

(** X4.  After [destroy_all_windows], [get_window] throws for every
    name, every window the registry knew is freed and no other object
    is; the handle map is as before. *)
Theorem destroy_all_windows_frees (w : world) :
  let w1 := (destroy_all_windows w).2 in
  (destroy_all_windows w).1 = Ok () ∧
  (∀ nm, get_window nm w1 = (Throw "map::at", w1)) ∧
  (∀ nm p, windows_ (g_core w) !! nm = Some p → heap w1 !! p = None) ∧
  (∀ p, (∀ nm, windows_ (g_core w) !! nm ≠ Some p) → heap w1 !! p = heap w !! p) ∧
  handles_ (g_core w1) = handles_ (g_core w).
Proof.
  intros w1. split_and!.
  - done.
  - intros nm. by rewrite get_window_run.
  - intros nm p Hnm. unfold w1, destroy_all_windows. run_M.
    apply fold_delete_lookup. by exists nm.
  - intros p Hnone. unfold w1, destroy_all_windows. run_M.
    by apply fold_delete_lookup.
  - done.
Qed.

Lemma registry_sound_create (p : ptr) (nm : string) (flags : Z) (w : world) :
  registry_sound w → heap w !! p = None →
  registry_sound (create_window p nm flags w).2.
Proof.
  intros Hsound Hfresh nm0 p0.
  destruct (create_window_maps p nm flags w) as (Hh & Hw & Hheap).
  cbv zeta in Hh, Hw, Hheap. rewrite Hh, Hw, Hheap. clear Hh Hw Hheap.
  assert (Hlive : ∀ nm1 p1, windows_ (g_core w) !! nm1 = Some p1 → p1 ≠ p).
  { intros nm1 p1 Hnm1 ->. destruct (Hsound nm1 p Hnm1) as [[? ?] _]. congruence. }
  destruct (windows_ (g_core w) !! nm) as [q|] eqn:Hnm.
  - intros Hnm0. destruct (Hsound nm0 p0 Hnm0) as [Halive Hhandle].
    pose proof (Hlive nm0 p0 Hnm0).
    rewrite lookup_delete_ne, !lookup_insert_ne by done. done.
  - destruct (decide (nm0 = nm)) as [->|Hne].
    + rewrite lookup_insert_eq. intros [= <-]. by rewrite !lookup_insert_eq.
    + rewrite lookup_insert_ne by done. intros Hnm0.
      destruct (Hsound nm0 p0 Hnm0) as [Halive Hhandle].
      pose proof (Hlive nm0 p0 Hnm0).
      by rewrite !lookup_insert_ne by done.
Qed.

Lemma registry_sound_destroy (nm : string) (w : world) :
  registry_sound w → registry_sound (destroy_window nm w).2.
Proof.
  intros Hsound nm0 p0.
  destruct (destroy_window_maps nm w) as (Hh & Hw & Hheap).
  cbv zeta in Hh, Hw, Hheap. rewrite Hh, Hw, Hheap. clear Hh Hw Hheap.
  destruct (decide (nm0 = nm)) as [->|Hne]; [by rewrite lookup_delete_eq|].
  rewrite lookup_delete_ne by done. intros Hnm0.
  destruct (Hsound nm0 p0 Hnm0) as [Halive Hhandle]. split; [|done].
  destruct (windows_ (g_core w) !! nm) as [p|] eqn:Hnm; [|done].
  rewrite lookup_delete_ne; [done|]. intros ->.
  destruct (Hsound nm p0 Hnm) as [_ Hhandle']. congruence.
Qed.

Lemma registry_sound_destroy_all (w : world) :
  registry_sound (destroy_all_windows w).2.
Proof. intros nm p Hnm. unfold destroy_all_windows in Hnm. by run_M. Qed.

Lemma registry_sound_get_name (handle : ptr) (w : world) :
  registry_sound w → registry_sound (get_window_name handle w).2.
Proof.
  intros Hsound nm p. unfold get_window_name.
  destruct (handles_ (g_core w) !! handle) as [nm'|] eqn:Hhandle; [apply Hsound|].
  cbn. intros Hnm. destruct (Hsound nm p Hnm) as [Halive Hp]. split; [done|].
  rewrite lookup_insert_ne; [done|]. congruence.
Qed.

Lemma run_op_snd_create p nm flags w :
  (run_op (op_create p nm flags) w).2 = (create_window p nm flags w).2.
Proof.
  unfold run_op. unfold mbind at 1, M_bind at 1.
  by destruct (create_window p nm flags w) as [[?| | |] ?].
Qed.

Lemma run_op_snd_destroy nm w :
  (run_op (op_destroy nm) w).2 = (destroy_window nm w).2.
Proof.
  unfold run_op. unfold mbind at 1, M_bind at 1.
  by destruct (destroy_window nm w) as [[?| | |] ?].
Qed.

Lemma run_op_snd_get_name handle w :
  (run_op (op_get_name handle) w).2 = (get_window_name handle w).2.
Proof.
  unfold run_op. unfold mbind at 1, M_bind at 1.
  by destruct (get_window_name handle w) as [[?| | |] ?].
Qed.

Lemma registry_sound_run_op (o : registry_op) (w : world) :
  registry_sound w →
  match o with op_create p _ _ => heap w !! p = None | _ => True end →
  registry_sound (run_op o w).2.
Proof.
  intros Hsound Hfresh. destruct o as [p nm flags|nm| |handle].
  - rewrite run_op_snd_create. by apply registry_sound_create.
  - rewrite run_op_snd_destroy. by apply registry_sound_destroy.
  - apply registry_sound_destroy_all.
  - rewrite run_op_snd_get_name. by apply registry_sound_get_name.
Qed.

(** X5.  From a sound registry, after any sequence of [create_window],
    [destroy_window], [destroy_all_windows] and [get_window_name] in
    which each new window gets an address where nothing lives, the
    registry is sound: the handle [get_window_handle] gives for a name
    is the address of a living window, and [get_window_name] of that
    handle gives the name back. *)
Theorem registry_handles_lead_back (ops : list registry_op) (w : world) :
  registry_sound w → fresh_addresses ops w →
  let w' := run_ops ops w in
  registry_sound w' ∧
  ∀ nm p, get_window_handle nm w' = (Ok p, w') →
    is_Some (heap w' !! p) ∧ get_window_name p w' = (Ok nm, w').
Proof.
  revert w. induction ops as [|o ops IH]; intros w Hsound Hfresh.
  - cbn [run_ops]. split; [done|].
    intros nm p. unfold get_window_handle. rewrite get_window_run.
    destruct (windows_ (g_core w) !! nm) as [q|] eqn:Hnm; [|discriminate].
    intros [= ->]. destruct (Hsound nm p Hnm) as [Halive Hhandle].
    split; [done|]. by apply get_window_name_known.
  - destruct Hfresh as [Hfresh Hrest]. cbn [run_ops]. apply IH; [|done].
    by apply registry_sound_run_op.
Qed.

Lemma registry_sound_empty : registry_sound sample_world.
Proof. intros nm p Hnm. cbn in Hnm. by rewrite lookup_empty in Hnm. Qed.

Lemma registry_handles_lead_back_sample :
  let w' := run_ops [op_create 4096 "a" 0; op_create 8192 "a" 1; op_get_name 8192;
                     op_destroy "a"; op_create 4096 "b" 0; op_get_name 7;
                     op_create 8192 "c" 0] sample_world in
  get_window_handle "b" w' = (Ok 4096, w') ∧ get_window_name 4096 w' = (Ok "b", w') ∧
  get_window_handle "c" w' = (Ok 8192, w') ∧ get_window_name 8192 w' = (Ok "c", w').
Proof.
  intros w'.
  destruct (registry_handles_lead_back
              [op_create 4096 "a" 0; op_create 8192 "a" 1; op_get_name 8192;
               op_destroy "a"; op_create 4096 "b" 0; op_get_name 7;
               op_create 8192 "c" 0] sample_world registry_sound_empty)
    as [_ Hback]; [by vm_compute|].
  fold w' in Hback.
  assert (Hb : get_window_handle "b" w' = (Ok 4096, w')) by (by vm_compute).
  assert (Hc : get_window_handle "c" w' = (Ok 8192, w')) by (by vm_compute).
  split_and!; [done|apply (Hback "b" 4096 Hb)|done|apply (Hback "c" 8192 Hc)].
Defined.

(** ** More on the input routing *)

(** X6.  For a window with a callback, and each of the left, right and
    middle buttons: a press is reported with the event of the press, at
    the position of the last motion; a motion while the button is held
    carries the flag of the button; the release is reported with the
    event of the release at the position of the last motion; a motion
    after the release carries flag 0. *)
Theorem buttons_and_drag (win : cv_wl_window) (cb prm : ptr) (t0 t1 t2 t3 x y x' y' : Z) :
  callback (on_mouse_ win) = Some cb → param (on_mouse_ win) = prm →
  Forall (fun '(btn, down, up, flag) =>
    let moved := (mouse_motion t0 x y win).1 in
    let pressed := (mouse_button t1 btn WL_POINTER_BUTTON_STATE_PRESSED moved).1 in
    let dragged := (mouse_motion t2 x' y' pressed).1 in
    let released := (mouse_button t3 btn WL_POINTER_BUTTON_STATE_RELEASED dragged).1 in
    (mouse_button t1 btn WL_POINTER_BUTTON_STATE_PRESSED moved).2
    = [call_of cb prm down x y flag] ∧
    (mouse_motion t2 x' y' pressed).2 = [call_of cb prm EVENT_MOUSEMOVE x' y' flag] ∧
    (mouse_button t3 btn WL_POINTER_BUTTON_STATE_RELEASED dragged).2
    = [call_of cb prm up x' y' flag] ∧
    (mouse_motion t2 x y released).2 = [call_of cb prm EVENT_MOUSEMOVE x y 0])
    button_table.
Proof.
  intros Hcb Hprm. destruct win as [fl nm wd ht [dr lx ly bt cbk pr] bufs].
  cbn in Hcb, Hprm. subst cbk pr. unfold button_table.
  repeat (apply Forall_cons; split); by vm_compute.
Qed.

Lemma buttons_and_drag_sample :
  (mouse_motion 2 9 9
     (mouse_button 1 RBUTTON WL_POINTER_BUTTON_STATE_PRESSED
        (mouse_motion 0 3 4
           (set_mouse_callback (Some 11) 5 (new_window "a" 320 240 0))).1).1).2
  = [call_of 11 5 EVENT_MOUSEMOVE 9 9 EVENT_FLAG_RBUTTON].
Proof.
  pose proof (buttons_and_drag (set_mouse_callback (Some 11) 5 (new_window "a" 320 240 0))
                11 5 0 1 2 3 3 4 9 9 eq_refl eq_refl) as Htable.
  apply Forall_cons in Htable as [_ Htable].
  apply Forall_cons in Htable as [(_ & Hdrag & _) _].
  exact Hdrag.
Defined.

(** A button the backend does not know still starts a drag, is reported
    as event 0 with flag 0, and the motion that follows has flag 0. *)
Example unknown_button :
  let win := set_mouse_callback (Some 11) 5 (new_window "a" 320 240 0) in
  (mouse_button 1 275 WL_POINTER_BUTTON_STATE_PRESSED win).2
  = [call_of 11 5 EVENT_MOUSEMOVE 0 0 0] ∧
  drag (on_mouse_ (mouse_button 1 275 WL_POINTER_BUTTON_STATE_PRESSED win).1) = true ∧
  (mouse_motion 2 9 9 (mouse_button 1 275 WL_POINTER_BUTTON_STATE_PRESSED win).1).2
  = [call_of 11 5 EVENT_MOUSEMOVE 9 9 0].
Proof. by vm_compute. Qed.

#[global] Instance silent_preorder : PreOrder silent.
Proof.
  split.
  - by intros w Hw.
  - intros w1 w2 w3 H12 H23 Hw1. destruct (H12 Hw1) as [Hw2 Hlog2].
    destruct (H23 Hw2) as [Hw3 Hlog3]. split; [done|congruence].
Qed.

Lemma silent_same (f : world → world) :
  (∀ w, heap (f w) = heap w) → (∀ w, mouse_log (f w) = mouse_log w) →
  ∀ w, silent w (f w).
Proof.
  intros Hheap Hlog w Hw. split; [|apply Hlog].
  intros p win. rewrite Hheap. apply Hw.
Qed.

Lemma stable_silent_modify (f : world → world) :
  (∀ w, heap (f w) = heap w) → (∀ w, mouse_log (f w) = mouse_log w) →
  stable silent (modify f).
Proof. intros Hheap Hlog. apply stable_modify. by apply silent_same. Qed.

Lemma stable_silent_log a : stable silent (log a).
Proof. by apply stable_silent_modify. Qed.

Lemma stable_silent_set_mouse m : stable silent (set_mouse m).
Proof. apply stable_silent_modify; intros w; by destruct (the_input w). Qed.

Lemma stable_silent_on_keyboard handler : stable silent (on_keyboard handler).
Proof.
  intros w. unfold on_keyboard.
  destruct (the_input w) as [inp|]; [|reflexivity].
  destruct (keyboard_ inp) as [kb|]; [|reflexivity].
  destruct (handler kb); try reflexivity. by apply silent_same.
Qed.

Lemma stable_silent_on_window this method :
  (∀ win, callback (on_mouse_ win) = None →
     callback (on_mouse_ (method win).1) = None ∧ (method win).2 = []) →
  stable silent (on_window this method).
Proof.
  intros Hmethod w. unfold on_window, deref. run_M.
  destruct (heap w !! this) as [win|] eqn:Hwin; [|reflexivity].
  specialize (Hmethod win). destruct (method win) as [win' calls]. cbn in *.
  intros Hw. destruct (Hmethod (Hw this win Hwin)) as [Hcb ->].
  split; [|by rewrite app_nil_r].
  intros p win0. cbn [heap set_heap set_mouse_log].
  destruct (decide (p = this)) as [->|Hne].
  - rewrite lookup_insert_eq. by intros [= <-].
  - rewrite lookup_insert_ne by done. apply Hw.
Qed.

Lemma stable_silent_on_buffer this i method : stable silent (on_buffer this i method).
Proof.
  intros w. unfold on_buffer, deref. run_M.
  destruct (heap w !! this) as [win|] eqn:Hwin; [|reflexivity]. cbn.
  intros Hw. split; [|done].
  intros p win0. cbn [heap set_heap set_mouse_log].
  destruct (decide (p = this)) as [->|Hne].
  - rewrite lookup_insert_eq. intros [= <-]. apply (Hw this win Hwin).
  - rewrite lookup_insert_ne by done. apply Hw.
Qed.

Lemma silent_method_enter x y win :
  callback (on_mouse_ win) = None →
  callback (on_mouse_ (mouse_enter x y win).1) = None ∧ (mouse_enter x y win).2 = [].
Proof. intros Hcb. unfold mouse_enter, call_mouse_callback. cbn. by rewrite Hcb. Qed.

Lemma silent_method_leave win :
  callback (on_mouse_ win) = None →
  callback (on_mouse_ (mouse_leave win).1) = None ∧ (mouse_leave win).2 = [].
Proof. done. Qed.

Lemma silent_method_motion time x y win :
  callback (on_mouse_ win) = None →
  callback (on_mouse_ (mouse_motion time x y win).1) = None ∧
  (mouse_motion time x y win).2 = [].
Proof. intros Hcb. unfold mouse_motion, call_mouse_callback. cbn. by rewrite Hcb. Qed.

Lemma silent_method_button time btn st win :
  callback (on_mouse_ win) = None →
  callback (on_mouse_ (mouse_button time btn st win).1) = None ∧
  (mouse_button time btn st win).2 = [].
Proof.
  intros Hcb. unfold mouse_button, call_mouse_callback.
  repeat match goal with |- context [decide ?P] => destruct (decide P) end;
    cbn; by rewrite Hcb.
Qed.

#[global] Hint Resolve stable_silent_modify stable_silent_log stable_silent_set_mouse
  stable_silent_on_keyboard stable_silent_on_window stable_silent_on_buffer
  silent_method_enter silent_method_leave silent_method_motion silent_method_button
  : stable.

Lemma stable_silent_deliver sym e : stable silent (deliver sym e).
Proof.
  destruct e; unfold deliver, handle_pointer_enter, handle_pointer_leave,
    handle_pointer_motion, handle_pointer_button, handle_buffer_release; stable_log.
Qed.

Lemma stable_silent_deliver_all sym evs : stable silent (deliver_all sym evs).
Proof.
  induction evs as [|e evs IH]; cbn [deliver_all]; stable_log.
  apply stable_silent_deliver.
Qed.

(** X7.  While no window has a mouse callback, the dispatch of any
    events calls no callback, and none gets registered by it. *)
Theorem no_callback_no_call sym (evs : list wl_event) (w : world) :
  no_callbacks w →
  mouse_log (deliver_all sym evs w).2 = mouse_log w ∧
  no_callbacks (deliver_all sym evs w).2.
Proof.
  intros Hw. destruct (stable_silent_deliver_all sym evs w Hw) as [Hw' Hlog]. done.
Qed.

Lemma no_callback_no_call_sample :
  mouse_log (deliver_all sample_layout
               [ev_pointer_enter 4096 256 512; ev_pointer_motion 1 768 1024;
                ev_pointer_button 2 LBUTTON WL_POINTER_BUTTON_STATE_PRESSED;
                ev_pointer_leave 4096]
               (create_window 4096 "a" 0 sample_world).2).2
  = [].
Proof.
  apply (no_callback_no_call sample_layout _ (create_window 4096 "a" 0 sample_world).2).
  intros p win.
  destruct (create_window_maps 4096 "a" 0 sample_world) as (_ & _ & Hheap).
  cbv zeta in Hheap. rewrite Hheap.
  change (windows_ (g_core sample_world) !! "a") with (@None Z).
  destruct (decide (p = 4096)) as [->|Hne].
  - rewrite lookup_insert_eq. by intros [= <-].
  - rewrite lookup_insert_ne by done. cbn. by rewrite lookup_empty.
Defined.



(** X9.  [destroy_window] of the window at the front of the queue of
    entered windows leaves it in the queue; the motion or button event
    that follows is a fault, a call on the freed window. *)
Theorem pointer_event_after_destroy (w : world) (nm : string) (window : ptr)
    (rest : list ptr) :
  entered w = Some (window :: rest) →
  windows_ (g_core w) !! nm = Some window →
  let w1 := (destroy_window nm w).2 in
  entered w1 = Some (window :: rest) ∧
  (∀ time sx sy, (handle_pointer_motion time sx sy w1).1 = Fault) ∧
  (∀ time btn btn_state, (handle_pointer_button time btn btn_state w1).1 = Fault).
Proof.
  intros Hq Hnm w1.
  assert (Hfreed : heap w1 !! window = None).
  { destruct (destroy_window_maps nm w) as (_ & _ & Hheap). fold w1 in Hheap.
    rewrite Hheap, Hnm. apply lookup_delete_eq. }
  assert (Hq1 : entered w1 = Some (window :: rest)).
  { unfold w1, destroy_window. run_M. by rewrite Hnm. }
  destruct (handle_pointer_front w1 window rest Hq1) as [Hmotion Hbutton].
  split; [done|]. split; intros.
  - rewrite Hmotion. unfold on_window, deref. run_M. by rewrite Hfreed.
  - rewrite Hbutton. unfold on_window, deref. run_M. by rewrite Hfreed.
Qed.

Lemma pointer_event_after_destroy_sample :
  let w := (handle_pointer_enter 4096 256 256 two_windows).2 in
  (handle_pointer_motion 1 512 512 (destroy_window "a" w).2).1 = Fault.
Proof.
  intros w.
  destruct (pointer_event_after_destroy w "a" 4096 []) as (_ & Hmotion & _);
    [by vm_compute..|].
  apply Hmotion.
Defined.

(** ** More on the keyboard and the seat *)


(** A second keymap that does not compile: the release of raw key 30 is
    still translated, with the state of the first. *)
Example key_after_failed_recompile :
  key_queue_ <$>
    (kb1 ← handle_kb_keymap 1 keymap_fine (new_keyboard 100);
     kb2 ← handle_kb_keymap 1 {| mmap_ok := true; new_keymap := None; new_state := None;
                                 control_index := 0; alt_index := 0; shift_index := 0 |} kb1;
     handle_kb_key sample_layout 30 WL_KEYBOARD_KEY_STATE_RELEASED kb2)
  = Ok [97].
Proof. reflexivity. Qed.

(** A keymap without the modifier [Mod1]: the index is
    [XKB_MOD_INVALID], [0xffffffff]. *)
Example keymap_without_modifier :
  handle_kb_keymap 1 {| mmap_ok := true; new_keymap := Some 101; new_state := Some 102;
                        control_index := 2; alt_index := 4294967295; shift_index := 0 |}
    (new_keyboard 100)
  = Fault.
Proof. reflexivity. Qed.

(** X11.  [handle_seat_capabilities] tests the capabilities against
    [WL_SEAT_GET_KEYBOARD], which is 1, the bit of the pointer: without
    the pointer bit nothing is made, with it a mouse and a keyboard are
    made (or the constructor of the keyboard throws).  A seat that
    announces a keyboard only gets no keyboard, and [keyboard()]
    throws. *)
Theorem seat_capabilities_keyboard (c : option ptr) (caps : Z) (inp : cv_wl_input) :
  (Z.land caps WL_SEAT_CAPABILITY_POINTER = 0 →
     handle_seat_capabilities c caps inp = Ok inp) ∧
  (Z.land caps WL_SEAT_CAPABILITY_POINTER ≠ 0 →
     handle_seat_capabilities c caps inp
     = match c with
       | Some c' => Ok {| mouse_ := Some new_mouse; keyboard_ := Some (new_keyboard c') |}
       | None => Throw "Failed to create xkb context"
       end) ∧
  handle_seat_capabilities c WL_SEAT_CAPABILITY_KEYBOARD
    {| mouse_ := None; keyboard_ := None |}
  = Ok {| mouse_ := None; keyboard_ := None |} ∧
  (handle_seat_capabilities c WL_SEAT_CAPABILITY_KEYBOARD
     {| mouse_ := None; keyboard_ := None |} ≫= keyboard)
  = Throw "seat: keyboard not available".
Proof.
  unfold handle_seat_capabilities, WL_SEAT_GET_KEYBOARD, WL_SEAT_CAPABILITY_POINTER.
  split_and!.
  - intros Hno. rewrite !decide_False by (intros ?; done). done.
  - intros Hyes. rewrite !decide_True by done. by destruct c.
  - done.
  - done.
Qed.

(** A seat with a pointer and no keyboard gets a keyboard object; a
    seat with both gets both. *)
Example seat_with_pointer_only :
  handle_seat_capabilities (Some 100) WL_SEAT_CAPABILITY_POINTER
    {| mouse_ := None; keyboard_ := None |}
  = Ok {| mouse_ := Some new_mouse; keyboard_ := Some (new_keyboard 100) |}.
Proof. reflexivity. Qed.

#[global] Instance keys_kept_preorder : PreOrder keys_kept.
Proof. split; [by intros w Hw|]. intros w1 w2 w3 H12 H23 Hw1. auto. Qed.

Lemma keys_kept_same (f : world → world) :
  (∀ w, queued_keys (f w) = queued_keys w) → ∀ w, keys_kept w (f w).
Proof. intros Hf w. unfold keys_kept, keys_in_range. by rewrite Hf. Qed.

Lemma stable_keys_modify (f : world → world) :
  (∀ w, queued_keys (f w) = queued_keys w) → stable keys_kept (modify f).
Proof. intros Hf. by apply stable_modify, keys_kept_same. Qed.

Lemma stable_keys_log a : stable keys_kept (log a).
Proof. by apply stable_keys_modify. Qed.

Lemma stable_keys_assign this win : stable keys_kept (assign this win).
Proof. by apply stable_keys_modify. Qed.

Lemma stable_keys_set_mouse m : stable keys_kept (set_mouse m).
Proof.
  apply stable_keys_modify. intros w. unfold queued_keys.
  destruct (the_input w) as [inp|] eqn:Hinp; cbn; [done|by rewrite Hinp].
Qed.

Lemma stable_keys_on_window this method : stable keys_kept (on_window this method).
Proof.
  unfold on_window. stable_log; [apply stable_keys_assign|by apply stable_keys_modify].
Qed.

Lemma stable_keys_on_buffer this i method : stable keys_kept (on_buffer this i method).
Proof. unfold on_buffer. stable_log. apply stable_keys_assign. Qed.

Lemma handle_kb_key_range sym key key_state kb kb' :
  Forall key_code (key_queue_ kb) →
  handle_kb_key sym key key_state kb = Ok kb' →
  Forall key_code (key_queue_ kb').
Proof.
  intros Hq. unfold handle_kb_key.
  destruct (decide (key_state = WL_KEYBOARD_KEY_STATE_RELEASED)); [|by intros [= <-]].
  destruct (sym _ _) as [keysym|]; [|done]. intros [= <-]. cbn.
  apply Forall_app. split; [done|]. constructor; [|done].
  apply xkb_keysym_to_ascii_range.
Qed.

Lemma stable_keys_on_keyboard handler :
  (∀ kb kb', Forall key_code (key_queue_ kb) → handler kb = Ok kb' →
             Forall key_code (key_queue_ kb')) →
  stable keys_kept (on_keyboard handler).
Proof.
  intros Hhandler w. unfold on_keyboard.
  destruct (the_input w) as [inp|] eqn:Hinp; [|reflexivity].
  destruct (keyboard_ inp) as [kb|] eqn:Hkb; [|reflexivity].
  destruct (handler kb) as [kb'| | |] eqn:Hrun; try reflexivity.
  unfold keys_kept, keys_in_range, queued_keys. rewrite Hinp. cbn. rewrite Hkb. cbn.
  intros Hq. by eapply Hhandler.
Qed.

#[global] Hint Resolve stable_keys_modify stable_keys_log stable_keys_assign
  stable_keys_set_mouse stable_keys_on_window stable_keys_on_buffer : stable.

Lemma stable_keys_deliver sym e : stable keys_kept (deliver sym e).
Proof.
  destruct e; unfold deliver, handle_pointer_enter, handle_pointer_leave,
    handle_pointer_motion, handle_pointer_button, handle_buffer_release; stable_log.
  - apply stable_keys_on_keyboard. intros kb kb' Hq Hrun.
    by rewrite (proj1 (handle_kb_keymap_queue format ans kb kb' Hrun)).
  - apply stable_keys_on_keyboard. intros kb kb'. apply handle_kb_key_range.
Qed.

Lemma stable_keys_deliver_all sym evs : stable keys_kept (deliver_all sym evs).
Proof.
  induction evs as [|e evs IH]; cbn [deliver_all]; stable_log.
  apply stable_keys_deliver.
Qed.

#[global] Hint Resolve stable_keys_deliver_all : stable.

Lemma stable_keys_run_once sym ans timeout : stable keys_kept (run_once sym ans timeout).
Proof.
  unfold run_once, run_once_wait, epoller_modify, epoller_ctl, epoller_wait,
    dispatch, dispatch_pending, flush.
  stable_log.
Qed.

Lemma poll_key_range (w : world) :
  keys_in_range w →
  keys_in_range (poll_key w).2 ∧
  match (poll_key w).1 with
  | Ok key => -1 ≤ key < 256
  | _ => True
  end.
Proof.
  unfold poll_key, input, keyboard, keys_in_range, queued_keys. run_M.
  destruct (the_input w) as [inp|] eqn:Hinp; cbn; [|by rewrite Hinp].
  destruct (keyboard_ inp) as [kb|] eqn:Hkb; cbn; [|by rewrite Hinp; cbn; rewrite Hkb].
  intros Hq. split; [done|].
  destruct (last (key_queue_ kb)) as [k|] eqn:Hlast; [|lia].
  apply last_Some in Hlast as [q' Hq']. rewrite Hq' in Hq.
  apply Forall_app in Hq as [_ Hk]. apply Forall_cons in Hk as [Hk _].
  unfold key_code in Hk. lia.
Qed.

(** X12.  If every key in the queue is a code from 0 to 255 when
    [cvWaitKey] is called, the key it returns is one too, and so is
    every key in the queue afterwards. *)
Theorem cvWaitKey_key_code sym (answers : list run_once_answers) (delay : Z)
    (w : world) (key : Z) :
  keys_in_range w →
  (cvWaitKey sym answers delay w).1 = Ok key →
  0 ≤ key < 256 ∧ keys_in_range (cvWaitKey sym answers delay w).2.
Proof.
  revert w. induction answers as [|ans answers IH]; intros w Hw; cbn [cvWaitKey].
  - discriminate.
  - pose proof (stable_keys_run_once sym ans (if decide (delay > 0) then delay else -1)
                  w Hw) as Hw1.
    unfold mbind, M_bind.
    destruct (run_once _ _ _ w) as [[evs| | |] w1]; try discriminate. cbn [snd] in Hw1.
    destruct (decide (Z.land evs EPOLLIN ≠ 0)); [|by apply IH].
    destruct (poll_key_range w1 Hw1) as [Hw2 Hkey].
    destruct (poll_key w1) as [[k| | |] w2]; try discriminate. cbn [fst snd] in *.
    destruct (decide (k >= 0)); [|by apply IH].
    cbn. intros [= ->]. split; [lia|done].
Qed.

Lemma cvWaitKey_key_code_sample :
  0 ≤ 97 < 256 ∧
  keys_in_range (cvWaitKey sample_layout [answers_timeout; answers_key 30] 0
                   sample_world).2.
Proof.
  apply (cvWaitKey_key_code sample_layout [answers_timeout; answers_key 30] 0
           sample_world 97).
  - by constructor.
  - reflexivity.
Defined.

(** ** More on the buffers *)













(** *** Waiting for a release *)

#[global] Instance busy_kept_preorder this : PreOrder (busy_kept this).
Proof.
  split.
  - intros w win Hwin. by exists win.
  - intros w1 w2 w3 H12 H23 win Hwin.
    destruct (H12 win Hwin) as (win2 & Hwin2 & H0 & H1).
    destruct (H23 win2 Hwin2) as (win3 & Hwin3 & H0' & H1').
    exists win3. split; [done|]. split; congruence.
Qed.

Lemma busy_kept_same this (f : world → world) :
  (∀ w, heap (f w) = heap w) → ∀ w, busy_kept this w (f w).
Proof. intros Hf w win Hwin. exists win. by rewrite Hf. Qed.

Lemma stable_busy_modify this (f : world → world) :
  (∀ w, heap (f w) = heap w) → stable (busy_kept this) (modify f).
Proof. intros Hf. apply stable_modify, busy_kept_same, Hf. Qed.

Lemma stable_busy_log this a : stable (busy_kept this) (log a).
Proof. by apply stable_busy_modify. Qed.

Lemma stable_busy_set_mouse this m : stable (busy_kept this) (set_mouse m).
Proof. apply stable_busy_modify. intros w. by destruct (the_input w). Qed.

Lemma stable_busy_on_keyboard this handler : stable (busy_kept this) (on_keyboard handler).
Proof.
  intros w. unfold on_keyboard.
  destruct (the_input w) as [inp|]; [|reflexivity].
  destruct (keyboard_ inp) as [kb|]; [|reflexivity].
  destruct (handler kb); try reflexivity. by apply busy_kept_same.
Qed.

Lemma busy_kept_update (this that : ptr) (win win' : cv_wl_window) (w w' : world) :
  heap w !! that = Some win →
  (that = this → is_busy (get_buf Buf0 win') = is_busy (get_buf Buf0 win) ∧
                 is_busy (get_buf Buf1 win') = is_busy (get_buf Buf1 win)) →
  heap w' = <[that := win']> (heap w) → busy_kept this w w'.
Proof.
  intros Hwin Hkept Hheap win0 Hwin0. rewrite Hheap.
  destruct (decide (that = this)) as [->|Hne].
  - exists win'. rewrite lookup_insert_eq. split; [done|].
    assert (win0 = win) as -> by congruence. by apply Hkept.
  - exists win0. by rewrite lookup_insert_ne.
Qed.

Lemma stable_busy_on_window this that method :
  (∀ win, buffers_ (method win).1 = buffers_ win) →
  stable (busy_kept this) (on_window that method).
Proof.
  intros Hmethod w. unfold on_window, deref. run_M.
  destruct (heap w !! that) as [win|] eqn:Hwin; [|reflexivity].
  specialize (Hmethod win). destruct (method win) as [win' calls]. cbn.
  cbn [heap set_heap set_mouse_log].
  eapply busy_kept_update; [done| |done].
  intros _. unfold get_buf. cbn in Hmethod. by rewrite Hmethod.
Qed.

Lemma stable_busy_on_buffer this that i method :
  that ≠ this → stable (busy_kept this) (on_buffer that i method).
Proof.
  intros Hne w. unfold on_buffer, deref. run_M.
  destruct (heap w !! that) as [win|] eqn:Hwin; [|reflexivity]. cbn.
  cbn [heap set_heap].
  by eapply busy_kept_update.
Qed.

Lemma buffers_mouse_button time btn st win :
  buffers_ (mouse_button time btn st win).1 = buffers_ win.
Proof.
  unfold mouse_button.
  by repeat match goal with |- context [decide ?P] => destruct (decide P) end.
Qed.

Lemma stable_busy_deliver this sym e :
  ¬ releases this e → stable (busy_kept this) (deliver sym e).
Proof.
  intros Hother.
  destruct e; unfold deliver, handle_pointer_enter, handle_pointer_leave,
    handle_pointer_motion, handle_pointer_button, handle_buffer_release;
    repeat first [ stable_step
                 | apply stable_busy_log | apply stable_busy_set_mouse
                 | apply stable_busy_on_keyboard
                 | apply stable_busy_on_buffer; exact Hother
                 | apply stable_busy_on_window; intros ?;
                   first [reflexivity | apply buffers_mouse_button] ].
Qed.

Lemma stable_busy_deliver_all this sym evs :
  Forall (fun e => ¬ releases this e) evs → stable (busy_kept this) (deliver_all sym evs).
Proof.
  induction 1 as [|e evs He Hevs IH]; cbn [deliver_all].
  - stable_step.
  - apply stable_bind; [apply _| |intros ?]; [by apply stable_busy_deliver|done].
Qed.

Lemma stable_busy_roundtrip this sym evs :
  Forall (fun e => ¬ releases this e) evs → stable (busy_kept this) (roundtrip sym evs).
Proof.
  intros Hevs. unfold roundtrip.
  apply stable_bind; [apply _| |intros ?]; [apply stable_busy_log|].
  by apply stable_busy_deliver_all.
Qed.

Lemma next_buffer_loop_busy sym trips (this : ptr) (w : world) (win : cv_wl_window) :
  heap w !! this = Some win →
  is_busy (get_buf Buf0 win) = true → is_busy (get_buf Buf1 win) = true →
  Forall (Forall (fun e => ¬ releases this e)) trips →
  ∀ i, (next_buffer_loop sym trips this w).1 ≠ Ok i.
Proof.
  intros Hwin H0 H1 Htrips. revert w win Hwin H0 H1.
  induction Htrips as [|evs trips Hevs Htrips IH]; intros w win Hwin H0 H1 i;
    cbn [next_buffer_loop]; [done|].
  pose proof (stable_busy_roundtrip this sym evs Hevs w) as Hkept.
  unfold mbind at 1, M_bind at 1.
  destruct (roundtrip sym evs w) as [[[]| | |] w1]; try done.
  destruct (Hkept win Hwin) as (win1 & Hwin1 & H0' & H1'). cbn [snd] in Hwin1.
  rewrite (bind_run _ _ _ _ _ (deref_run _ _ _ Hwin1)).
  rewrite H0', H0, H1', H1. cbn [negb].
  apply (IH w1 win1); congruence.
Qed.

(** X16.  While both buffers of the window are busy, [next_buffer] does
    not return before the compositor releases one of them: whatever
    other events the round trips bring, and however many round trips
    are made, no buffer is handed out. *)
Theorem next_buffer_waits_for_release sym trips (ans : shm_answer) (this : ptr)
    (w : world) (win : cv_wl_window) :
  heap w !! this = Some win →
  is_busy (get_buf Buf0 win) = true → is_busy (get_buf Buf1 win) = true →
  Forall (Forall (fun e => ¬ releases this e)) trips →
  ∀ i, (next_buffer sym trips ans this w).1 ≠ Ok i.
Proof.
  intros Hwin H0 H1 Htrips i.
  pose proof (next_buffer_loop_busy sym trips this w win Hwin H0 H1 Htrips) as Hloop.
  unfold next_buffer. unfold mbind at 1, M_bind at 1.
  destruct (next_buffer_loop sym trips this w) as [[j| | |] w1]; try done.
  by destruct (Hloop j).
Qed.

(** After two frames without a release both buffers of the sample window
    are busy; key events and the release of a buffer of another window
    do not free one. *)
Lemma next_buffer_waits_for_release_sample :
  let w := (cvShowImage sample_layout [[]] shm_fine "a" pixel_mat shown_world).2 in
  (∃ win, heap w !! 4096 = Some win ∧
          is_busy (get_buf Buf0 win) = true ∧ is_busy (get_buf Buf1 win) = true) ∧
  ∀ i, (next_buffer sample_layout
          [[ev_kb_key 30 0]; [ev_buffer_release 8192 Buf0; ev_other]] shm_fine 4096 w).1
       ≠ Ok i.
Proof.
  assert (∃ win, heap (cvShowImage sample_layout [[]] shm_fine "a" pixel_mat
                         shown_world).2 !! 4096 = Some win ∧
                 is_busy (get_buf Buf0 win) = true ∧ is_busy (get_buf Buf1 win) = true)
    as Hbusy.
  { eexists. split; [vm_compute; reflexivity|]. split; reflexivity. }
  split; [exact Hbusy|].
  destruct Hbusy as (win & Hwin & H0 & H1).
  apply (next_buffer_waits_for_release sample_layout _ shm_fine 4096 _ win Hwin H0 H1).
  repeat (apply Forall_cons; split); try apply Forall_nil_2; cbn; try tauto. lia.
Defined.

(** ** More on the event loop *)

Lemma epoll_fill_head (written : list epoll_event) (n : nat) :
  head (epoll_fill written (replicate (S n) zero_event))
  = Some (match written with [] => zero_event | e :: _ => e end).
Proof. unfold epoll_fill. by destruct written. Qed.

Lemma run_once_wait_result sym (ans : run_once_answers) (timeout : Z) (w : world) (v : Z) :
  (run_once_wait sym ans timeout w).1 = Ok v →
  v = match fired (waited ans) with [] => 0 | e :: _ => events e end.
Proof.
  unfold run_once_wait, epoller_wait, default_max_events.
  rewrite (bind_assoc_run _ _ _ w). rewrite (bind_run _ _ _ _ _ (gets_run _ _)).
  rewrite bind_assoc_run. erewrite bind_run; [|reflexivity].
  pose proof (epoll_fill_head (fired (waited ans)) 15) as Hhead.
  destruct (decide (event_num (waited ans) < 0)); [done|].
  erewrite bind_run; [|reflexivity].
  destruct (epoll_fill (fired (waited ans)) (replicate 16 zero_event)) as [|e0 evs];
    [done|].
  cbn [head] in Hhead. injection Hhead as ->.
  assert (Hv : events (match fired (waited ans) with [] => zero_event | e :: _ => e end)
               = match fired (waited ans) with [] => 0 | e :: _ => events e end)
    by (by destruct (fired (waited ans))).
  rewrite <- Hv.
  unfold mbind at 1, M_bind at 1.
  match goal with |- context [(if ?c then _ else _) ?w0] =>
    destruct ((if c then dispatch sym (dispatched_events ans) else skip) w0)
      as [[[]| | |] w1] end; try done.
  unfold mbind at 1, M_bind at 1.
  match goal with |- context [prod_rect] => idtac | |- (match ?m with _ => _ end).1 = _ → _ =>
    destruct m as [[[]| | |] w2] end; try done.
  by intros [= <-].
Qed.

(** X17.  Whenever [run_once] returns, it returns 0 if the flush failed
    with an error other than [EAGAIN], and otherwise the events of the
    first entry [epoll_wait] wrote, whatever else fired, or 0 when it
    wrote none: the first of the zeroed entries of the vector then has
    no bit set. *)
Theorem run_once_result sym (ans : run_once_answers) (timeout : Z) (w : world) (v : Z) :
  (run_once sym ans timeout w).1 = Ok v →
  v = if decide (flush_ret (flush1 ans) < 0 ∧ flush_errno (flush1 ans) ≠ EAGAIN) then 0
      else match fired (waited ans) with [] => 0 | e :: _ => events e end.
Proof.
  unfold run_once. unfold mbind at 1, M_bind at 1.
  destruct (dispatch_pending sym (pending_events ans) w) as [[[]| | |] w1]; try done.
  rewrite (bind_run _ _ _ _ _ (flush_run _ _)).
  destruct (decide (flush_ret (flush1 ans) < 0 ∧ flush_errno (flush1 ans) = EAGAIN))
    as [[Hret Herrno]|Hother].
  - rewrite decide_False by (intros [_ ?]; done).
    rewrite (bind_run _ _ _ _ _ (gets_run _ _)).
    unfold mbind at 1, M_bind at 1.
    destruct (epoller_modify _ _ _ _) as [[[]| | |] w2]; try done.
    apply run_once_wait_result.
  - destruct (decide (flush_ret (flush1 ans) < 0)) as [Hret|Hret].
    + rewrite decide_True by (split; [done|]; intros ?; by destruct Hother).
      by intros [= <-].
    + rewrite decide_False by (intros [? _]; done).
      apply run_once_wait_result.
Qed.

(** Two descriptors are ready and the first is only writable: the
    readable one is not reported. *)
Lemma run_once_result_sample :
  (run_once sample_layout
     {| pending_events := []; flush1 := quiet_flush; ctl1 := 0;
        waited := {| event_num := 2;
                     fired := [ {| events := EPOLLOUT; data_fd := 4 |};
                                {| events := EPOLLIN; data_fd := 5 |} ] |};
        dispatched_events := []; flush2 := quiet_flush; ctl2 := 0 |}
     250 sample_world).1
  = Ok EPOLLOUT.
Proof.
  assert (Hrun : ∃ v, (run_once sample_layout
     {| pending_events := []; flush1 := quiet_flush; ctl1 := 0;
        waited := {| event_num := 2;
                     fired := [ {| events := EPOLLOUT; data_fd := 4 |};
                                {| events := EPOLLIN; data_fd := 5 |} ] |};
        dispatched_events := []; flush2 := quiet_flush; ctl2 := 0 |}
     250 sample_world).1 = Ok v) by (eexists; reflexivity).
  destruct Hrun as [v Hv]. rewrite Hv. f_equal.
  apply (run_once_result _ _ _ _ _ Hv).
Defined.

(** X18.  A system call that fails in [run_once] ends [cvWaitKey] with
    an exception: when the flush would block and [epoll_ctl] fails,
    ["epoll_ctl: "]; when [epoll_wait] fails, for instance interrupted
    by a signal, ["epoll_wait: "].  The events that remain are not
    looked at. *)
Theorem cvWaitKey_system_error sym (ans : run_once_answers)
    (answers : list run_once_answers) (delay : Z) (w w1 : world) :
  dispatch_pending sym (pending_events ans) w = (Ok (), w1) →
  (flush_ret (flush1 ans) < 0 → flush_errno (flush1 ans) = EAGAIN) →
  (flush_ret (flush1 ans) < 0 ∧ ctl1 ans < 0 →
     (cvWaitKey sym (ans :: answers) delay w).1 = Throw "epoll_ctl: ") ∧
  ((flush_ret (flush1 ans) < 0 → 0 ≤ ctl1 ans) → event_num (waited ans) < 0 →
     (cvWaitKey sym (ans :: answers) delay w).1 = Throw "epoll_wait: ").
Proof.
  intros Hpending Hagain.
  assert (Hwait : ∀ w0, event_num (waited ans) < 0 →
            (run_once_wait sym ans (if decide (delay > 0) then delay else -1) w0).1
            = Throw "epoll_wait: ").
  { intros w0 Hnum. unfold run_once_wait, epoller_wait.
    rewrite (bind_assoc_run _ _ _ w0). rewrite (bind_run _ _ _ _ _ (gets_run _ _)).
    rewrite bind_assoc_run. erewrite bind_run; [|reflexivity].
    rewrite (decide_True (P := event_num (waited ans) < 0)) by done. reflexivity. }
  assert (Hthrow : ∀ msg,
            (run_once sym ans (if decide (delay > 0) then delay else -1) w).1 = Throw msg →
            (cvWaitKey sym (ans :: answers) delay w).1 = Throw msg).
  { intros msg Hrun. cbn [cvWaitKey]. unfold mbind at 1, M_bind at 1.
    by destruct (run_once _ _ _ w) as [[evs| | |] w2]; try done. }
  split.
  - intros [Hret Hctl]. apply Hthrow. unfold run_once.
    rewrite (bind_run _ _ _ _ _ Hpending).
    rewrite (bind_run _ _ _ _ _ (flush_run _ _)).
    rewrite decide_True by auto.
    rewrite (bind_run _ _ _ _ _ (gets_run _ _)).
    unfold epoller_modify, epoller_ctl.
    rewrite bind_assoc_run. rewrite (bind_run _ _ _ _ _ (gets_run _ _)).
    rewrite bind_assoc_run. erewrite bind_run; [|reflexivity].
    rewrite (decide_True (P := ctl1 ans < 0)) by done. reflexivity.
  - intros Hctl Hnum. apply Hthrow. unfold run_once.
    rewrite (bind_run _ _ _ _ _ Hpending).
    rewrite (bind_run _ _ _ _ _ (flush_run _ _)).
    destruct (decide (flush_ret (flush1 ans) < 0)) as [Hret|Hret].
    + rewrite decide_True by auto.
      rewrite (bind_run _ _ _ _ _ (gets_run _ _)).
      rewrite (bind_run _ _ _ _ _ (epoller_modify_run _ _ _ _ (Hctl Hret))).
      by apply Hwait.
    + rewrite decide_False by (intros [? _]; done).
      by apply Hwait.
Qed.

(** The wait is interrupted. *)
Lemma cvWaitKey_system_error_sample :
  (cvWaitKey sample_layout
     [ {| pending_events := []; flush1 := quiet_flush; ctl1 := 0;
          waited := {| event_num := -1; fired := [] |};
          dispatched_events := []; flush2 := quiet_flush; ctl2 := 0 |};
       answers_key 30 ] 0 sample_world).1
  = Throw "epoll_wait: ".
Proof.
  eapply cvWaitKey_system_error.
  - reflexivity.
  - cbn. lia.
  - cbn. lia.
  - cbn. lia.
Defined.

(** *** Waiting without keys *)

#[global] Instance no_keys_kept_preorder : PreOrder no_keys_kept.
Proof. split; [by intros w Hw|]. intros w1 w2 w3 H12 H23 Hw1. auto. Qed.

Lemma no_keys_kept_same (f : world → world) :
  (∀ w, queued_keys (f w) = queued_keys w) → ∀ w, no_keys_kept w (f w).
Proof. intros Hf w. unfold no_keys_kept, no_keys. by rewrite Hf. Qed.

Lemma stable_no_keys_modify (f : world → world) :
  (∀ w, queued_keys (f w) = queued_keys w) → stable no_keys_kept (modify f).
Proof. intros Hf. by apply stable_modify, no_keys_kept_same. Qed.

Lemma stable_no_keys_log a : stable no_keys_kept (log a).
Proof. by apply stable_no_keys_modify. Qed.

Lemma stable_no_keys_assign this win : stable no_keys_kept (assign this win).
Proof. by apply stable_no_keys_modify. Qed.

Lemma stable_no_keys_set_mouse m : stable no_keys_kept (set_mouse m).
Proof.
  apply stable_no_keys_modify. intros w. unfold queued_keys.
  destruct (the_input w) as [inp|] eqn:Hinp; cbn; [done|by rewrite Hinp].
Qed.

Lemma stable_no_keys_on_window this method : stable no_keys_kept (on_window this method).
Proof.
  unfold on_window.
  repeat first [ stable_step | apply stable_no_keys_assign
               | by apply stable_no_keys_modify ].
Qed.

Lemma stable_no_keys_on_buffer this i method :
  stable no_keys_kept (on_buffer this i method).
Proof. unfold on_buffer. repeat first [ stable_step | apply stable_no_keys_assign ]. Qed.

Lemma stable_no_keys_on_keyboard handler :
  (∀ kb kb', key_queue_ kb = [] → handler kb = Ok kb' → key_queue_ kb' = []) →
  stable no_keys_kept (on_keyboard handler).
Proof.
  intros Hhandler w. unfold on_keyboard.
  destruct (the_input w) as [inp|] eqn:Hinp; [|reflexivity].
  destruct (keyboard_ inp) as [kb|] eqn:Hkb; [|reflexivity].
  destruct (handler kb) as [kb'| | |] eqn:Hrun; try reflexivity.
  unfold no_keys_kept, no_keys, queued_keys. rewrite Hinp. cbn. rewrite Hkb. cbn.
  intros Hq. by eapply Hhandler.
Qed.

Lemma stable_no_keys_deliver sym e :
  ¬ key_release e → stable no_keys_kept (deliver sym e).
Proof.
  intros Hother.
  destruct e; unfold deliver, handle_pointer_enter, handle_pointer_leave,
    handle_pointer_motion, handle_pointer_button, handle_buffer_release;
    repeat first [ stable_step
                 | apply stable_no_keys_log | apply stable_no_keys_set_mouse
                 | apply stable_no_keys_on_window | apply stable_no_keys_on_buffer ].
  - apply stable_no_keys_on_keyboard. intros kb kb' Hq Hrun.
    by rewrite (proj1 (handle_kb_keymap_queue format ans kb kb' Hrun)).
  - apply stable_no_keys_on_keyboard. intros kb kb' Hq.
    rewrite handle_kb_key_not_released by done. by intros [= <-].
Qed.

Lemma stable_no_keys_deliver_all sym evs :
  Forall (fun e => ¬ key_release e) evs → stable no_keys_kept (deliver_all sym evs).
Proof.
  induction 1 as [|e evs He Hevs IH]; cbn [deliver_all].
  - stable_step.
  - apply stable_bind; [apply _| |intros ?]; [by apply stable_no_keys_deliver|done].
Qed.

Lemma stable_no_keys_run_once sym ans timeout :
  no_release ans → stable no_keys_kept (run_once sym ans timeout).
Proof.
  intros [Hpending Hdispatched].
  unfold run_once, run_once_wait, epoller_modify, epoller_ctl, epoller_wait,
    dispatch, dispatch_pending, flush.
  repeat first [ stable_step | apply stable_no_keys_log
               | by apply stable_no_keys_deliver_all ].
Qed.

Lemma poll_key_no_keys (w : world) :
  no_keys w →
  no_keys (poll_key w).2 ∧ ∀ key, (poll_key w).1 = Ok key → key = -1.
Proof.
  unfold poll_key, input, keyboard, no_keys, queued_keys. run_M.
  destruct (the_input w) as [inp|] eqn:Hinp; cbn; [|by rewrite Hinp].
  destruct (keyboard_ inp) as [kb|] eqn:Hkb; cbn; [|by rewrite Hinp; cbn; rewrite Hkb].
  intros ->. split; [done|]. by intros key [= <-].
Qed.

(** X19.  [cvWaitKey] returns only after the release of a key.  When no
    key waits in the queue and the events that arrive hold no release,
    the call does not return a key, and it does not return "none"
    either: not when the waits time out, and not for any [delay], a
    positive one included. *)
Theorem cvWaitKey_needs_release sym (answers : list run_once_answers) (delay : Z)
    (w : world) :
  no_keys w → Forall no_release answers →
  ∀ key, (cvWaitKey sym answers delay w).1 ≠ Ok key.
Proof.
  intros Hw Hanswers. revert w Hw.
  induction Hanswers as [|ans answers Hans Hanswers IH]; intros w Hw key;
    cbn [cvWaitKey]; [done|].
  pose proof (stable_no_keys_run_once sym ans (if decide (delay > 0) then delay else -1)
                Hans w Hw) as Hw1.
  unfold mbind at 1, M_bind at 1.
  destruct (run_once _ _ _ w) as [[evs| | |] w1]; try done. cbn [snd] in Hw1.
  destruct (decide (Z.land evs EPOLLIN ≠ 0)); [|by apply IH].
  destruct (poll_key_no_keys w1 Hw1) as [Hw2 Hkey].
  unfold mbind at 1, M_bind at 1.
  destruct (poll_key w1) as [[k| | |] w2]; try done. cbn [fst snd] in *.
  rewrite (Hkey k eq_refl). rewrite decide_False by lia. by apply IH.
Qed.

(** Three waits of 250 ms time out, then the press of a key arrives:
    the call has not returned. *)
Lemma cvWaitKey_needs_release_sample :
  no_keys sample_world ∧
  ∀ key, (cvWaitKey sample_layout
            [answers_timeout; answers_timeout; answers_timeout;
             {| pending_events := [ev_other]; flush1 := quiet_flush; ctl1 := 0;
                waited := {| event_num := 1;
                             fired := [ {| events := EPOLLIN; data_fd := 4 |} ] |};
                dispatched_events := [ev_kb_key 30 WL_KEYBOARD_KEY_STATE_PRESSED];
                flush2 := quiet_flush; ctl2 := 0 |}] 250 sample_world).1 ≠ Ok key.
Proof.
  assert (Hnone : no_keys sample_world) by reflexivity.
  split; [exact Hnone|].
  apply (cvWaitKey_needs_release sample_layout _ 250 sample_world Hnone).
  repeat (apply Forall_cons; split); try apply Forall_nil_2;
    try (split; [apply Forall_nil_2|apply Forall_nil_2]).
  split; repeat (apply Forall_cons; split); try apply Forall_nil_2; cbn; [tauto|discriminate].
Defined.

(** ** More on the construction of the display *)

(** The interfaces [init] asks for. *)
Lemma shm_format_bit (formats f : Z) :
  0 ≤ f < 32 →
  Z.land (Z.lor formats (uint32 (Z.shiftl 1 f))) (Z.shiftl 1 WL_SHM_FORMAT_XRGB8888) ≠ 0 →
  Z.land formats (Z.shiftl 1 WL_SHM_FORMAT_XRGB8888) ≠ 0 ∨ f = WL_SHM_FORMAT_XRGB8888.
Proof.
  intros Hf Hbit. destruct (decide (f = WL_SHM_FORMAT_XRGB8888)) as [|Hne]; [by right|].
  left. intros Hzero. apply Hbit. rewrite Z.land_lor_distr_l, Hzero, Z.lor_0_l.
  unfold uint32. rewrite Z.shiftl_1_l, Z.mod_small
    by (split; [lia|apply Z.pow_lt_mono_r; lia]).
  change (Z.shiftl 1 WL_SHM_FORMAT_XRGB8888) with (2 ^ 1).
  apply Z.bits_inj'. intros k Hk. rewrite Z.land_spec, !Z.pow2_bits_eqb, Z.bits_0 by lia.
  unfold WL_SHM_FORMAT_XRGB8888 in Hne.
  destruct (Z.eqb_spec f k), (Z.eqb_spec 1 k); try done. lia.
Qed.

Lemma deliver_binds (e : Bootstrap.event) (d d' : Bootstrap.display) :
  Bootstrap.deliver e d = Ok d' →
  (Bootstrap.compositor_ d' ≠ None →
     Bootstrap.compositor_ d ≠ None ∨ ∃ p, e = Bootstrap.global "wl_compositor" (Some p)) ∧
  (Bootstrap.shm_ d' ≠ None →
     Bootstrap.shm_ d ≠ None ∨ ∃ p, e = Bootstrap.global "wl_shm" (Some p)) ∧
  (Bootstrap.shell_ d' ≠ None →
     Bootstrap.shell_ d ≠ None ∨ ∃ p, e = Bootstrap.global "xdg_shell" (Some p)) ∧
  (Bootstrap.input_ d' ≠ None →
     Bootstrap.input_ d ≠ None ∨ ∃ p, e = Bootstrap.global "wl_seat" (Some p)) ∧
  (Z.land (Bootstrap.formats_ d') (Z.shiftl 1 WL_SHM_FORMAT_XRGB8888) ≠ 0 →
     Z.land (Bootstrap.formats_ d) (Z.shiftl 1 WL_SHM_FORMAT_XRGB8888) ≠ 0
     ∨ e = Bootstrap.format WL_SHM_FORMAT_XRGB8888) ∧
  Bootstrap.poller_ d' = Bootstrap.poller_ d ∧
  Bootstrap.display_ d' = Bootstrap.display_ d ∧
  Bootstrap.registered d' = Bootstrap.registered d.
Proof.
  destruct e as [iface proxy|f|c caps|]; cbn [Bootstrap.deliver].
  - unfold Bootstrap.handle_reg_global.
    destruct (decide (iface = "wl_compositor")) as [->|?].
    { intros [= <-]. cbn. split_and!; auto.
      destruct proxy as [p|]; [|done]. intros _. right. by exists p. }
    destruct (decide (iface = "wl_shm")) as [->|?].
    { destruct proxy as [p|]; [|done]. intros [= <-]. cbn. split_and!; auto.
      intros _. right. by exists p. }
    destruct (decide (iface = "xdg_shell")) as [->|?].
    { destruct proxy as [p|]; [|done]. intros [= <-]. cbn. split_and!; auto.
      intros _. right. by exists p. }
    destruct (decide (iface = "wl_seat")) as [->|?].
    { destruct proxy as [p|]; [|done]. cbn. intros [= <-]. cbn. split_and!; auto.
      intros _. right. by exists p. }
    intros [= <-]. split_and!; auto.
  - destruct (Bootstrap.shm_ d) as [q|] eqn:Hshm;
      [|intros [= <-]; rewrite ?Hshm; split_and!; auto].
    unfold Bootstrap.handle_shm_format.
    destruct (decide (0 ≤ f < 32)) as [Hf|]; [|done].
    intros [= <-]. cbn. split_and!; auto.
    intros Hbit. destruct (shm_format_bit _ _ Hf Hbit) as [?|Heq]; [by left|].
    right. by rewrite Heq.
  - destruct (Bootstrap.input_ d) as [inp|] eqn:Hinp;
      [|intros [= <-]; rewrite ?Hinp; split_and!; auto].
    destruct (handle_seat_capabilities c caps inp); try done. cbn.
    intros [= <-]. cbn. split_and!; auto.
  - intros [= <-]. split_and!; auto.
Qed.

Lemma roundtrip_binds (evs : list Bootstrap.event) (d d' : Bootstrap.display) :
  Bootstrap.roundtrip evs d = Ok d' →
  (Bootstrap.compositor_ d' ≠ None →
     Bootstrap.compositor_ d ≠ None
     ∨ ∃ p, Bootstrap.global "wl_compositor" (Some p) ∈ evs) ∧
  (Bootstrap.shm_ d' ≠ None →
     Bootstrap.shm_ d ≠ None ∨ ∃ p, Bootstrap.global "wl_shm" (Some p) ∈ evs) ∧
  (Bootstrap.shell_ d' ≠ None →
     Bootstrap.shell_ d ≠ None ∨ ∃ p, Bootstrap.global "xdg_shell" (Some p) ∈ evs) ∧
  (Bootstrap.input_ d' ≠ None →
     Bootstrap.input_ d ≠ None ∨ ∃ p, Bootstrap.global "wl_seat" (Some p) ∈ evs) ∧
  (Z.land (Bootstrap.formats_ d') (Z.shiftl 1 WL_SHM_FORMAT_XRGB8888) ≠ 0 →
     Z.land (Bootstrap.formats_ d) (Z.shiftl 1 WL_SHM_FORMAT_XRGB8888) ≠ 0
     ∨ Bootstrap.format WL_SHM_FORMAT_XRGB8888 ∈ evs) ∧
  Bootstrap.poller_ d' = Bootstrap.poller_ d ∧
  Bootstrap.display_ d' = Bootstrap.display_ d ∧
  Bootstrap.registered d' = Bootstrap.registered d.
Proof.
  revert d. induction evs as [|e evs IH]; intros d; cbn [Bootstrap.roundtrip].
  - intros [= <-]. split_and!; auto.
  - destruct (Bootstrap.deliver e d) as [d1| | |] eqn:He; try done. cbn.
    intros Hrest.
    destruct (deliver_binds e d d1 He) as (Hc & Hs & Hx & Hi & Hf & Hp & Hd & Hr).
    destruct (IH d1 Hrest) as (Hc' & Hs' & Hx' & Hi' & Hf' & Hp' & Hd' & Hr').
    split_and!; try congruence.
    + intros H. destruct (Hc' H) as [H1|[p Hp1]].
      * destruct (Hc H1) as [?|[p ->]]; [by left|]. right. exists p. by left.
      * right. exists p. by right.
    + intros H. destruct (Hs' H) as [H1|[p Hp1]].
      * destruct (Hs H1) as [?|[p ->]]; [by left|]. right. exists p. by left.
      * right. exists p. by right.
    + intros H. destruct (Hx' H) as [H1|[p Hp1]].
      * destruct (Hx H1) as [?|[p ->]]; [by left|]. right. exists p. by left.
      * right. exists p. by right.
    + intros H. destruct (Hi' H) as [H1|[p Hp1]].
      * destruct (Hi H1) as [?|[p ->]]; [by left|]. right. exists p. by left.
      * right. exists p. by right.
    + intros H. destruct (Hf' H) as [H1|Hin].
      * destruct (Hf H1) as [?| ->]; [by left|]. right. by left.
      * right. by right.
Qed.

(** The globals a constructed display was announced. *)
Lemma construct_globals (ans : Bootstrap.answers) (d : Bootstrap.display) :
  Bootstrap.construct ans = Ok d →
  Forall (fun iface => ∃ p, Bootstrap.global iface (Some p) ∈ Bootstrap.trip1 ans)
    ["wl_compositor"; "wl_shm"; "xdg_shell"; "wl_seat"].
Proof.
  unfold Bootstrap.construct.
  destruct (decide (Bootstrap.epoll_create ans < 0)) as [|Hepoll]; [done|].
  destruct (Bootstrap.connected ans) as [c|] eqn:Hconn; [|done].
  destruct (Bootstrap.roundtrip (Bootstrap.trip1 ans) _) as [d1| | |] eqn:Htrip1; try done.
  cbn.
  destruct (decide (Bootstrap.compositor_ d1 = None ∨ Bootstrap.shm_ d1 = None
                    ∨ Bootstrap.shell_ d1 = None ∨ Bootstrap.input_ d1 = None))
    as [|Hbound]; [done|].
  intros _.
  destruct (roundtrip_binds _ _ _ Htrip1) as (Hc & Hs & Hx & Hi & _).
  cbn in Hc, Hs, Hx, Hi.
  repeat (apply Forall_cons; split); [| | | |apply Forall_nil_2].
  - destruct Hc as [?|?]; [|done..]. intros ?. apply Hbound. auto.
  - destruct Hs as [?|?]; [|done..]. intros ?. apply Hbound. auto.
  - destruct Hx as [?|?]; [|done..]. intros ?. apply Hbound. auto.
  - destruct Hi as [?|?]; [|done..]. intros ?. apply Hbound. auto.
Qed.



(** X21.  When the first round trip does not announce one of the four
    interfaces with a proxy that is not null, a compositor without a
    seat for instance, [cvInitSystem] still returns 0 whenever it
    returns: the core is left allocated without a display, and every
    later call returns 0 at once and initialises nothing. *)
Theorem cvInitSystem_missing_interface (ans : Bootstrap.answers) (iface : string)
    (r : Z) (g : Bootstrap.core) :
  iface ∈ ["wl_compositor"; "wl_shm"; "xdg_shell"; "wl_seat"] →
  (∀ p, Bootstrap.global iface (Some p) ∉ Bootstrap.trip1 ans) →
  Bootstrap.cvInitSystem true ans None = Ok (r, g) →
  r = 0 ∧ g = Some None ∧
  ∀ allocated ans', Bootstrap.cvInitSystem allocated ans' g = Ok (0, g).
Proof.
  intros Hiface Hmissing. unfold Bootstrap.cvInitSystem, Bootstrap.core_init.
  destruct (Bootstrap.construct ans) as [d| | |] eqn:Hconstruct; cbn; try done.
  - pose proof (construct_globals ans d Hconstruct) as Hall.
    destruct (proj1 (Forall_forall _ _) Hall iface Hiface) as [p Hp].
    by destruct (Hmissing p).
  - by intros [= <- <-].
Qed.

Lemma cvInitSystem_missing_interface_sample :
  Bootstrap.construct seatless_handshake
  = Throw "Compositor doesn't have required interfaces" ∧
  Bootstrap.cvInitSystem true seatless_handshake None = Ok (0, Some None) ∧
  Bootstrap.cvInitSystem true full_handshake (Some None) = Ok (0, Some None).
Proof.
  assert (Hrun : Bootstrap.cvInitSystem true seatless_handshake None = Ok (0, Some None))
    by reflexivity.
  destruct (cvInitSystem_missing_interface seatless_handshake "wl_seat" 0 (Some None))
    as (_ & _ & Hlater);
    [do 3 right; left| |exact Hrun|].
  - intros p Hin. cbn in Hin.
    repeat (apply elem_of_cons in Hin as [Hin|Hin]; [discriminate Hin|]).
    by apply elem_of_nil in Hin.
  - split; [reflexivity|]. split; [exact Hrun|apply Hlater].
Defined.
